(** * Slither: the event bus, the allocation grid, the scheduler and the
      game orchestrator, embedded from the JavaScript sources.

    Every definition below follows one function of the sources under
    [js/slither/]; the name of the JavaScript function is kept, and each
    module names the package it embeds. *)

From Stdlib Require Import ZArith Lia List QArith Qround.
From Stdlib Require Import Floats.PrimFloat Floats.FloatOps Floats.SpecFloat.
From Stdlib Require Import Uint63.
From stdpp Require Import base gmap strings list.

#[global] Set Warnings "-inexact-float".
#[global] Set Warnings "-clear-no-such-hyp".

Local Open Scope Z_scope.

(** ** JavaScript values

    The part of the JavaScript value universe the engine passes around:
    functions and objects are identified by a reference (strict equality
    [===] on them is equality of references), numbers are the integers the
    engine computes with.  Where the sources compute with fractions (the
    bias percentages of a level, the growth factors of the player) the
    numbers are binary64 floats, as in JavaScript. *)
Module JS.

Inductive value : Type :=
| Undefined
| Null
| Bool (b : bool)
| Num (n : Z)
| Str (s : string)
| Fun (ref : nat)
| Obj (ref : nat).

#[global] Instance value_eq_dec : EqDecision value.
Proof. solve_decision. Defined.

(** [typeof(v) == 'function'] *)
Definition is_function (v : value) : bool :=
  match v with Fun _ => true | _ => false end.

(** The truthiness test of [if (v)], [!v] and [v && ...]. *)
Definition truthy (v : value) : bool :=
  match v with
  | Undefined | Null => false
  | Bool b => b
  | Num n => negb (n =? 0)
  | Str s => negb (String.length s =? 0)%nat
  | Fun _ | Obj _ => true
  end.

(** What running a piece of code gives: a normal completion, an uncaught
    exception, or no completion within the number of loop iterations the
    model was given. *)
Inductive outcome (A : Type) : Type :=
| Done (a : A)
| Threw
| Timeout.
Arguments Done {A} a.
Arguments Threw {A}.
Arguments Timeout {A}.

End JS.
Import JS.

(** ** Package Slither.Core.EventManager (core/event_manager.js) *)
Module EventManager.

(** A handler object [{ callback: ..., owner: ... }]; a handler pushed
    without owner has no [owner] property, which reads as [undefined]. *)
Record handler : Type := Handler { callback : value; owner : value }.

#[global] Instance handler_eq_dec : EqDecision handler.
Proof. solve_decision. Defined.

(** [this.events]: event type -> list of handlers, in registration
    order. *)
Abbreviation events := (gmap string (list handler)).

(** The loop of [searchForCallback], started at index [i]. *)
Fixpoint searchFrom (i : Z) (handlers : list handler)
    (callback owner : value) : Z :=
  match handlers with
  | [] => -1
  | h :: rest =>
      if truthy owner then
        if bool_decide (h.(EventManager.callback) = callback)
           && bool_decide (h.(EventManager.owner) = owner)
        then i else searchFrom (i + 1) rest callback owner
      else if bool_decide (h.(EventManager.callback) = callback) then i
      else searchFrom (i + 1) rest callback owner
  end.

(** [searchForCallback(handlers, callback, owner)]; [handlers] is [None]
    for a falsy first argument. *)
Definition searchForCallback (handlers : option (list handler))
    (callback owner : value) : Z :=
  match handlers with
  | None => -1
  | Some hs =>
      if negb (is_function callback) then -1
      else searchFrom 0 hs callback owner
  end.

(** [register(event_type, callback, owner)]: the new table and the value
    returned. *)
Definition register (event_type : string) (callback owner : value)
    (ev : events) : events * bool :=
  if negb (is_function callback) then (ev, false)
  else
    let ev1 := match ev !! event_type with
               | Some _ => ev
               | None => <[event_type := []]> ev
               end in
    let handlers := default [] (ev1 !! event_type) in
    if searchForCallback (Some handlers) callback owner =? -1 then
      let handler :=
        Handler callback (if truthy owner then owner else Undefined) in
      (<[event_type := handlers ++ [handler]]> ev1, true)
    else (ev1, false).

(** [clear(event_type)] *)
Definition clear (event_type : string) (ev : events) : events * bool :=
  match ev !! event_type with
  | Some _ => (delete event_type ev, true)
  | None => (ev, false)
  end.

(** [clearAll()] *)
Definition clearAll (ev : events) : events := ∅.

(** [handlers.splice(index, 1)] *)
Definition splice1 {A} (index : nat) (l : list A) : list A :=
  take index l ++ drop (S index) l.

(** [unregister(event_type, callback, owner)] *)
Definition unregister (event_type : string) (callback owner : value)
    (ev : events) : events * bool :=
  if negb (is_function callback) then (ev, false)
  else
    match ev !! event_type with
    | Some handlers =>
        let index := searchForCallback (Some handlers) callback owner in
        if negb (index =? -1) then
          let handlers' := splice1 (Z.to_nat index) handlers in
          let ev1 := <[event_type := handlers']> ev in
          if (length handlers' =? 0)%nat
          then ((clear event_type ev1).1, true)
          else (ev1, true)
        else (ev, false)
    | None => (ev, false)
    end.

Section Dispatch.

(** What calling the function with reference [f] does: [run f this
    sender data ev] is the handler table the call leaves behind (a
    callback may itself register, unregister or trigger) and the value
    it returns.  Callbacks are taken not to throw. *)
Variable run : nat → value → value → value → events → events * value.

(** The [for] loop of [trigger] from index [i] on.  The loop re-reads
    [this.events[event_type]] at every iteration, so the handlers a
    callback adds or removes are seen by the iterations that follow;
    reading [.length] of a list that a callback has deleted throws.
    [fired] collects, in order, the handlers this call has invoked. *)
Fixpoint trigger_loop (fuel : nat) (event_type : string)
    (sender data target_only : value) (i : nat) (ev : events)
    (fired : list handler) : outcome (events * list handler) :=
  match fuel with
  | O => Timeout
  | S fuel' =>
      match ev !! event_type with
      | None => Threw
      | Some handlers =>
          match handlers !! i with
          | None => Done (ev, fired)
          | Some h =>
              if truthy target_only
                 && negb (bool_decide (target_only = h.(owner)))
              then trigger_loop fuel' event_type sender data target_only
                     (S i) ev fired
              else
                match h.(callback) with
                | Fun f =>
                    let this :=
                      if truthy h.(owner) then h.(owner) else Undefined in
                    let '(ev', res) := run f this sender data ev in
                    if bool_decide (res = Bool false)
                    then Done (ev', fired ++ [h])
                    else trigger_loop fuel' event_type sender data
                           target_only (S i) ev' (fired ++ [h])
                | _ => trigger_loop fuel' event_type sender data
                         target_only (S i) ev fired
                end
          end
      end
  end.

(** [trigger(event_type, sender, data, target_only)] *)
Definition trigger (fuel : nat) (event_type : string)
    (sender data target_only : value) (ev : events)
    : outcome (events * list handler) :=
  match ev !! event_type with
  | Some _ => trigger_loop fuel event_type sender data target_only 0 ev []
  | None => Done (ev, [])
  end.

End Dispatch.

(** *** Vocabulary of the statements about a dispatch *)

(** A handler is the one [searchForCallback] looks for. *)
Definition matches (cb ow : value) (h : handler) : Prop :=
  if truthy ow
  then h.(callback) = cb ∧ h.(owner) = ow
  else h.(callback) = cb.

Section Invocation.

Variable run : nat → value → value → value → events → events * value.
Variables sender data target_only : value.

(** The handler is skipped by the target filter of [trigger]. *)
Definition filtered (h : handler) : bool :=
  truthy target_only && negb (bool_decide (target_only = h.(owner))).

(** The value the callback of a handler returns on the event, in the
    table [ev]. *)
Definition result (ev : events) (h : handler) : value :=
  match h.(callback) with
  | Fun f =>
      (run f (if truthy h.(owner) then h.(owner) else Undefined)
         sender data ev).2
  | _ => Undefined
  end.

(** The callbacks of the handlers leave the table [ev] as it is. *)
Definition quiet (ev : events) (hs : list handler) : Prop :=
  ∀ h f, h ∈ hs → h.(callback) = Fun f →
    (run f (if truthy h.(owner) then h.(owner) else Undefined)
       sender data ev).1 = ev.

(** The handlers of a list that one dispatch invokes, when callbacks
    leave the table as it is. *)
Fixpoint fires (ev : events) (hs : list handler) : list handler :=
  match hs with
  | [] => []
  | h :: rest =>
      if filtered h then fires ev rest
      else if is_function h.(callback) then
        if bool_decide (result ev h = Bool false) then [h]
        else h :: fires ev rest
      else fires ev rest
  end.

End Invocation.

(** *** Sequences of calls of the interface *)

(** A call of [register], [unregister], [clear] or [clearAll]. *)
Inductive call : Type :=
| CallRegister (event_type : string) (callback owner : value)
| CallUnregister (event_type : string) (callback owner : value)
| CallClear (event_type : string)
| CallClearAll.

Definition call_step (ev : events) (c : call) : events :=
  match c with
  | CallRegister event_type callback owner =>
      (register event_type callback owner ev).1
  | CallUnregister event_type callback owner =>
      (unregister event_type callback owner ev).1
  | CallClear event_type => (clear event_type ev).1
  | CallClearAll => clearAll ev
  end.

(** The table after a sequence of calls, first call first. *)
Definition call_run (calls : list call) (ev : events) : events :=
  foldl call_step ev calls.

(** No event type is left with an empty list of handlers, and no list
    holds the same handler, callback and owner, twice. *)
Definition tidy (ev : events) : Prop :=
  ∀ event_type hs, ev !! event_type = Some hs → hs ≠ [] ∧ NoDup hs.

End EventManager.

(** ** Math: the functions of JavaScript's [Math] object the engine uses,
       on binary64 floats. *)
Module Math.

Definition two52 : float := Eval cbv in of_uint63 4503599627370496%uint63.

(** The nearest integer, ties to even, of a float below [2^52] in absolute
    value (adding and subtracting [2^52] rounds the fraction bits away). *)
Definition rint (x : float) : float :=
  if (x <? 0)%float then ((x - two52) + two52)%float
  else ((x + two52) - two52)%float.

(** [Math.floor]; floats from [2^52] on are integers already. *)
Definition floor (x : float) : float :=
  if is_nan x || (two52 <=? abs x)%float then x
  else let r := rint x in if (x <? r)%float then (r - 1)%float else r.

(** [Math.ceil] *)
Definition ceil (x : float) : float :=
  if is_nan x || (two52 <=? abs x)%float then x
  else let r := rint x in if (r <? x)%float then (r + 1)%float else r.

(** [Math.abs] *)
Definition abs (x : float) : float := PrimFloat.abs x.

(** An integer as a JavaScript number (exact below [2^53]). *)
Definition of_Z (z : Z) : float :=
  if z <? 0 then (- of_uint63 (Uint63.of_Z (- z)))%float
  else of_uint63 (Uint63.of_Z z).

(** The integer a float with an integral value stands for. *)
Definition to_Z (x : float) : Z :=
  match Prim2SF x with
  | S754_finite s m e =>
      let v := if 0 <=? e then Z.pos m * 2 ^ e else Z.pos m / 2 ^ (- e) in
      if s then - v else v
  | _ => 0
  end.

(** [Math.round(a / b)] for integers [a] and [b > 0]: the quotient rounded
    to the nearest integer, halves upwards. *)
Definition round_div (a b : Z) : Z := (2 * a + b) / (2 * b).

End Math.

(** ** Slither (core.js): constants, enumerations and utilities *)
Module Slither.

Definition FRAME_RATE : Z := 40.

Module SpeedLevels.
Definition Min : Z := 1.
Definition Max : Z := 5.
End SpeedLevels.

Module Headings.
Definition Left : Z := 1.
Definition Up : Z := 2.
Definition Right : Z := 3.
Definition Down : Z := 4.
End Headings.

Module UpgradeItemTypes.
Definition ExtraLife : Z := 1.
Definition TimeWarp : Z := 2.
Definition WallBreaker : Z := 3.
Definition RatParalyzer : Z := 4.
Definition ShieldsUp : Z := 5.
End UpgradeItemTypes.

Module PoisonItemTypes.
Definition Deadly : Z := 1.
Definition Toxic : Z := 2.
Definition Obnoxious : Z := 3.
End PoisonItemTypes.

(** [genNumber(low, high)]; [random] is the number [Math.random()] gives
    when it is called, a real of the interval [0, 1) taken as a rational,
    so that its product with the width of the range is exact. *)
Definition genNumber (low high : Z) (random : Q) : Z :=
  if low =? high then low
  else Qfloor (random * inject_Z (high - low + 1)) + low.

(** The classes of [Slither.Objects]. *)
Inductive class : Type :=
| Grain | Mouse | Rat | Snake | Wall | UpgradeItem | PoisonItem.

#[global] Instance class_eq_dec : EqDecision class.
Proof. solve_decision. Defined.

(** The argument of a [setSpeed]: a number, the string ['random'], or
    nothing. *)
Inductive speed_arg : Type :=
| SpeedNum (n : Z)
| SpeedRandom
| SpeedUndefined.

(** The argument of [Base.setHeading]: a number, the string ['random'],
    or nothing. *)
Inductive heading_arg : Type :=
| HeadingNum (n : Z)
| HeadingRandom
| HeadingUndefined.

End Slither.

(** ** Class Slither.Objects.Base (core.js) *)
Module Base.

(** The fields of a game object.  [speed] and [frame_skip_ctr] are [None]
    while the property is undefined; [ref] is the identity of the
    object. *)
Record t : Type := Make {
  ref : nat;
  cls : Slither.class;
  speed : option Z;
  body_blocks : list (Z * Z);
  animated : bool;
  drawn : bool;
  frame_skip_ctr : option Z
}.

(** [!v] for a numeric property that may be undefined. *)
Definition falsy (v : option Z) : bool :=
  match v with None => true | Some n => n =? 0 end.

(** [getSpeed()]: [this.speed || Slither.SpeedLevels.Min] *)
Definition getSpeed (o : t) : Z :=
  if falsy o.(speed) then Slither.SpeedLevels.Min
  else default 0 o.(speed).

(** The value [setSpeed(speed)] stores. *)
Definition clampSpeed (arg : Slither.speed_arg) (random : Q) : Z :=
  match arg with
  | Slither.SpeedUndefined => Slither.SpeedLevels.Min
  | Slither.SpeedNum n =>
      if (n =? 0) || (n <? Slither.SpeedLevels.Min)
      then Slither.SpeedLevels.Min
      else if n >? Slither.SpeedLevels.Max then Slither.SpeedLevels.Max
      else n
  | Slither.SpeedRandom =>
      Slither.genNumber Slither.SpeedLevels.Min Slither.SpeedLevels.Max
        random
  end.

(** [setSpeed(speed)] *)
Definition setSpeed (arg : Slither.speed_arg) (random : Q) (o : t) : t :=
  Make o.(ref) o.(cls) (Some (clampSpeed arg random)) o.(body_blocks)
    o.(animated) o.(drawn) o.(frame_skip_ctr).

(** The fields the constructor [Base(boundaries, context, options)] sets,
    before it registers the object on the bus and requests its first
    block. *)
Definition init (ref : nat) (cls : Slither.class) (animated : bool)
    (speed : Slither.speed_arg) (random : Q) : t :=
  setSpeed speed random (Make ref cls None [] animated false None).

(** [Base.DEFAULT_OPTIONS.block_size], the block size [Base] enforces for
    every object. *)
Definition block_size : Z := 10.

(** [adjustBlockWrap(coord)] on a board of the given [(width, height)]:
    the coordinate after the adjustment.  Each test returns once it has
    adjusted its axis. *)
Definition adjustBlockWrap (boundaries : Z * Z) (coord : Z * Z) : Z * Z :=
  let '(x, y) := coord in
  if y <? 0 then (x, boundaries.2 - block_size)
  else if y >? boundaries.2 - block_size then (x, 0)
  else if x <? 0 then (boundaries.1 - block_size, y)
  else if x >? boundaries.1 - block_size then (0, y)
  else (x, y).

(** The values of [Slither.Headings], in the order in which
    [for (key in Slither.Headings)] enumerates the keys. *)
Definition headings : list Z :=
  [Slither.Headings.Left; Slither.Headings.Up; Slither.Headings.Right;
   Slither.Headings.Down].

(** [getHeading()] of [Base], for the value of [this.heading]:
    [this.heading || Slither.Headings.Right] *)
Definition getHeading (heading : option Z) : Z :=
  if falsy heading then Slither.Headings.Right else default 0 heading.

(** The [do ... while] loop of [setHeading('random')]: a key is drawn
    until its heading differs from [last]; [k] counts the calls of
    [Math.random] made so far.  An index outside the list of keys gives
    [undefined], which differs from [last]. *)
Fixpoint randomHeading (fuel : nat) (random : nat → Q) (k : nat) (last : Z)
    : outcome (option Z * nat) :=
  match fuel with
  | O => Timeout
  | S fuel' =>
      let index :=
        Slither.genNumber 0 (Z.of_nat (length headings) - 1) (random k) in
      let picked :=
        if index <? 0 then None else headings !! Z.to_nat index in
      if bool_decide (picked = Some last)
      then randomHeading fuel' random (S k) last
      else Done (picked, S k)
  end.

(** [setHeading(heading)] of [Base]: the value of [this.heading]
    afterwards and the number of calls of [Math.random] made. *)
Definition setHeading (fuel : nat) (random : nat → Q) (k : nat)
    (arg : Slither.heading_arg) (heading : option Z)
    : outcome (option Z * nat) :=
  let picked :=
    match arg with
    | Slither.HeadingUndefined => Done (Some Slither.Headings.Right, k)
    | Slither.HeadingNum n =>
        Done (Some (if n =? 0 then Slither.Headings.Right else n), k)
    | Slither.HeadingRandom =>
        randomHeading fuel random k (getHeading heading)
    end in
  match picked with
  | Done (Some h, k') =>
      Done (if bool_decide (h ∈ headings) then Some h else heading, k')
  | Done (None, k') => Done (heading, k')
  | Threw => Threw
  | Timeout => Timeout
  end.

(** The constructor's two registrations on the bus, for the object
    [this] whose methods [onCollide] and [onAllocRecv] are the functions
    with the given references: the table afterwards, or [Threw] for the
    error the constructor throws when a registration fails. *)
Definition subscribe (this onCollide onAllocRecv : nat)
    (ev : EventManager.events) : outcome EventManager.events :=
  let '(ev1, ok1) :=
    EventManager.register "collide" (Fun onCollide) (Obj this) ev in
  if negb ok1 then Threw
  else
    let '(ev2, ok2) :=
      EventManager.register "alloc-recv" (Fun onAllocRecv) (Obj this) ev1 in
    if negb ok2 then Threw else Done ev2.

(** The two [unregister] calls of [clear()] (when called without
    [unregister === false]). *)
Definition unsubscribe (this onCollide onAllocRecv : nat)
    (ev : EventManager.events) : EventManager.events :=
  let ev1 :=
    (EventManager.unregister "collide" (Fun onCollide) (Obj this) ev).1 in
  (EventManager.unregister "alloc-recv" (Fun onAllocRecv) (Obj this) ev1).1.

End Base.

(** ** Package Slither.Objects.Snake (objects/snake.js, the player) *)
Module Snake.

Definition MIN_LENGTH : Z := 2.

(** A snake: the fields of [Base] and its own.  [heading] is [None] while
    it is [null]; [length] is [None] while it is undefined. *)
Record t : Type := Make {
  base : Base.t;
  heading : option Z;
  heading_queue : list Z;
  length : option Z;
  applied_upgrades : gset Z
}.

Definition with_base (b : Base.t) (s : t) : t :=
  Make b s.(heading) s.(heading_queue) s.(length) s.(applied_upgrades).

Definition with_blocks (blocks : list (Z * Z)) (s : t) : t :=
  with_base
    (Base.Make s.(base).(Base.ref) s.(base).(Base.cls)
       s.(base).(Base.speed) blocks s.(base).(Base.animated)
       s.(base).(Base.drawn) s.(base).(Base.frame_skip_ctr)) s.

Definition with_length (n : Z) (s : t) : t :=
  Make s.(base) s.(heading) s.(heading_queue) (Some n) s.(applied_upgrades).

(** [getHeading()]: the heading, after the oldest queued change, if any,
    has been applied. *)
Definition getHeading (s : t) : option Z * t :=
  match s.(heading_queue) with
  | h :: rest =>
      (Some h, Make s.(base) (Some h) rest s.(length) s.(applied_upgrades))
  | [] => (s.(heading), s)
  end.

(** [this.heading != h] *)
Definition heading_differs (s : t) (h : Z) : bool :=
  negb (bool_decide (s.(Snake.heading) = Some h)).

(** [setHeading(heading)] *)
Definition setHeading (heading : value) (s : t) : t :=
  if negb (truthy heading) then s
  else if bool_decide (Some heading = Num <$> last s.(heading_queue)) then s
  else
    let allow :=
      if bool_decide (heading = Num Slither.Headings.Up)
      then heading_differs s Slither.Headings.Down
      else if bool_decide (heading = Num Slither.Headings.Down)
      then heading_differs s Slither.Headings.Up
      else if bool_decide (heading = Num Slither.Headings.Left)
      then heading_differs s Slither.Headings.Right
      else if bool_decide (heading = Num Slither.Headings.Right)
      then heading_differs s Slither.Headings.Left
      else false in
    match heading with
    | Num h =>
        if allow
        then Make s.(base) s.(Snake.heading) (s.(heading_queue) ++ [h])
               s.(length) s.(applied_upgrades)
        else s
    | _ => s
    end.

(** [getLength()]: [this.length || Snake.MIN_LENGTH] *)
Definition getLength (s : t) : Z :=
  if Base.falsy s.(length) then MIN_LENGTH else default 0 s.(length).

(** The loop of [setLength]: [n] times, shift the tail block off
    [body_blocks] and erase it.  Gives the blocks left, the blocks erased
    (each erasure triggers a ['dealloc'] event) and whether the loop ran
    to its end: shifting an empty list gives [undefined], whose [.x]
    throws. *)
Fixpoint shiftTail (n : nat) (blocks erased : list (Z * Z))
    : list (Z * Z) * list (Z * Z) * bool :=
  match n with
  | O => (blocks, erased, true)
  | S n' =>
      match blocks with
      | [] => ([], erased, false)
      | tail_block :: rest => shiftTail n' rest (erased ++ [tail_block])
      end
  end.

(** [setLength(length)]: the snake afterwards, the blocks it erased, and
    whether the call returned ([false]: it threw, and [this.length] was
    not assigned). *)
Definition setLength (length : option Z) (s : t)
    : t * list (Z * Z) * bool :=
  let length :=
    if Base.falsy length || (default 0 length <? MIN_LENGTH)
    then MIN_LENGTH else default 0 length in
  if Base.falsy s.(Snake.length) then (with_length length s, [], true)
  else
    let diff := default 0 s.(Snake.length) - length in
    if diff >? 1 then
      let '(blocks, erased, ok) :=
        shiftTail (Z.to_nat diff) s.(base).(Base.body_blocks) [] in
      if ok then (with_length length (with_blocks blocks s), erased, true)
      else (with_blocks blocks s, erased, false)
    else (with_length length s, [], true).

(** [hasUpgrade], [addUpgrade], [removeUpgrade], [getUpgrades] *)
Definition hasUpgrade (upgrade_type : Z) (s : t) : bool :=
  bool_decide (upgrade_type ∈ s.(applied_upgrades)).

Definition addUpgrade (upgrade_type : Z) (s : t) : t :=
  if hasUpgrade upgrade_type s then s
  else Make s.(base) s.(heading) s.(heading_queue) s.(length)
         ({[upgrade_type]} ∪ s.(applied_upgrades)).

Definition removeUpgrade (upgrade_type : Z) (s : t) : t :=
  if hasUpgrade upgrade_type s
  then Make s.(base) s.(heading) s.(heading_queue) s.(length)
         (s.(applied_upgrades) ∖ {[upgrade_type]})
  else s.

Definition getUpgrades (s : t) : list Z := elements s.(applied_upgrades).

(** The options a snake is constructed with. *)
Record options : Type := Options {
  opt_heading : value;
  opt_length : option Z;
  opt_speed : Slither.speed_arg
}.

(** The constructor [Snake(boundaries, context, options)] up to the point
    where [Base] registers the object on the bus and requests the block at
    [(0, 0)]: heading and length are set on the fresh object first, then
    the [Base] fields. *)
Definition init (ref : nat) (o : options) (random : Q) : t :=
  let fresh :=
    Make (Base.Make ref Slither.Snake None [] true false None) None [] None
      ∅ in
  let s1 :=
    setHeading
      (if truthy o.(opt_heading) then o.(opt_heading)
       else Num Slither.Headings.Right) fresh in
  let s2 := (setLength o.(opt_length) s1).1.1 in
  with_base (Base.init ref Slither.Snake true o.(opt_speed) random) s2.

(** [onAllocRecv(sender, data)] for [data.target === this]: the snake
    afterwards and the tail block it erased, if it had reached its
    length. *)
Definition onAllocRecv (x y : Z) (s : t) : t * list (Z * Z) :=
  let blocks := s.(base).(Base.body_blocks) in
  let '(blocks1, erased) :=
    if bool_decide (Z.of_nat (List.length blocks) = getLength s) then
      match blocks with
      | tail_block :: rest => (rest, [tail_block])
      | [] => (blocks, [])
      end
    else (blocks, []) in
  (with_blocks (blocks1 ++ [(x, y)]) s, erased).

(** [getHeadingInfo(heading)]: whether the snake moves along the x axis
    and the signed offset of its next head block; [None] for [false]. *)
Definition getHeadingInfo (heading : option Z) : option (bool * Z) :=
  match heading with
  | Some h =>
      if h =? Slither.Headings.Up then Some (false, - Base.block_size)
      else if h =? Slither.Headings.Down then Some (false, Base.block_size)
      else if h =? Slither.Headings.Left then Some (true, - Base.block_size)
      else if h =? Slither.Headings.Right then Some (true, Base.block_size)
      else None
  | None => None
  end.

Definition with_drawn (drawn : bool) (s : t) : t :=
  with_base
    (Base.Make s.(base).(Base.ref) s.(base).(Base.cls)
       s.(base).(Base.speed) s.(base).(Base.body_blocks)
       s.(base).(Base.animated) drawn s.(base).(Base.frame_skip_ctr)) s.

(** [draw()] on a board of the given [(width, height)]: the snake once
    the call has returned, but for the answer to its request, and the
    block it requests with [allocBlock], if any. *)
Definition draw (boundaries : Z * Z) (s : t) : t * option (Z * Z) :=
  let '(heading, s1) := getHeading s in
  match getHeadingInfo heading, last s1.(base).(Base.body_blocks) with
  | Some (along_x, offset), Some (x, y) =>
      let head_block := if along_x then (x + offset, y) else (x, y + offset) in
      (with_drawn true s1, Some (Base.adjustBlockWrap boundaries head_block))
  | _, _ => (s1, None)
  end.

(** *** Vocabulary of the statements about the snake *)

(** [n] calls of [getHeading()] in a row: the headings returned, first
    call first, and the snake afterwards. *)
Fixpoint drain (n : nat) (s : t) : list (option Z) * t :=
  match n with
  | O => ([], s)
  | S n' =>
      let '(h, s1) := getHeading s in
      let '(hs, s2) := drain n' s1 in
      (h :: hs, s2)
  end.

(** No two neighbours of a list are equal. *)
Definition no_repeat (q : list Z) : Prop :=
  ∀ i a b, q !! i = Some a → q !! S i = Some b → a ≠ b.

(** The snake with the heading [h] appended to its queue. *)
Definition queued (h : Z) (s : t) : t :=
  Make s.(base) s.(heading) (s.(heading_queue) ++ [h]) s.(length)
    s.(applied_upgrades).

(** The direct reverse of a heading. *)
Definition reverse (h : Z) : Z :=
  if h =? Slither.Headings.Up then Slither.Headings.Down
  else if h =? Slither.Headings.Down then Slither.Headings.Up
  else if h =? Slither.Headings.Left then Slither.Headings.Right
  else Slither.Headings.Left.

(** One of the four values of [Slither.Headings]. *)
Definition is_heading (h : Z) : Prop := 1 ≤ h ≤ 4.

(** The states a snake goes through: constructed, then any of its
    methods called, or its speed set. *)
Inductive reachable : t → Prop :=
| reach_init ref o random : reachable (init ref o random)
| reach_setHeading v s : reachable s → reachable (setHeading v s)
| reach_getHeading s : reachable s → reachable (getHeading s).2
| reach_setLength v s : reachable s → reachable (setLength v s).1.1
| reach_onAllocRecv x y s : reachable s → reachable (onAllocRecv x y s).1
| reach_addUpgrade u s : reachable s → reachable (addUpgrade u s)
| reach_removeUpgrade u s : reachable s → reachable (removeUpgrade u s)
| reach_setSpeed v random s :
    reachable s → reachable (with_base (Base.setSpeed v random s.(base)) s).

(** [this.length], once set, is at least [MIN_LENGTH]. *)
Definition length_ok (s : t) : Prop :=
  match s.(length) with None => True | Some n => MIN_LENGTH ≤ n end.

(** The queued headings are headings, no heading is queued twice in a
    row, and the heading applied, if any, is a heading. *)
Definition clean (s : t) : Prop :=
  Forall is_heading s.(heading_queue) ∧ no_repeat s.(heading_queue) ∧
  ∀ h, s.(heading) = Some h → is_heading h.

End Snake.

(** ** Package Slither.Objects.Rat (objects/rat.js) *)
Module Rat.

(** A rat: the fields of [Base] and its own.  The counter and its bound
    are [None] while the property is undefined. *)
Record t : Type := Make {
  base : Base.t;
  heading : option Z;
  heading_switch_ctr : option Z;
  heading_switch_max : option Z
}.

Definition with_heading (heading : option Z) (r : t) : t :=
  Make r.(base) heading r.(heading_switch_ctr) r.(heading_switch_max).

Definition with_blocks (blocks : list (Z * Z)) (r : t) : t :=
  Make
    (Base.Make r.(base).(Base.ref) r.(base).(Base.cls)
       r.(base).(Base.speed) blocks r.(base).(Base.animated)
       r.(base).(Base.drawn) r.(base).(Base.frame_skip_ctr))
    r.(heading) r.(heading_switch_ctr) r.(heading_switch_max).

(** [getDrawInfo()]: the axis ([0] for x, [1] for y) and the direction of
    the heading [getHeading()] gives; [None] for [false]. *)
Definition getDrawInfo (r : t) : option (Z * Z) :=
  let h := Base.getHeading r.(heading) in
  if h =? Slither.Headings.Up then Some (1, -1)
  else if h =? Slither.Headings.Down then Some (1, 1)
  else if h =? Slither.Headings.Left then Some (0, -1)
  else if h =? Slither.Headings.Right then Some (0, 1)
  else None.

(** The [switch] of [onCollide]: the heading a rat that has run into
    something turns to, for the two numbers [flip] it has drawn. *)
Definition turn (heading flip0 flip1 : Z) : Z :=
  if heading =? Slither.Headings.Up then
    if negb (flip0 =? 0) then Slither.Headings.Down
    else if negb (flip1 =? 0) then Slither.Headings.Right
    else Slither.Headings.Left
  else if heading =? Slither.Headings.Down then
    if negb (flip0 =? 0) then Slither.Headings.Up
    else if negb (flip1 =? 0) then Slither.Headings.Right
    else Slither.Headings.Left
  else if heading =? Slither.Headings.Left then
    if negb (flip0 =? 0) then Slither.Headings.Right
    else if negb (flip1 =? 0) then Slither.Headings.Up
    else Slither.Headings.Down
  else if heading =? Slither.Headings.Right then
    if negb (flip0 =? 0) then Slither.Headings.Left
    else if negb (flip1 =? 0) then Slither.Headings.Up
    else Slither.Headings.Down
  else heading.

(** [onCollide(sender, data)]; [eaten] tells whether [data.receiver] is
    the rat and [data.initiator] the player, [initiated] whether
    [data.initiator] is the rat.  Gives the rat afterwards, the number of
    calls of [Math.random] made, and whether an ['eat'] event was
    triggered. *)
Definition onCollide (random : nat → Q) (k : nat) (eaten initiated : bool)
    (r : t) : t * nat * bool :=
  if eaten then (r, k, true)
  else if initiated then
    let heading := Base.getHeading r.(heading) in
    let flip0 := Slither.genNumber 0 1 (random k) in
    let flip1 := Slither.genNumber 0 1 (random (S k)) in
    let heading := turn heading flip0 flip1 in
    match
      Base.setHeading 0 random (S (S k)) (Slither.HeadingNum heading)
        r.(Rat.heading)
    with
    | Done (h, k') => (with_heading h r, k', false)
    | _ => (r, S (S k), false)
    end
  else (r, k, false).

(** [onAllocRecv(sender, data)] for [data.target === this]: the rat
    afterwards and the block it erased. *)
Definition onAllocRecv (x y : Z) (r : t) : t * list (Z * Z) :=
  let blocks := r.(base).(Base.body_blocks) in
  let '(blocks1, erased) :=
    if (length blocks =? 1)%nat then
      match blocks with
      | old_block :: rest => (rest, [old_block])
      | [] => (blocks, [])
      end
    else (blocks, []) in
  (with_blocks (blocks1 ++ [(x, y)]) r, erased).

(** [setSpeed(speed)]: the rat and the property [speed] of
    [Base.prototype] afterwards.  The method hands the speed to
    [Rat.base.setSpeed(speed)], a call of [Base]'s method on the object
    [Rat.base], which is [Base.prototype]: the assignment [this.speed]
    of that method sets the property of the prototype, and the rat gets
    no [speed] property of its own. *)
Definition setSpeed (arg : Slither.speed_arg) (random : Q) (r : t)
    (prototype_speed : option Z) : t * option Z :=
  let arg :=
    match arg with
    | Slither.SpeedRandom =>
        Slither.SpeedNum
          (Slither.genNumber Slither.SpeedLevels.Min
             (Slither.SpeedLevels.Max - 2) random)
    | _ => arg
    end in
  let arg :=
    match arg with
    | Slither.SpeedNum n =>
        Slither.SpeedNum
          (if n >? Slither.SpeedLevels.Max - 2
           then Slither.SpeedLevels.Max - 2 else n)
    | _ => arg
    end in
  (r, Some (Base.clampSpeed arg random)).

(** [getSpeed()], the method of [Base], on a rat: [this.speed] is the
    rat's own property where it has one, the property of
    [Base.prototype] otherwise. *)
Definition getSpeed (r : t) (prototype_speed : option Z) : Z :=
  let speed :=
    match r.(base).(Base.speed) with
    | Some v => Some v
    | None => prototype_speed
    end in
  if Base.falsy speed then Slither.SpeedLevels.Min else default 0 speed.

(** [draw()] on a board of the given [(width, height)]: the rat once the
    call has returned, but for the answer to its request, the number of
    calls of [Math.random] made, and the block it requests with
    [allocBlock], if any.  [fuel] bounds the draws of
    [setHeading('random')]. *)
Definition draw (fuel : nat) (random : nat → Q) (k : nat)
    (boundaries : Z * Z) (r : t) : outcome (t * nat * option (Z * Z)) :=
  if negb r.(base).(Base.animated) && r.(base).(Base.drawn)
  then Done (r, k, None)
  else
    let '(max, ctr, k1) :=
      if Base.falsy r.(heading_switch_ctr)
      then (Some (Slither.genNumber 25 100 (random k)), 0, S k)
      else (r.(heading_switch_max), default 0 r.(heading_switch_ctr), k) in
    let ctr := ctr + 1 in
    let switched :=
      if match max with Some m => ctr >=? m | None => false end
      then
        match
          Base.setHeading fuel random k1 Slither.HeadingRandom r.(heading)
        with
        | Done (h, k2) => Done (Make r.(base) h (Some 0) max, k2)
        | Threw => Threw
        | Timeout => Timeout
        end
      else Done (Make r.(base) r.(heading) (Some ctr) max, k1) in
    match switched with
    | Done (r1, k2) =>
        match getDrawInfo r1, last r1.(base).(Base.body_blocks) with
        | Some (axis, dir), Some (x, y) =>
            let new_block :=
              if axis =? 0 then (x + dir * Base.block_size, y)
              else (x, y + dir * Base.block_size) in
            let r2 :=
              Make
                (Base.Make r1.(base).(Base.ref) r1.(base).(Base.cls)
                   r1.(base).(Base.speed) r1.(base).(Base.body_blocks)
                   r1.(base).(Base.animated) true
                   r1.(base).(Base.frame_skip_ctr))
                r1.(heading) r1.(heading_switch_ctr)
                r1.(heading_switch_max) in
            Done (r2, k2, Some (Base.adjustBlockWrap boundaries new_block))
        | _, _ => Done (r1, k2, None)
        end
    | Threw => Threw
    | Timeout => Timeout
    end.

End Rat.

(** ** Package Slither.Core.ObjectManager (core/object_manager.js) *)
Module ObjectManager.

(** What the manager holds: an object with the methods of [Base], or an
    object that has neither [draw] nor [getSpeed]. *)
Inductive managed : Type :=
| Entity (o : Base.t)
| Plain (ref : nat).

(** What [handleFrames] did with the frame: it returned without drawing,
    or it called [obj.draw()]. *)
Inductive frame : Type := Dropped | Drawn.

Definition with_ctr (ctr : Z) (o : Base.t) : Base.t :=
  Base.Make o.(Base.ref) o.(Base.cls) o.(Base.speed) o.(Base.body_blocks)
    o.(Base.animated) o.(Base.drawn) (Some ctr).

(** [frame_diff] of [handleFrames], for a target frame rate and a
    maximal speed level. *)
Definition frame_diff (frame_rate max_speed speed : Z) : Z :=
  Math.round_div frame_rate max_speed * speed - frame_rate.

(** [handleFrames(obj)] for a target frame rate and a maximal speed
    level: the object afterwards and what was done with the frame, or
    [Threw] for the error 'Slither expects a higher frame rate'. *)
Definition handleFramesAt (frame_rate max_speed : Z) (obj : managed)
    : outcome (managed * frame) :=
  match obj with
  | Plain _ => Done (obj, Dropped)
  | Entity o =>
      let frame_diff := frame_diff frame_rate max_speed (Base.getSpeed o) in
      if Z.abs frame_diff >=? frame_rate then Threw
      else
        let frame_count :=
          Math.round_div frame_rate (frame_rate - Z.abs frame_diff) in
        if frame_diff <? 0 then
          let ctr :=
            if Base.falsy o.(Base.frame_skip_ctr) then 0
            else default 0 o.(Base.frame_skip_ctr) in
          if ctr + 1 <=? frame_count
          then Done (Entity (with_ctr (ctr + 1) o), Dropped)
          else Done (Entity (with_ctr 0 o), Drawn)
        else Done (obj, Drawn)
  end.

(** [handleFrames(obj)] under the configuration of core.js. *)
Definition handleFrames (obj : managed) : outcome (managed * frame) :=
  handleFramesAt Slither.FRAME_RATE Slither.SpeedLevels.Max obj.

(** The manager: the references and classes of the objects it holds, in
    order, the count kept per [typeof], and the [started] flag of its
    animation timer. *)
Record t : Type := Make {
  objects : list (nat * Slither.class);
  types : gmap string Z;
  started : bool
}.

(** The loop of [searchForObject], started at index [i]. *)
Fixpoint searchFrom (i : Z) (objects : list (nat * Slither.class))
    (obj : nat) : Z :=
  match objects with
  | [] => -1
  | o :: rest => if bool_decide (o.1 = obj) then i
                 else searchFrom (i + 1) rest obj
  end.

(** [searchForObject(obj)] *)
Definition searchForObject (obj : nat) (m : t) : Z :=
  searchFrom 0 m.(objects) obj.

(** [typeof(obj)] of a game object *)
Definition typeof_object : string := "object".

(** [add(obj)] *)
Definition add (obj : nat * Slither.class) (m : t) : t * bool :=
  if searchForObject obj.1 m =? -1 then
    let types' :=
      match m.(types) !! typeof_object with
      | None => <[typeof_object := 1]> m.(types)
      | Some n => <[typeof_object := n + 1]> m.(types)
      end in
    (Make (m.(objects) ++ [obj]) types' m.(started), true)
  else (m, false).

(** [remove(obj)], once [obj.clear()] has run: the splice and the count. *)
Definition remove_entry (index : nat) (m : t) : t :=
  let types' :=
    match m.(types) !! typeof_object with
    | None => m.(types)
    | Some n =>
        if n - 1 =? 0 then delete typeof_object m.(types)
        else <[typeof_object := n - 1]> m.(types)
    end in
  Make (EventManager.splice1 index m.(objects)) types' m.(started).

(** [getCount(type)] for a class constructor [type]: a constructor is no
    key of [types], so the objects are counted. *)
Definition getCount (type : Slither.class) (m : t) : Z :=
  Z.of_nat
    (List.length (filter (λ o, o.2 = type) m.(objects))).

(** [stop()] *)
Definition stop (m : t) : t := Make m.(objects) m.(types) false.

#[global] Instance frame_eq_dec : EqDecision frame.
Proof. solve_decision. Defined.

(** [remove(obj)] for an object whose [clear()] leaves the manager
    alone: the manager afterwards and the value returned. *)
Definition remove (obj : nat) (m : t) : t * bool :=
  let index := searchForObject obj m in
  if index =? -1 then (m, false)
  else (remove_entry (Z.to_nat index) m, true).

(** [removeAll()], likewise. *)
Definition removeAll (m : t) : t := Make [] ∅ (stop m).(started).

(** [getCount()] without a type: the number of objects held. *)
Definition getCountAll (m : t) : Z := Z.of_nat (length m.(objects)).

(** The manager before the first call: [objects: []], [types: {}]. *)
Definition initial : t := Make [] ∅ false.

(** A call of [add], [remove] or [removeAll]. *)
Inductive call : Type :=
| CallAdd (obj : nat * Slither.class)
| CallRemove (obj : nat)
| CallRemoveAll.

Definition call_step (m : t) (c : call) : t :=
  match c with
  | CallAdd obj => (add obj m).1
  | CallRemove obj => (remove obj m).1
  | CallRemoveAll => removeAll m
  end.

(** The manager after a sequence of calls, first call first. *)
Definition call_run (calls : list call) (m : t) : t := foldl call_step m calls.

(** [n] calls of [handleFrames] in a row on an object whose [draw]
    leaves its speed and its frame counter alone: the object afterwards
    and what was done with each frame, first frame first. *)
Fixpoint frames (n : nat) (obj : managed) : outcome (managed * list frame) :=
  match n with
  | O => Done (obj, [])
  | S n' =>
      match handleFrames obj with
      | Done (obj1, f) =>
          match frames n' obj1 with
          | Done (obj2, fs) => Done (obj2, f :: fs)
          | Threw => Threw
          | Timeout => Timeout
          end
      | Threw => Threw
      | Timeout => Timeout
      end
  end.

(** The number of frames drawn among the frames of a list. *)
Definition drawn_count (fs : list frame) : Z :=
  Z.of_nat (length (filter (λ f, f = Drawn) fs)).

(** The number of frames from one drawn frame to the next at a speed:
    [frame_count] dropped frames and the drawn one where [frame_diff] is
    negative, every frame otherwise. *)
Definition period (speed : Z) : Z :=
  let frame_diff :=
    frame_diff Slither.FRAME_RATE Slither.SpeedLevels.Max speed in
  if frame_diff <? 0
  then Math.round_div Slither.FRAME_RATE
         (Slither.FRAME_RATE - Z.abs frame_diff) + 1
  else 1.

(** The frame counter of an object, as [handleFrames] reads it. *)
Definition counter (o : Base.t) : Z :=
  if Base.falsy o.(Base.frame_skip_ctr) then 0
  else default 0 o.(Base.frame_skip_ctr).

(** The manager holds no object twice, and [types] counts the objects it
    holds under their [typeof] and has no other key. *)
Definition counted (m : t) : Prop :=
  NoDup m.(objects).*1 ∧
  m.(types) = if decide (m.(objects) = []) then ∅
              else {[ typeof_object := Z.of_nat (length m.(objects)) ]}.

End ObjectManager.

(** ** Package Slither.Core.LevelManager (core/level_manager.js) *)
Module LevelManager.

(** [level] is the index of the current level, [-1] before the first;
    [levels] is the number of levels added. *)
Record t : Type := Make { level : Z; levels : Z }.

(** [getCount()] and [getLevelNum()] *)
Definition getCount (m : t) : Z := m.(levels).
Definition getLevelNum (m : t) : Z := m.(level) + 1.

(** *** The list of levels

    The game needs the number of levels only; here the functions of the
    package are embedded on the list [levels] itself.  An entry of the
    list is the object [{ callback: ..., scope: ... }] that [add]
    creates; [ref] is the identity of that object. *)
Module Registry.

Record activation_info : Type := Activation {
  ref : nat;
  callback : value;
  scope : value
}.

(** [levels], [level], and the reference the next object created gets. *)
Record t : Type := Make {
  levels : list activation_info;
  level : Z;
  next_ref : nat
}.

(** The manager before the first call: [levels: []], [level: -1]. *)
Definition initial : t := Make [] (-1) 0.

(** The loop of [searchForLevel], started at index [i]: it compares the
    entry [this.levels[i]], an object, with [callback]. *)
Fixpoint searchFrom (i : Z) (levels : list activation_info)
    (callback : value) : Z :=
  match levels with
  | [] => -1
  | entry :: rest =>
      if bool_decide (Obj entry.(ref) = callback) then i
      else searchFrom (i + 1) rest callback
  end.

(** [searchForLevel(callback)] *)
Definition searchForLevel (callback : value) (m : t) : Z :=
  if negb (is_function callback) then -1
  else searchFrom 0 m.(levels) callback.

(** [add(callback, scope)] *)
Definition add (callback scope : value) (m : t) : t * bool :=
  if negb (is_function callback) then (m, false)
  else if searchForLevel callback m =? -1 then
    let activation_info :=
      Activation m.(next_ref) callback
        (if truthy scope then scope else Undefined) in
    (Make (m.(levels) ++ [activation_info]) m.(level) (S m.(next_ref)), true)
  else (m, false).

(** [remove(callback)] *)
Definition remove (callback : value) (m : t) : t * bool :=
  if negb (is_function callback) then (m, false)
  else
    let index := searchForLevel callback m in
    if negb (index =? -1) then
      let levels := EventManager.splice1 (Z.to_nat index) m.(levels) in
      (Make levels (if index <=? m.(level) then m.(level) - 1 else m.(level))
         m.(next_ref), true)
    else (m, false).

(** [removeAll()] *)
Definition removeAll (m : t) : t := Make [] (-1) m.(next_ref).

(** [advance(dir)]: the manager afterwards and the callback the method
    calls, with its scope and the argument [restart], if it calls one.
    Reading [this.levels[this.level]] at a negative index gives
    [undefined], whose [.callback] throws. *)
Definition advance (dir : value) (m : t)
    : outcome (t * option (activation_info * bool)) :=
  let restart := bool_decide (dir = Num (-1)) in
  let level := if restart then m.(level) else m.(level) + 1 in
  if level >? Z.of_nat (length m.(levels)) - 1 then
    Done (Make m.(levels) (Z.of_nat (length m.(levels)) - 1) m.(next_ref),
          None)
  else if level <? 0 then Threw
  else
    match m.(levels) !! Z.to_nat level with
    | Some entry =>
        Done (Make m.(levels) level m.(next_ref),
              if is_function entry.(callback) then Some (entry, restart)
              else None)
    | None => Threw
    end.

(** [startOver()] *)
Definition startOver (m : t)
    : outcome (t * option (activation_info * bool)) :=
  advance Undefined (Make m.(levels) (-1) m.(next_ref)).

(** [getCount()] and [getLevelNum()] *)
Definition getCount (m : t) : Z := Z.of_nat (length m.(levels)).
Definition getLevelNum (m : t) : Z := m.(level) + 1.

(** A call of the interface. *)
Inductive call : Type :=
| CallAdd (callback scope : value)
| CallRemove (callback : value)
| CallRemoveAll
| CallAdvance (dir : value)
| CallStartOver.

(** The manager after a call; a call that throws leaves the manager as
    the assignments made before the exception left it. *)
Definition call_step (m : t) (c : call) : t :=
  match c with
  | CallAdd callback scope => (add callback scope m).1
  | CallRemove callback => (remove callback m).1
  | CallRemoveAll => removeAll m
  | CallAdvance dir =>
      match advance dir m with
      | Done (m', _) => m'
      | _ =>
          Make m.(levels)
            (if bool_decide (dir = Num (-1)) then m.(level)
             else m.(level) + 1) m.(next_ref)
      end
  | CallStartOver =>
      match startOver m with
      | Done (m', _) => m'
      | _ => Make m.(levels) 0 m.(next_ref)
      end
  end.

Definition call_run (calls : list call) (m : t) : t := foldl call_step m calls.

(** What the game reads of the manager. *)
Definition summary (m : t) : LevelManager.t :=
  LevelManager.Make m.(level) (Z.of_nat (length m.(levels))).

(** [level] is the index of a level of the list, or [-1]. *)
Definition bounded (m : t) : Prop :=
  -1 ≤ m.(level) ≤ Z.of_nat (length m.(levels)) - 1.

End Registry.

End LevelManager.

(** ** Package Slither.Game (core/game.js) *)
Module Game.

(** *** The allocation grid

    [alloc_info] maps an x coordinate to an object that maps the y
    coordinates allocated in that column to their owner and counts them
    in its [length] property. *)
Record column : Type := Column { col_length : Z; cells : gmap Z value }.

Abbreviation alloc_info := (gmap Z column).

(** The data of an event. *)
Inductive data : Type :=
| DNone
| DCoord (x y : Z)
| DCollide (initiator receiver : value) (x y : Z)
| DAllocRecv (target : value) (x y : Z)
| DWin (win : bool).

(** An event a handler triggers: its type, its data, and the target the
    notification is restricted to ([Undefined]: every handler). *)
Record emitted : Type := Emit {
  topic : string;
  payload : data;
  target_only : value
}.

(** [getAllocObj(x, y)] *)
Definition getAllocObj (x y : Z) (a : alloc_info) : value :=
  match a !! x with
  | Some item =>
      match item.(cells) !! y with
      | Some owner => owner
      | None => Null
      end
  | None => Null
  end.

(** [setAllocObj(x, y, owner)] *)
Definition setAllocObj (x y : Z) (owner : value) (a : alloc_info)
    : alloc_info :=
  let a1 := match a !! x with
            | Some _ => a
            | None => <[x := Column 0 ∅]> a
            end in
  match a1 !! x with
  | Some item =>
      <[x := Column (item.(col_length) + 1) (<[y := owner]> item.(cells))]> a1
  | None => a1
  end.

(** [owner != null] *)
Definition not_null (v : value) : bool :=
  match v with Null | Undefined => false | _ => true end.

(** [onAlloc(sender, data)] for [data.coord = (x, y)]: the grid afterwards
    and the event the handler triggers as its last statement. *)
Definition onAlloc (sender : value) (x y : Z) (a : alloc_info)
    : alloc_info * emitted :=
  let owner := getAllocObj x y a in
  if not_null owner
  then (a, Emit "collide" (DCollide sender owner x y) Undefined)
  else (setAllocObj x y sender a,
        Emit "alloc-recv" (DAllocRecv sender x y) sender).

(** [onDealloc(sender, data)] for [data.coord = (x, y)] *)
Definition onDealloc (sender : value) (x y : Z) (a : alloc_info)
    : alloc_info :=
  let owner := getAllocObj x y a in
  if bool_decide (owner = sender) then
    match a !! x with
    | None => a
    | Some item =>
        if item.(col_length) - 1 =? 0 then delete x a
        else <[x := Column (item.(col_length) - 1) (delete y item.(cells))]> a
    end
  else a.

(** A call of one of the two grid handlers. *)
Inductive grid_call : Type :=
| CallAlloc (sender : value) (x y : Z)
| CallDealloc (sender : value) (x y : Z).

Definition grid_step (a : alloc_info) (c : grid_call) : alloc_info :=
  match c with
  | CallAlloc sender x y => (onAlloc sender x y a).1
  | CallDealloc sender x y => onDealloc sender x y a
  end.

(** The grid after a sequence of handler calls, first call first. *)
Definition grid_run (calls : list grid_call) (a : alloc_info) : alloc_info :=
  foldl grid_step a calls.

(** The senders of the calls are game objects. *)
Definition is_object (v : value) : Prop := ∃ ref, v = Obj ref.

Definition call_sender (c : grid_call) : value :=
  match c with CallAlloc s _ _ | CallDealloc s _ _ => s end.

(** The owner recorded for a cell, if the cell is present in the map. *)
Definition owner_of (a : alloc_info) (x y : Z) : option value :=
  item ← a !! x; item.(cells) !! y.

(** The invariant of the grid: every column present counts its cells, has
    at least one, and records game objects only. *)
Definition well_formed (a : alloc_info) : Prop :=
  ∀ x item, a !! x = Some item →
    item.(col_length) = Z.of_nat (size item.(cells)) ∧
    item.(cells) ≠ ∅ ∧
    ∀ y o, item.(cells) !! y = Some o → is_object o.

(** *** The game *)
Record t : Type := Make {
  alloc : alloc_info;
  boundaries : Z * Z;
  score : Z;
  lives : Z;
  speed : Z;
  prev_lives : Z;
  started : bool;
  finished : bool;
  player_dead : bool;
  snake : option nat;
  heap : gmap nat Snake.t;
  object_man : ObjectManager.t;
  level_man : LevelManager.t;
  next_ref : nat;
  rng : nat
}.

Definition set_alloc (v : alloc_info) (g : t) : t :=
  Make v g.(boundaries) g.(score) g.(lives) g.(speed) g.(prev_lives)
    g.(started) g.(finished) g.(player_dead) g.(snake) g.(heap)
    g.(object_man) g.(level_man) g.(next_ref) g.(rng).

Definition set_score (v : Z) (g : t) : t :=
  Make g.(alloc) g.(boundaries) v g.(lives) g.(speed) g.(prev_lives)
    g.(started) g.(finished) g.(player_dead) g.(snake) g.(heap)
    g.(object_man) g.(level_man) g.(next_ref) g.(rng).

Definition set_lives (v : Z) (g : t) : t :=
  Make g.(alloc) g.(boundaries) g.(score) v g.(speed) g.(prev_lives)
    g.(started) g.(finished) g.(player_dead) g.(snake) g.(heap)
    g.(object_man) g.(level_man) g.(next_ref) g.(rng).

Definition set_speed (v : Z) (g : t) : t :=
  Make g.(alloc) g.(boundaries) g.(score) g.(lives) v g.(prev_lives)
    g.(started) g.(finished) g.(player_dead) g.(snake) g.(heap)
    g.(object_man) g.(level_man) g.(next_ref) g.(rng).

Definition set_started (v : bool) (g : t) : t :=
  Make g.(alloc) g.(boundaries) g.(score) g.(lives) g.(speed) g.(prev_lives)
    v g.(finished) g.(player_dead) g.(snake) g.(heap)
    g.(object_man) g.(level_man) g.(next_ref) g.(rng).

Definition set_finished (v : bool) (g : t) : t :=
  Make g.(alloc) g.(boundaries) g.(score) g.(lives) g.(speed) g.(prev_lives)
    g.(started) v g.(player_dead) g.(snake) g.(heap)
    g.(object_man) g.(level_man) g.(next_ref) g.(rng).

Definition set_player_dead (v : bool) (g : t) : t :=
  Make g.(alloc) g.(boundaries) g.(score) g.(lives) g.(speed) g.(prev_lives)
    g.(started) g.(finished) v g.(snake) g.(heap)
    g.(object_man) g.(level_man) g.(next_ref) g.(rng).

Definition set_snake (v : option nat) (g : t) : t :=
  Make g.(alloc) g.(boundaries) g.(score) g.(lives) g.(speed) g.(prev_lives)
    g.(started) g.(finished) g.(player_dead) v g.(heap)
    g.(object_man) g.(level_man) g.(next_ref) g.(rng).

Definition set_heap (v : gmap nat Snake.t) (g : t) : t :=
  Make g.(alloc) g.(boundaries) g.(score) g.(lives) g.(speed) g.(prev_lives)
    g.(started) g.(finished) g.(player_dead) g.(snake) v
    g.(object_man) g.(level_man) g.(next_ref) g.(rng).

Definition set_object_man (v : ObjectManager.t) (g : t) : t :=
  Make g.(alloc) g.(boundaries) g.(score) g.(lives) g.(speed) g.(prev_lives)
    g.(started) g.(finished) g.(player_dead) g.(snake) g.(heap)
    v g.(level_man) g.(next_ref) g.(rng).

Definition set_level_man (v : LevelManager.t) (g : t) : t :=
  Make g.(alloc) g.(boundaries) g.(score) g.(lives) g.(speed) g.(prev_lives)
    g.(started) g.(finished) g.(player_dead) g.(snake) g.(heap)
    g.(object_man) v g.(next_ref) g.(rng).

Definition set_next_ref (v : nat) (g : t) : t :=
  Make g.(alloc) g.(boundaries) g.(score) g.(lives) g.(speed) g.(prev_lives)
    g.(started) g.(finished) g.(player_dead) g.(snake) g.(heap)
    g.(object_man) g.(level_man) v g.(rng).

Definition set_rng (v : nat) (g : t) : t :=
  Make g.(alloc) g.(boundaries) g.(score) g.(lives) g.(speed) g.(prev_lives)
    g.(started) g.(finished) g.(player_dead) g.(snake) g.(heap)
    g.(object_man) g.(level_man) g.(next_ref) v.

(** The game object itself, the sender of the events the game triggers. *)
Definition this : value := Obj 0.

(** [Game.DEFAULT_OPTIONS.lives] and [Base.DEFAULT_OPTIONS.block_size] *)
Definition DEFAULT_LIVES : Z := 3.
Definition block_size : Z := 10.

(** The player object [this.snake] refers to, if any. *)
Definition player (g : t) : option Snake.t :=
  r ← g.(snake); g.(heap) !! r.

(** The configured length of the player. *)
Definition player_length (g : t) : option Z := Snake.getLength <$> player g.

(** [getSpeed()] *)
Definition getSpeed (g : t) : Z :=
  let speed :=
    match g.(snake) with
    | Some r =>
        match g.(heap) !! r with
        | Some s => Base.getSpeed s.(Snake.base)
        | None => 0
        end
    | None => g.(speed)
    end in
  if speed =? 0 then Slither.SpeedLevels.Min else speed.

(** What [onEat] reads of the player and the score. *)
Definition view (g : t) : Z * option Z * Z :=
  (getSpeed g, player_length g, g.(score)).

(** An entry of the [classes] argument of [genObjects]: a class
    constructor, a nested list of the constructor and the options to
    construct with, a nested list of the constructor alone, or something
    that gives no class (a falsy value or an empty list). *)
Inductive class_entry : Type :=
| Constructor (c : Slither.class)
| WithOptions (c : Slither.class) (options : gmap string value)
| Alone (c : Slither.class)
| NoClass.

(** An entry of the list [genObjects] returns. *)
Record info : Type := Info {
  type : Slither.class;
  options : gmap string value;
  position : Z * Z
}.

(** The loop of [genObjects] that partitions [target_count] over the
    [n_classes] classes by bias: the counts of the classes from index [i]
    on, [remaining] of them. *)
Fixpoint partition (n_classes : Z) (bias : list float) (target_count : float)
    (i : nat) (remaining : nat) (perc_left ttl_count : float) : list float :=
  match remaining with
  | O => []
  | S remaining' =>
      let target_bias :=
        match bias !! i with
        | Some b => Math.abs b
        | None =>
            let div := n_classes - Z.of_nat i in
            if div >? 0 then (perc_left / Math.of_Z div)%float else perc_left
        end in
      let target_bias :=
        if (perc_left <? target_bias)%float then perc_left else target_bias in
      let perc_left := (perc_left - target_bias)%float in
      let bias_count := (target_bias * target_count)%float in
      let lo_count := Math.floor bias_count in
      let hi_count := Math.ceil bias_count in
      let class_count :=
        if (hi_count - bias_count <? bias_count - lo_count)%float
        then hi_count else lo_count in
      let class_count :=
        if (Z.of_nat i =? n_classes - 1) && (ttl_count <? target_count)%float
        then (target_count - ttl_count)%float else class_count in
      class_count
        :: partition n_classes bias target_count (S i) remaining' perc_left
             (ttl_count + class_count)%float
  end.

(** The loop over [j] runs [n] times from [j] on: its test holds for the
    next [n] values of [j] and fails for the one after. *)
Definition runs (count : float) (j : Z) (n : nat) : Prop :=
  (∀ i, (i < n)%nat → (Math.of_Z (j + Z.of_nat i) <? count)%float = true) ∧
  (Math.of_Z (j + Z.of_nat n) <? count)%float = false.

Section Engine.

(** The values [Math.random()] returns, call after call; [rng] counts the
    calls made. *)
Variable random : nat → Q.

(** [this.event_man.trigger(event_type, sender, data, target_only)]: what
    the handlers registered when the event is triggered do to the game. *)
Variable trigger : string → value → data → value → t → t.

(** [obj.clear()] for the object with the given reference: it erases the
    blocks of the object, which triggers a ['dealloc'] event for each,
    and unregisters its handlers. *)
Variable clear : nat → t → t.

(** The code of [new constructor(boundaries, ctx, options)] for a class
    other than the player's: the class, the options, [start_x],
    [start_y], and the reference of the new object. *)
Variable construct :
  Slither.class → gmap string value → Z → Z → nat → t → t.

(** The body of the level with the given index: its calls of [genObjects]
    on a fresh start, the regeneration of the recorded objects on a
    restart. *)
Variable level_code : Z → bool → t → t.

(** [freezeRats(enable)] *)
Variable freezeRats : bool → t → t.

(** The first run of the timer callback [animate] that
    [object_man.start] makes: it draws every object and arms the timer. *)
Variable animate : t → t.

(** [Slither.genNumber(low, high)] in the game: [Math.random] is called
    only when the bounds differ. *)
Definition genNumber (low high : Z) (g : t) : Z * t :=
  if low =? high then (low, g)
  else (Slither.genNumber low high (random g.(rng)),
        set_rng (S g.(rng)) g).

(** [object_man.remove(obj)] *)
Definition object_man_remove (obj : nat) (g : t) : t :=
  let index := ObjectManager.searchForObject obj g.(object_man) in
  if index =? -1 then g
  else
    let g1 := clear obj g in
    set_object_man
      (ObjectManager.remove_entry (Z.to_nat index) g1.(object_man)) g1.

(** [object_man.removeAll()] *)
Definition object_man_removeAll (g : t) : t :=
  let g1 := set_object_man (ObjectManager.stop g.(object_man)) g in
  let g2 := foldl (λ g' o, clear o.1 g') g1
              g1.(object_man).(ObjectManager.objects) in
  set_object_man
    (ObjectManager.Make [] ∅ g2.(object_man).(ObjectManager.started)) g2.

(** [object_man.add(obj)] *)
Definition object_man_add (obj : nat * Slither.class) (g : t) : t :=
  set_object_man (ObjectManager.add obj g.(object_man)).1 g.

(** [object_man.start(frame_rate)] *)
Definition object_man_start (frame_rate : Z) (g : t) : t :=
  if negb g.(object_man).(ObjectManager.started) && (frame_rate >=? 0) then
    animate
      (set_object_man
         (ObjectManager.Make g.(object_man).(ObjectManager.objects)
            g.(object_man).(ObjectManager.types) true) g)
  else g.

(** [object_man.stop()] *)
Definition object_man_stop (g : t) : t :=
  set_object_man (ObjectManager.stop g.(object_man)) g.

(** [setupSnake(reset)]; [reset] is [None] when the argument is left
    out. *)
Definition setupSnake (reset : option bool) (g : t) : t :=
  let g := set_player_dead false g in
  let reset := default true reset in
  let len := Snake.getLength <$> player g in
  let upgrades := Snake.getUpgrades <$> player g in
  let g := match g.(snake) with
           | Some r => object_man_remove r g
           | None => g
           end in
  let g := set_snake None g in
  let opts :=
    Snake.Options Undefined
      (if negb reset && negb (Base.falsy len) then len else None)
      (Slither.SpeedNum (getSpeed g)) in
  let r := g.(next_ref) in
  let s := Snake.init r opts (random g.(rng)) in
  let g := set_next_ref (S r) (set_heap (<[r := s]> g.(heap)) g) in
  let g := trigger "alloc" (Obj r) (DCoord 0 0) Undefined g in
  let g := set_snake (Some r) g in
  let g :=
    if negb reset then
      match upgrades with
      | Some list =>
          set_heap
            (alter (λ s, foldl (λ s' u, Snake.addUpgrade u s') s list) r
               g.(heap)) g
      | None => g
      end
    else g in
  object_man_add (r, Slither.Snake) g.

(** [pause()] *)
Definition pause (g : t) : t :=
  if g.(started) && negb g.(finished) && negb g.(player_dead)
  then object_man_stop (set_started false g)
  else g.

(** [end()] *)
Definition end_ (g : t) : t :=
  if g.(started) then set_finished true (pause g) else g.

(** The callback [addLevel] hands to the level manager, called with
    [restart]; [start] is the method [this.start]. *)
Definition level_callback (start : t → outcome t) (restart : bool) (g : t)
    : outcome t :=
  let g := pause g in
  let g := object_man_removeAll g in
  let g := setupSnake (Some restart) g in
  let g := level_code g.(level_man).(LevelManager.level) restart g in
  let g :=
    match player g with
    | Some s =>
        if Snake.hasUpgrade Slither.UpgradeItemTypes.RatParalyzer s
        then freezeRats true g else g
    | None => g
    end in
  start g.

(** [level_man.advance(dir)]; reading [this.levels[this.level]] at a
    negative index gives [undefined], whose [.callback] throws. *)
Definition advance (start : t → outcome t) (dir : value) (g : t)
    : outcome t :=
  let restart := bool_decide (dir = Num (-1)) in
  let m := g.(level_man) in
  let level := if restart then m.(LevelManager.level)
               else m.(LevelManager.level) + 1 in
  if level >? m.(LevelManager.levels) - 1 then
    Done (set_level_man
            (LevelManager.Make (m.(LevelManager.levels) - 1)
               m.(LevelManager.levels)) g)
  else if level <? 0 then Threw
  else
    level_callback start restart
      (set_level_man (LevelManager.Make level m.(LevelManager.levels)) g).

(** [start()]; [fuel] bounds the depth of [start] calling the level
    callback calling [start]. *)
Fixpoint start (fuel : nat) (g : t) : outcome t :=
  if negb g.(started) && negb g.(finished) && negb g.(player_dead) then
    let advanced :=
      if LevelManager.getLevelNum g.(level_man) <? 1 then
        match fuel with
        | O => Timeout
        | S fuel' => advance (start fuel') Undefined g
        end
      else Done g in
    match advanced with
    | Done g1 =>
        Done (set_started true (object_man_start Slither.FRAME_RATE g1))
    | Threw => Threw
    | Timeout => Timeout
    end
  else Done g.

(** [level_man.startOver()] *)
Definition startOver (fuel : nat) (g : t) : outcome t :=
  advance (start fuel) Undefined
    (set_level_man
       (LevelManager.Make (-1) g.(level_man).(LevelManager.levels)) g).

(** [restart()] *)
Definition restart (fuel : nat) (g : t) : outcome t :=
  let g := set_started false g in
  let g := set_finished false g in
  let g := pause g in
  let g := setupSnake None g in
  let g := set_score 0 g in
  let g := set_alloc ∅ g in
  let g := set_lives g.(prev_lives) g in
  let g := if g.(lives) <=? 0 then set_lives DEFAULT_LIVES g else g in
  startOver fuel g.

(** The [do ... while] loop of [genObjects] that draws a start position
    until the position is free; [fuel] bounds the draws. *)
Fixpoint place (fuel : nat) (g : t) : outcome (Z * Z * t) :=
  match fuel with
  | O => Timeout
  | S fuel' =>
      let block_seg_x := g.(boundaries).1 / block_size in
      let block_seg_y := g.(boundaries).2 / block_size in
      let '(nx, g1) := genNumber 0 (block_seg_x - 1) g in
      let '(ny, g2) := genNumber 0 (block_seg_y - 1) g1 in
      let start_x := nx * block_size in
      let start_y := ny * block_size in
      if not_null (getAllocObj start_x start_y g2.(alloc))
      then place fuel' g2
      else Done (start_x, start_y, g2)
  end.

(** The loop [for (j = 0; j < part_data[i]; j++)] of [genObjects] from
    [j] on, for the class [c] constructed with [options]; [fuel] bounds
    the iterations, [tries] the draws of each placement. *)
Fixpoint generate (fuel tries : nat) (c : Slither.class)
    (options : gmap string value) (count : float) (j : Z) (g : t)
    (return_info : list info) : outcome (t * list info) :=
  match fuel with
  | O => Timeout
  | S fuel' =>
      if (Math.of_Z j <? count)%float then
        match place tries g with
        | Done (start_x, start_y, g1) =>
            let r := g1.(next_ref) in
            let g2 :=
              construct c options start_x start_y r (set_next_ref (S r) g1) in
            let g3 := object_man_add (r, c) g2 in
            generate fuel' tries c options count (j + 1) g3
              (return_info ++ [Info c options (start_x, start_y)])
        | Threw => Threw
        | Timeout => Timeout
        end
      else Done (g, return_info)
  end.

(** The loop of [genObjects] over the partition data. *)
Fixpoint generate_all (fuel tries : nat) (classes : list class_entry)
    (part_data : list float) (g : t) (return_info : list info)
    : outcome (t * list info) :=
  match classes, part_data with
  | entry :: classes', count :: part_data' =>
      let generated :=
        match entry with
        | NoClass => Done (g, return_info)
        | Constructor c | Alone c => generate fuel tries c ∅ count 0 g return_info
        | WithOptions c options =>
            generate fuel tries c options count 0 g return_info
        end in
      match generated with
      | Done (g', return_info') =>
          generate_all fuel tries classes' part_data' g' return_info'
      | Threw => Threw
      | Timeout => Timeout
      end
  | _, _ => Done (g, return_info)
  end.

(** The bounds [genObjects] reads off its [range] argument, [None] where
    it returns [false]. *)
Definition range_bounds (range : list Z) : option (Z * Z) :=
  match range with
  | [] => None
  | [n] => Some (n, n)
  | num_low :: num_high :: _ =>
      if (num_low <? 0) || (num_high <? 0) then None
      else Some (if num_low >? num_high then num_high else num_low, num_high)
  end.

(** [genObjects(range, classes, bias)]: the game afterwards and the list
    returned, [None] for [false]. *)
Definition genObjects (fuel tries : nat) (range : list Z)
    (classes : list class_entry) (bias : list float) (g : t)
    : outcome (t * option (list info)) :=
  match range_bounds range with
  | None => Done (g, None)
  | Some (num_low, num_high) =>
      let '(target_count, g1) := genNumber num_low num_high g in
      let part_data :=
        partition (Z.of_nat (List.length classes)) bias
          (Math.of_Z target_count) 0 (List.length classes) 1 0 in
      match generate_all fuel tries classes part_data g1 [] with
      | Done (g2, return_info) => Done (g2, Some return_info)
      | Threw => Threw
      | Timeout => Timeout
      end
  end.

(** The game once an object of class [c] has been constructed at the
    position [(x, y)] and added to the object manager. *)
Definition spawned (c : Slither.class) (options : gmap string value)
    (x y : Z) (g : t) : t :=
  object_man_add (g.(next_ref), c)
    (construct c options x y g.(next_ref) (set_next_ref (S g.(next_ref)) g)).

(** The placements succeed along the run: from a game in [I (S n)] the
    placement loop finds a free position within [tries] draws, and the
    game with the object constructed there is in [I n]. *)
Definition placeable (tries : nat) (I : nat → t → Prop) : Prop :=
  ∀ n g, I (S n) g →
    ∃ x y g1, place tries g = Done (x, y, g1) ∧
              ∀ c options, I n (spawned c options x y g1).

(** The score and the growth [onEat] gives for an object of class [c]
    eaten at speed [speed]. *)
Definition eat_reward (c : Slither.class) (speed : Z) : Z * Z :=
  let basic_score := speed * 3 in
  let basic_growth_offset :=
    Math.to_Z (Math.ceil (Math.of_Z speed * 0.5)%float) in
  if bool_decide (c = Slither.Mouse) then (basic_score, basic_growth_offset)
  else if bool_decide (c = Slither.Grain) then
    (Math.to_Z (Math.ceil (0.2 * Math.of_Z basic_score)%float),
     Math.to_Z (Math.ceil (0.2 * Math.of_Z basic_growth_offset)%float))
  else if bool_decide (c = Slither.Rat) then
    (10 * basic_score,
     Math.to_Z (Math.floor (0.1 * Math.of_Z basic_growth_offset)%float)
     + basic_growth_offset)
  else (0, basic_growth_offset).

(** Whether an object of one of the classes [onEat] checks is left. *)
Definition prey_left (g : t) : bool :=
  existsb (λ c, negb (ObjectManager.getCount c g.(object_man) =? 0))
    [Slither.Rat; Slither.Grain; Slither.Mouse].

(** [onEat(sender, data)] for [data.coord = (x, y)]: the game afterwards
    and the value returned.  The ['dealloc'] events of the blocks
    [setLength] erases are dispatched once the snake is updated. *)
Definition onEat (sender : nat * Slither.class) (x y : Z) (g : t)
    : outcome (t * value) :=
  let g := object_man_remove sender.1 g in
  match g.(snake) with
  | None => Done (g, Undefined)
  | Some r =>
      let g := trigger "alloc" (Obj r) (DCoord x y) Undefined g in
      let '(gain, growth_offset) := eat_reward sender.2 (getSpeed g) in
      let g := set_score (g.(score) + gain) g in
      match g.(snake) with
      | None => Threw
      | Some r' =>
          match g.(heap) !! r' with
          | None => Threw
          | Some s =>
              let '(s', erased, ok) :=
                Snake.setLength (Some (Snake.getLength s + growth_offset)) s in
              let g := set_heap (<[r' := s']> g.(heap)) g in
              let g :=
                foldl (λ g' b, trigger "dealloc" (Obj r') (DCoord b.1 b.2)
                                 Undefined g') g erased in
              if negb ok then Threw
              else
                let g := trigger "score" this DNone Undefined g in
                if prey_left g then Done (g, Undefined)
                else if LevelManager.getLevelNum g.(level_man)
                        =? LevelManager.getCount g.(level_man) then
                  let g := end_ g in
                  let g := trigger "gameover" this (DWin true) Undefined g in
                  Done (g, Bool false)
                else Done (trigger "level" this DNone Undefined g, Undefined)
          end
      end
  end.

(** [setSpeed(speed)] *)
Definition setSpeed (speed : Z) (g : t) : t :=
  let speed :=
    if speed <? Slither.SpeedLevels.Min then Slither.SpeedLevels.Min
    else if speed >? Slither.SpeedLevels.Max then Slither.SpeedLevels.Max
    else speed in
  let g := set_speed speed g in
  match g.(snake) with
  | Some r =>
      set_heap
        (alter
           (λ s, Snake.with_base
                   (Base.setSpeed (Slither.SpeedNum speed) 0%Q s.(Snake.base))
                   s) r g.(heap)) g
  | None => g
  end.

(** The constructor [Game(canvas, options)] for a canvas of the given
    size and the options [speed] and [lives]; [setupLevels] adds the
    seven levels of the game. *)
Definition create (width height speed lives : Z) : t :=
  let g :=
    Make ∅ (width, height) 0 lives 0 lives false false false None ∅
      (ObjectManager.Make [] ∅ false) (LevelManager.Make (-1) 0) 1 0 in
  let g := setSpeed speed g in
  let g := set_score 0 g in
  let g := if lives <=? 0 then set_lives DEFAULT_LIVES g else g in
  let g := setupSnake None g in
  set_level_man (LevelManager.Make (-1) 7) g.

(** A call of the public interface of the game other than [restart]. *)
Inductive api_call : Type :=
| CallStart
| CallPause
| CallEnd
| CallSetSpeed (speed : Z).

(** The game after a sequence of such calls, first call first. *)
Fixpoint run_api (fuel : nat) (calls : list api_call) (g : t) : outcome t :=
  match calls with
  | [] => Done g
  | c :: calls' =>
      let stepped :=
        match c with
        | CallStart => start fuel g
        | CallPause => Done (pause g)
        | CallEnd => Done (end_ g)
        | CallSetSpeed speed => Done (setSpeed speed g)
        end in
      match stepped with
      | Done g' => run_api fuel calls' g'
      | Threw => Threw
      | Timeout => Timeout
      end
  end.

End Engine.

(** *** The player on the grid *)

(** [allocBlock(x, y)] of the player [s], from the ['alloc'] event it
    triggers to the last handler the event sets off on the grid:
    [onAlloc] answers the event; a grant is notified with ['alloc-recv']
    to the handlers of the player alone, where [Snake.onAllocRecv]
    records the block and erases the tail block it drops, and the
    erasure triggers a ['dealloc'] event, which [onDealloc] answers.
    Gives the player and the grid afterwards and the event [onAlloc]
    triggered; a ['collide'] event is handed back, not dispatched. *)
Definition allocBlock (x y : Z) (s : Snake.t) (a : alloc_info)
    : Snake.t * alloc_info * emitted :=
  let sender := Obj s.(Snake.base).(Base.ref) in
  let '(a1, e) := onAlloc sender x y a in
  match e.(payload) with
  | DAllocRecv _ _ _ =>
      let '(s1, erased) := Snake.onAllocRecv x y s in
      (s1, foldl (λ a' b, onDealloc sender b.1 b.2 a') a1 erased, e)
  | _ => (s, a1, e)
  end.

(** The ['dealloc'] events of [clear()], one for each body block, as
    [onDealloc] answers them. *)
Definition release (sender : value) (blocks : list (Z * Z))
    (a : alloc_info) : alloc_info :=
  foldl (λ a' b, onDealloc sender b.1 b.2 a') a blocks.

(** What the player does: a key press, which calls [setHeading], or a
    frame, which calls [draw]. *)
Inductive input : Type :=
| Key (heading : value)
| Frame.

(** The player and the grid after an input, on a board of the given
    [(width, height)]. *)
Definition play_step (boundaries : Z * Z) (sa : Snake.t * alloc_info)
    (i : input) : Snake.t * alloc_info :=
  match i with
  | Key heading => (Snake.setHeading heading sa.1, sa.2)
  | Frame =>
      let '(s1, request) := Snake.draw boundaries sa.1 in
      match request with
      | Some (x, y) => (allocBlock x y s1 sa.2).1
      | None => (s1, sa.2)
      end
  end.

Definition play (boundaries : Z * Z) (inputs : list input)
    (sa : Snake.t * alloc_info) : Snake.t * alloc_info :=
  foldl (play_step boundaries) sa inputs.

(** The body of the player and the grid agree: the cells the grid
    records for the player are the blocks of its body, each once. *)
Definition in_sync (s : Snake.t) (a : alloc_info) : Prop :=
  NoDup s.(Snake.base).(Base.body_blocks) ∧
  ∀ x y, owner_of a x y = Some (Obj s.(Snake.base).(Base.ref))
         ↔ (x, y) ∈ s.(Snake.base).(Base.body_blocks).

(** A block lies on the board. *)
Definition on_board (boundaries : Z * Z) (b : Z * Z) : Prop :=
  0 ≤ b.1 ≤ boundaries.1 - Base.block_size ∧
  0 ≤ b.2 ≤ boundaries.2 - Base.block_size.

(** The fields of the game a restart sets. *)
Definition status (g : t) : bool * bool * bool * Z * Z * Z * LevelManager.t :=
  (g.(started), g.(finished), g.(player_dead), g.(score), g.(lives),
   g.(prev_lives), g.(level_man)).

End Game.

(** ** Concrete buses, snakes and games the statements below are run on *)
Module Scenario.
Import EventManager.

(** Callbacks that leave the bus alone: the function with reference [1]
    returns [false], every other function returns [undefined]. *)
Definition run_veto (f : nat) (this sender data : value) (ev : events)
    : events * value :=
  (ev, if bool_decide (f = 1%nat) then Bool false else Undefined).

(** The same, but function [1] returns [false] only on the data [0]. *)
Definition run_veto_on_zero (f : nat) (this sender data : value)
    (ev : events) : events * value :=
  (ev, if bool_decide (f = 1%nat) && bool_decide (data = Num 0)
       then Bool false else Undefined).

(** A callback that unregisters itself from ['tick'] when it is called. *)
Definition run_leave (f : nat) (this sender data : value) (ev : events)
    : events * value :=
  ((unregister "tick" (Fun f) this ev).1, Undefined).

(** A bus with one handler for ['tick'], function [1] without owner. *)
Definition bus_veto : events := (register "tick" (Fun 1) Undefined ∅).1.

(** Function [2] registered for ['tick'] with owner [Obj 7] after it. *)
Definition bus_veto_then_f : events :=
  (register "tick" (Fun 2) (Obj 7) bus_veto).1.

(** Functions [3], [1] and [2] registered for ['tick'], in this order. *)
Definition bus_three : events :=
  (register "tick" (Fun 2) (Obj 7)
     (register "tick" (Fun 1) Undefined
        (register "tick" (Fun 3) (Obj 5) ∅).1).1).1.

(** A snake constructed with the default options whose first heading,
    [Right], has been applied. *)
Definition snake_right : Snake.t :=
  (Snake.getHeading
     (Snake.init 1 (Snake.Options Undefined None Slither.SpeedUndefined)
        0%Q)).2.

(** The same snake, grown to length [7]. *)
Definition snake_long : Snake.t := (Snake.setLength (Some 7) snake_right).1.1.

(** An engine in which no handler is registered beyond the grid's own:
    an ['alloc'] event is answered by [Game.onAlloc], whose grant is
    recorded by the player when the player is the sender; the other
    events find no handler.  Objects are constructed by allocating their
    start block, the player is cleared by releasing its blocks, and
    levels generate nothing. *)
Definition quiet_random (k : nat) : Q := (Z.of_nat k + 2) # 64.

Definition grid_trigger (event_type : string) (sender : value)
    (d : Game.data) (target_only : value) (g : Game.t) : Game.t :=
  match d with
  | Game.DCoord x y =>
      if bool_decide (event_type = "alloc") then
        let '(a, e) := Game.onAlloc sender x y g.(Game.alloc) in
        let g := Game.set_alloc a g in
        match e.(Game.payload), sender with
        | Game.DAllocRecv _ _ _, Obj r =>
            match g.(Game.heap) !! r with
            | Some s =>
                let '(s', erased) := Snake.onAllocRecv x y s in
                let a' :=
                  foldl (λ a' b, Game.onDealloc sender b.1 b.2 a') a erased in
                Game.set_alloc a' (Game.set_heap (<[r := s']> g.(Game.heap)) g)
            | None => g
            end
        | _, _ => g
        end
      else g
  | _ => g
  end.

Definition grid_clear (obj : nat) (g : Game.t) : Game.t :=
  match g.(Game.heap) !! obj with
  | Some s =>
      let a :=
        foldl (λ a b, Game.onDealloc (Obj obj) b.1 b.2 a) g.(Game.alloc)
          s.(Snake.base).(Base.body_blocks) in
      Game.set_alloc a
        (Game.set_heap (<[obj := Snake.with_blocks [] s]> g.(Game.heap)) g)
  | None => g
  end.

Definition alloc_construct (c : Slither.class) (options : gmap string value)
    (x y : Z) (r : nat) (g : Game.t) : Game.t :=
  Game.set_alloc (Game.onAlloc (Obj r) x y g.(Game.alloc)).1 g.

Definition empty_level (level : Z) (restart : bool) (g : Game.t) : Game.t :=
  g.

Definition no_freeze (enable : bool) (g : Game.t) : Game.t := g.

Definition no_animate (g : Game.t) : Game.t := g.

(** A game constructed on a canvas of 400 by 300 at speed [3] with three
    lives, then started, then paused. *)
Definition game_new : Game.t :=
  Game.create quiet_random grid_trigger grid_clear 400 300 3 3.

Definition game_started : outcome Game.t :=
  Game.start quiet_random grid_trigger grid_clear empty_level no_freeze
    no_animate 2 game_new.

Definition game_paused : outcome Game.t :=
  match game_started with
  | Done g => Done (Game.pause g)
  | Threw => Threw
  | Timeout => Timeout
  end.

(** The new game with a mouse, the object [5], placed at [(50, 50)]. *)
Definition game_with_mouse : Game.t :=
  Game.object_man_add (5%nat, Slither.Mouse)
    (alloc_construct Slither.Mouse ∅ 50 50 5 game_new).

(** The new game once [k] grains have been placed at the positions the
    random numbers [quiet_random] give. *)
Fixpoint placed (k : nat) : Game.t :=
  match k with
  | O => game_new
  | S k' =>
      match Game.place quiet_random 1 (placed k') with
      | Done (x, y, g1) =>
          Game.object_man_add (g1.(Game.next_ref), Slither.Grain)
            (alloc_construct Slither.Grain ∅ x y g1.(Game.next_ref)
               (Game.set_next_ref (S g1.(Game.next_ref)) g1))
      | _ => placed k'
      end
  end.

(** In the scenario, the game with [10 - n] objects placed. *)
Definition scenario_inv (n : nat) (g : Game.t) : Prop :=
  (n ≤ 10)%nat ∧
  g.(Game.boundaries) = (400, 300) ∧
  g.(Game.rng) = (2 * (10 - n))%nat ∧
  g.(Game.next_ref) = (2 + (10 - n))%nat ∧
  g.(Game.alloc) = (placed (10 - n)).(Game.alloc).

(** Calls of the grid handlers: before the allocation of the cell
    [(20, 10)] by the object [5], and after it. *)
Definition grid_before : list Game.grid_call :=
  [Game.CallAlloc (Obj 1) 0 0; Game.CallAlloc (Obj 2) 20 0].

Definition grid_later : list Game.grid_call :=
  [Game.CallAlloc (Obj 6) 20 10; Game.CallDealloc (Obj 6) 20 10;
   Game.CallAlloc (Obj 6) 20 20; Game.CallDealloc (Obj 2) 20 0;
   Game.CallDealloc (Obj 1) 0 0].

(** Random numbers that run through the eighths of the unit interval. *)
Definition cycle_random (k : nat) : Q := Z.of_nat (k mod 8) # 8.

(** The player once its constructor has requested the block at [(0, 0)]
    on the empty grid. *)
Definition player_placed : Snake.t * Game.alloc_info :=
  (Game.allocBlock 0 0 snake_right ∅).1.

(** Two frames to the right, a turn downwards, two frames down. *)
Definition moves : list Game.input :=
  [Game.Frame; Game.Frame; Game.Key (Num Slither.Headings.Down); Game.Frame;
   Game.Frame].

(** The new game, started and then ended. *)
Definition game_over : Game.t :=
  match game_started with
  | Done g => Game.end_ g
  | _ => game_new
  end.

(** Two rats on the board: one heading upwards, one that has not been
    given a heading. *)
Definition rat_up : Rat.t :=
  Rat.Make (Base.Make 9 Slither.Rat None [(50, 50)] true true None)
    (Some Slither.Headings.Up) None None.

Definition rat_other : Rat.t :=
  Rat.Make (Base.Make 8 Slither.Rat None [(70, 50)] true true None)
    None None None.

(** A rat at the right border, heading right, three frames after its
    last change of heading. *)
Definition rat_border : Rat.t :=
  Rat.Make (Base.Make 9 Slither.Rat None [(390, 50)] true true None)
    (Some Slither.Headings.Right) (Some 3) (Some 40).

End Scenario.

(** ** The event bus: registration and dispatch *)
Module EventManagerFacts.
Import EventManager.

Lemma searchFrom_range i hs cb ow :
  searchFrom i hs cb ow = -1 ∨
  i ≤ searchFrom i hs cb ow < i + Z.of_nat (length hs).
Proof.
  revert i. induction hs as [|h hs IH]; intros i; simpl; [by left|].
  destruct (truthy ow).
  - destruct (bool_decide _ && bool_decide _); [right; lia|].
    destruct (IH (i + 1)) as [->|?]; [by left|right; lia].
  - destruct (bool_decide _); [right; lia|].
    destruct (IH (i + 1)) as [->|?]; [by left|right; lia].
Qed.

Lemma searchFrom_none i hs cb ow :
  0 ≤ i →
  searchFrom i hs cb ow = -1 ↔ Forall (λ h, ¬ matches cb ow h) hs.
Proof.
  revert i. induction hs as [|h hs IH]; intros i Hi; simpl.
  - split; [constructor|done].
  - rewrite Forall_cons. unfold matches at 1.
    destruct (truthy ow) eqn:Ho.
    + destruct (decide (callback h = cb)) as [E1|E1];
        destruct (decide (owner h = ow)) as [E2|E2];
        rewrite ?(bool_decide_eq_true_2 _ E1), ?(bool_decide_eq_true_2 _ E2),
          ?(bool_decide_eq_false_2 _ E1), ?(bool_decide_eq_false_2 _ E2);
        simpl.
      * split; [lia|intros [H _]; by destruct H].
      * rewrite IH by lia. unfold matches. rewrite Ho. tauto.
      * rewrite IH by lia. unfold matches. rewrite Ho. tauto.
      * rewrite IH by lia. unfold matches. rewrite Ho. tauto.
    + destruct (decide (callback h = cb)) as [E1|E1];
        rewrite ?(bool_decide_eq_true_2 _ E1), ?(bool_decide_eq_false_2 _ E1).
      * split; [lia|intros [H _]; by destruct H].
      * rewrite IH by lia. unfold matches. rewrite Ho. tauto.
Qed.

(** What a successful [register] did. *)
Lemma register_true event_type cb ow ev ev1 :
  register event_type cb ow ev = (ev1, true) →
  ∃ f hs,
    cb = Fun f ∧
    hs = default [] (ev !! event_type) ∧
    Forall (λ h, ¬ matches cb ow h) hs ∧
    ev1 = <[event_type :=
              hs ++ [Handler cb
                       (if truthy ow then ow else Undefined)]]> ev.
Proof.
  unfold register. destruct cb; simpl; try congruence.
  intros H. exists ref.
  destruct (ev !! event_type) as [hs|] eqn:Hev; simpl in H.
  - rewrite Hev in H. simpl in H.
    destruct (searchFrom 0 hs (Fun ref) ow =? -1) eqn:Hs; [|congruence].
    apply Z.eqb_eq in Hs. apply searchFrom_none in Hs; [|lia].
    exists hs. inversion H. done.
  - rewrite lookup_insert_eq in H. simpl in H. inversion H.
    exists []. rewrite insert_insert_eq. split_and!; try done.
Qed.

(** A handler that is present under any ow makes a registration of its
    cb without ow, or with the ow it has, fail. *)
Lemma register_present event_type f ow ow2 ev hs :
  ev !! event_type = Some hs →
  Handler (Fun f) (if truthy ow then ow else Undefined) ∈ hs →
  ow2 = ow ∨ truthy ow2 = false →
  register event_type (Fun f) ow2 ev = (ev, false).
Proof.
  intros Hev Hin Ho. unfold register. simpl. rewrite Hev. simpl. rewrite Hev. simpl.
  destruct (searchFrom 0 hs (Fun f) ow2 =? -1) eqn:Hs; [|done].
  exfalso. apply Z.eqb_eq in Hs. apply searchFrom_none in Hs; [|lia].
  rewrite Forall_forall in Hs. apply (Hs _ Hin). unfold matches.
  destruct Ho as [->|Ho].
  - destruct (truthy ow); done.
  - rewrite Ho. done.
Qed.

Section Dispatch.

Variable run : nat → value → value → value → events → events * value.
Variables sender data target_only : value.

Local Abbreviation filtered := (EventManager.filtered target_only).
Local Abbreviation result := (EventManager.result run sender data).
Local Abbreviation quiet := (EventManager.quiet run sender data).
Local Abbreviation fires :=
  (EventManager.fires run sender data target_only).

Lemma trigger_loop_quiet ev event_type hs :
  ev !! event_type = Some hs →
  quiet ev hs →
  ∀ fuel i fired,
    (length hs - i < fuel)%nat →
    trigger_loop run fuel event_type sender data target_only i ev fired
    = Done (ev, fired ++ fires ev (drop i hs)).
Proof.
  intros Hev Hq. induction fuel as [|fuel IH]; intros i fired Hlen; simpl.
  - lia.
  - rewrite Hev. destruct (hs !! i) as [h|] eqn:Hi.
    + pose proof (lookup_lt_Some _ _ _ Hi) as Hlt.
      rewrite (drop_S _ _ _ Hi). simpl.
      change (truthy target_only && negb (bool_decide (target_only = owner h)))
        with (filtered h).
      destruct (filtered h); [apply IH; lia|].
      assert (Hin : h ∈ hs) by (apply list_elem_of_lookup; eauto).
      unfold EventManager.result.
      destruct (callback h) eqn:Hc; simpl; try (apply IH; lia).
      specialize (Hq h ref Hin Hc).
      destruct (run ref _ sender data ev) as [ev' res] eqn:Hr. simpl in *. subst ev'.
      destruct (bool_decide (res = Bool false)); [done|].
      rewrite IH by lia. by rewrite <- app_assoc.
    + apply lookup_ge_None in Hi. rewrite drop_ge by lia. by rewrite app_nil_r.
Qed.

Lemma trigger_quiet ev event_type hs fuel :
  ev !! event_type = Some hs →
  quiet ev hs →
  (length hs < fuel)%nat →
  trigger run fuel event_type sender data target_only ev
  = Done (ev, fires ev hs).
Proof.
  intros Hev Hq Hlen. unfold trigger. rewrite Hev.
  rewrite (trigger_loop_quiet ev event_type hs) by (done || lia). done.
Qed.

Lemma fires_count_le ev hs h :
  (count_occ handler_eq_dec (fires ev hs) h
   ≤ count_occ handler_eq_dec hs h)%nat.
Proof.
  induction hs as [|h' hs IH]; simpl; [done|].
  destruct (filtered h'); [destruct (handler_eq_dec h' h); lia|].
  destruct (is_function (callback h')); [|destruct (handler_eq_dec h' h); lia].
  destruct (bool_decide _); simpl; destruct (handler_eq_dec h' h); lia.
Qed.

Lemma fires_all ev hs :
  Forall (λ h, filtered h = false ∧ is_function h.(callback) = true
               ∧ result ev h ≠ Bool false) hs →
  fires ev hs = hs.
Proof.
  induction 1 as [|h hs (Hf & Hc & Hr) _ IH]; simpl; [done|].
  rewrite Hf, Hc, bool_decide_eq_false_2 by done. by rewrite IH.
Qed.

Lemma fires_app_stop ev pre h post :
  Forall (λ h', result ev h' ≠ Bool false) pre →
  filtered h = false → is_function h.(callback) = true →
  result ev h = Bool false →
  fires ev (pre ++ h :: post) = fires ev pre ++ [h].
Proof.
  intros Hpre Hf Hc Hr. induction Hpre as [|h' pre Hh' _ IH]; simpl.
  - rewrite Hf, Hc, bool_decide_eq_true_2 by done. done.
  - destruct (filtered h'); [done|]. destruct (is_function (callback h')); [|done].
    rewrite bool_decide_eq_false_2 by done. simpl. by rewrite IH.
Qed.

Lemma fires_app_go ev pre post :
  Forall (λ h', result ev h' ≠ Bool false) pre →
  fires ev (pre ++ post) = fires ev pre ++ fires ev post.
Proof.
  induction 1 as [|h' pre Hh' _ IH]; simpl; [done|].
  destruct (filtered h'); [done|]. destruct (is_function (callback h')); [|done].
  rewrite bool_decide_eq_false_2 by done. simpl. by rewrite IH.
Qed.

End Dispatch.

(** The loop of [trigger] sees what the callbacks do to the table: a
    handler that unregisters itself makes the loop skip the handler
    registered after it, and when it was the only handler of the topic,
    the topic is gone when the loop tests its bound, which throws. *)
Example trigger_sees_unregister :
  trigger Scenario.run_leave 10 "tick" Undefined Undefined Undefined
    Scenario.bus_three
  = Done ({["tick" := [Handler (Fun 1) Undefined]]},
          [Handler (Fun 3) (Obj 5); Handler (Fun 2) (Obj 7)]) ∧
  trigger Scenario.run_leave 10 "tick" Undefined Undefined Undefined
    Scenario.bus_veto
  = Threw.
Proof. split; by vm_compute. Qed.

Lemma not_matches_count cb ow hs :
  Forall (λ h, ¬ matches cb ow h) hs →
  count_occ handler_eq_dec hs
    (Handler cb (if truthy ow then ow else Undefined)) = 0%nat.
Proof.
  intros H. apply count_occ_not_In. intros Hin.
  rewrite Forall_forall in H. apply list_elem_of_In in Hin.
  apply (H _ Hin). unfold matches. by destruct (truthy ow).
Qed.

(** C2, as stated, fails: on a bus where a handler registered earlier for
    the topic returns [false], the second [register] of the pair
    (function [2], owner [Obj 7]) returns [false] and leaves the table as
    it is, but the next [trigger] stops at the earlier handler and never
    invokes function [2]. *)
Lemma register_twice_fires_once_counterexample :
  register "tick" (Fun 2) (Obj 7) Scenario.bus_veto
    = (Scenario.bus_veto_then_f, true) ∧
  register "tick" (Fun 2) (Obj 7) Scenario.bus_veto_then_f
    = (Scenario.bus_veto_then_f, false) ∧
  ∃ fired,
    trigger Scenario.run_veto 10 "tick" Undefined Undefined Undefined
      Scenario.bus_veto_then_f = Done (Scenario.bus_veto_then_f, fired) ∧
    count_occ handler_eq_dec fired (Handler (Fun 2) (Obj 7)) ≠ 1%nat.
Proof.
  split; [by vm_compute|]. split; [by vm_compute|].
  exists [Handler (Fun 1) Undefined]. split; [by vm_compute|].
  vm_compute. discriminate.
Qed.

(** C2, amended: a [register] that follows a successful [register] of the
    same callback and owner returns [false] and leaves the table as it
    is; a [trigger] of the topic whose callbacks leave the table alone
    then invokes the handler at most once, and exactly once when no
    handler registered before it returns [false] and the target filter
    lets it through. *)
Theorem register_twice_fires_at_most_once
    (run : nat → value → value → value → events → events * value)
    (event_type : string) (cb ow : value) (ev ev1 : events)
    (sender data target_only : value) (fuel : nat) :
  register event_type cb ow ev = (ev1, true) →
  let h := Handler cb (if truthy ow then ow else Undefined) in
  let hs := default [] (ev !! event_type) in
  quiet run sender data ev1 (hs ++ [h]) →
  (length hs + 1 < fuel)%nat →
  register event_type cb ow ev1 = (ev1, false) ∧
  ev1 !! event_type = Some (hs ++ [h]) ∧
  ∃ fired,
    trigger run fuel event_type sender data target_only ev1
      = Done (ev1, fired) ∧
    (count_occ handler_eq_dec fired h ≤ 1)%nat ∧
    (Forall (λ h', result run sender data ev1 h' ≠ Bool false) hs →
     filtered target_only h = false →
     count_occ handler_eq_dec fired h = 1%nat).
Proof.
  intros Hreg h hs Hq Hfuel.
  destruct (register_true _ _ _ _ _ Hreg) as (f & hs' & -> & Hhs & Hno & ->).
  fold hs in Hhs. subst hs'. fold h in Hq |- *.
  assert (Hev1 : <[event_type := hs ++ [h]]> ev !! event_type
                 = Some (hs ++ [h])) by apply lookup_insert_eq.
  assert (Hcount : count_occ handler_eq_dec hs h = 0%nat)
    by (apply (not_matches_count (Fun f) ow hs Hno)).
  split.
  { apply (register_present event_type f ow ow _ (hs ++ [h])); [done| |by left].
    apply elem_of_app. right. by apply list_elem_of_singleton. }
  split; [done|].
  exists (fires run sender data target_only (<[event_type := hs ++ [h]]> ev)
            (hs ++ [h])).
  split.
  { apply trigger_quiet; [done|done|]. rewrite length_app. simpl. lia. }
  split.
  { etrans; [apply fires_count_le|].
    rewrite count_occ_app, Hcount, count_occ_cons_eq, count_occ_nil by done.
    lia. }
  intros Hgo Hfilt. rewrite fires_app_go by done. rewrite count_occ_app.
  pose proof (fires_count_le run sender data target_only
                (<[event_type := hs ++ [h]]> ev) hs h) as Hle.
  rewrite Hcount in Hle.
  assert (Hlast : fires run sender data target_only
                    (<[event_type := hs ++ [h]]> ev) [h] = [h]).
  { simpl. rewrite Hfilt. simpl. by destruct (bool_decide _). }
  rewrite Hlast, count_occ_cons_eq, count_occ_nil by done. lia.
Qed.

Lemma register_twice_fires_at_most_once_witness :
  register "tick" (Fun 2) (Obj 7) Scenario.bus_veto_then_f
    = (Scenario.bus_veto_then_f, false) ∧
  Scenario.bus_veto_then_f !! "tick"
    = Some ([Handler (Fun 1) Undefined] ++ [Handler (Fun 2) (Obj 7)]) ∧
  ∃ fired,
    trigger Scenario.run_veto_on_zero 10 "tick" Undefined (Num 1) Undefined
      Scenario.bus_veto_then_f = Done (Scenario.bus_veto_then_f, fired) ∧
    (count_occ handler_eq_dec fired (Handler (Fun 2) (Obj 7)) ≤ 1)%nat ∧
    (Forall (λ h', result Scenario.run_veto_on_zero Undefined (Num 1)
                     Scenario.bus_veto_then_f h' ≠ Bool false)
       [Handler (Fun 1) Undefined] →
     filtered Undefined (Handler (Fun 2) (Obj 7)) = false →
     count_occ handler_eq_dec fired (Handler (Fun 2) (Obj 7)) = 1%nat).
Proof.
  apply (register_twice_fires_at_most_once Scenario.run_veto_on_zero "tick"
           (Fun 2) (Obj 7) Scenario.bus_veto Scenario.bus_veto_then_f
           Undefined (Num 1) Undefined 10).
  - vm_compute. reflexivity.
  - intros h f _ _. reflexivity.
  - vm_compute. lia.
Defined.

(** C4: when the callbacks of a topic leave the table alone and, in one
    [trigger] call, the handler [h] is the first to return the boolean
    [false], that call invokes the handlers registered before [h] and
    [h], and none of those registered after it; the table is unchanged,
    and a later [trigger] call in which no callback returns [false]
    invokes every handler, in registration order. *)
Theorem trigger_short_circuit
    (run1 run2 : nat → value → value → value → events → events * value)
    (event_type : string) (ev : events) (pre post : list handler)
    (h : handler) (sender1 data1 sender2 data2 : value) (fuel : nat) :
  ev !! event_type = Some (pre ++ h :: post) →
  Forall (λ h', is_function h'.(callback) = true) (pre ++ h :: post) →
  quiet run1 sender1 data1 ev (pre ++ h :: post) →
  quiet run2 sender2 data2 ev (pre ++ h :: post) →
  Forall (λ h', result run1 sender1 data1 ev h' ≠ Bool false) pre →
  result run1 sender1 data1 ev h = Bool false →
  Forall (λ h', result run2 sender2 data2 ev h' ≠ Bool false)
    (pre ++ h :: post) →
  (length (pre ++ h :: post) < fuel)%nat →
  trigger run1 fuel event_type sender1 data1 Undefined ev
    = Done (ev, pre ++ [h]) ∧
  trigger run2 fuel event_type sender2 data2 Undefined ev
    = Done (ev, pre ++ h :: post).
Proof.
  intros Hev Hfun Hq1 Hq2 Hpre Hh Hall Hfuel.
  assert (Hfilt : ∀ h', filtered Undefined h' = false) by done.
  split.
  - rewrite (trigger_quiet run1 sender1 data1 Undefined ev event_type
               (pre ++ h :: post)) by done.
    rewrite fires_app_stop; [|done|done| |done].
    + rewrite fires_all; [done|]. apply Forall_app in Hfun as [Hfpre _].
      rewrite Forall_forall in *. intros x Hx. split_and!; [done|by apply Hfpre|by apply Hpre].
    + apply Forall_app in Hfun as [_ Hf]. by inversion Hf.
  - rewrite (trigger_quiet run2 sender2 data2 Undefined ev event_type
               (pre ++ h :: post)) by done.
    rewrite fires_all; [done|].
    rewrite Forall_forall in *. intros x Hx. split_and!; [done|by apply Hfun|by apply Hall].
Qed.

Lemma trigger_short_circuit_witness :
  trigger Scenario.run_veto_on_zero 10 "tick" Undefined (Num 0) Undefined
    Scenario.bus_three
    = Done (Scenario.bus_three,
            [Handler (Fun 3) (Obj 5)] ++ [Handler (Fun 1) Undefined]) ∧
  trigger Scenario.run_veto_on_zero 10 "tick" Undefined (Num 1) Undefined
    Scenario.bus_three
    = Done (Scenario.bus_three,
            [Handler (Fun 3) (Obj 5)]
              ++ Handler (Fun 1) Undefined :: [Handler (Fun 2) (Obj 7)]).
Proof.
  apply (trigger_short_circuit Scenario.run_veto_on_zero
           Scenario.run_veto_on_zero "tick" Scenario.bus_three
           [Handler (Fun 3) (Obj 5)] [Handler (Fun 2) (Obj 7)]
           (Handler (Fun 1) Undefined) Undefined (Num 0) Undefined (Num 1) 10).
  - vm_compute. reflexivity.
  - repeat constructor.
  - intros h f _ _. reflexivity.
  - intros h f _ _. reflexivity.
  - repeat constructor. vm_compute. discriminate.
  - vm_compute. reflexivity.
  - repeat constructor; vm_compute; discriminate.
  - vm_compute. lia.
Defined.

(** C10: once [register(t, f, s)] has succeeded, with any owner [s], a
    [register(t, f)] without owner returns [false] and leaves the table
    as it is. *)
Theorem register_without_owner_ignores_owner
    (event_type : string) (cb ow : value) (ev ev1 : events) :
  register event_type cb ow ev = (ev1, true) →
  register event_type cb Undefined ev1 = (ev1, false).
Proof.
  intros Hreg.
  destruct (register_true _ _ _ _ _ Hreg) as (f & hs & -> & Hhs & Hno & ->).
  apply (register_present event_type f ow Undefined _
           (hs ++ [Handler (Fun f) (if truthy ow then ow else Undefined)])).
  - apply lookup_insert_eq.
  - apply elem_of_app. right. by apply list_elem_of_singleton.
  - by right.
Qed.

Lemma register_without_owner_ignores_owner_witness :
  register "tick" (Fun 2) Undefined Scenario.bus_veto_then_f
    = (Scenario.bus_veto_then_f, false).
Proof.
  apply (register_without_owner_ignores_owner "tick" (Fun 2) (Obj 7)
           Scenario.bus_veto Scenario.bus_veto_then_f).
  vm_compute. reflexivity.
Defined.

End EventManagerFacts.

(** ** The allocation grid *)
Module GridFacts.
Import Game.

Lemma getAllocObj_owner a x y :
  getAllocObj x y a = default Null (owner_of a x y).
Proof.
  unfold getAllocObj, owner_of. destruct (a !! x) as [item|]; simpl; [|done].
  by destruct (cells item !! y).
Qed.

Lemma is_object_not_null o : is_object o → not_null o = true.
Proof. by intros [r ->]. Qed.

Lemma owner_of_object a x y o :
  well_formed a → owner_of a x y = Some o → is_object o.
Proof.
  unfold owner_of. intros Hwf H. destruct (a !! x) as [item|] eqn:Hx; [|done].
  simpl in H. by eapply (Hwf x item Hx).
Qed.

Lemma owner_of_setAllocObj a x y o x' y' :
  owner_of (setAllocObj x y o a) x' y'
  = if bool_decide (x = x' ∧ y = y') then Some o else owner_of a x' y'.
Proof.
  unfold setAllocObj, owner_of.
  destruct (a !! x) as [item|] eqn:Hx.
  - rewrite Hx. destruct (decide (x = x')) as [<-|Hne].
    + rewrite lookup_insert_eq, Hx. simpl.
      destruct (decide (y = y')) as [<-|Hney].
      * rewrite lookup_insert_eq. by rewrite bool_decide_eq_true_2.
      * rewrite lookup_insert_ne by done.
        rewrite bool_decide_eq_false_2 by tauto. done.
    + rewrite lookup_insert_ne by done.
      rewrite bool_decide_eq_false_2 by tauto. done.
  - rewrite lookup_insert_eq. destruct (decide (x = x')) as [<-|Hne].
    + rewrite lookup_insert_eq, Hx. simpl.
      destruct (decide (y = y')) as [<-|Hney].
      * rewrite lookup_insert_eq. by rewrite bool_decide_eq_true_2.
      * rewrite lookup_insert_ne, lookup_empty by done.
        rewrite bool_decide_eq_false_2 by tauto. done.
    + rewrite !lookup_insert_ne by done.
      rewrite bool_decide_eq_false_2 by tauto. done.
Qed.

Lemma well_formed_empty : well_formed ∅.
Proof. intros x item H. by rewrite lookup_empty in H. Qed.

Lemma well_formed_setAllocObj a x y o :
  well_formed a → owner_of a x y = None → is_object o →
  well_formed (setAllocObj x y o a).
Proof.
  intros Hwf Hfree Ho x' item'. unfold setAllocObj, owner_of in *.
  destruct (a !! x) as [item|] eqn:Hx.
  - rewrite Hx. simpl in Hfree. destruct (Hwf x item Hx) as (Hlen & Hne & Hobj).
    destruct (decide (x = x')) as [<-|Hnx].
    + rewrite lookup_insert_eq. intros [= <-]. simpl. split_and!.
      * rewrite map_size_insert_None by done. lia.
      * apply insert_non_empty.
      * intros y' o'. destruct (decide (y = y')) as [<-|Hny].
        -- rewrite lookup_insert_eq. by intros [= <-].
        -- rewrite lookup_insert_ne by done. apply Hobj.
    + rewrite lookup_insert_ne by done. apply Hwf.
  - rewrite lookup_insert_eq. destruct (decide (x = x')) as [<-|Hnx].
    + rewrite insert_insert_eq, lookup_insert_eq. intros [= <-]. simpl. split_and!.
      * rewrite map_size_insert_None by apply lookup_empty.
        rewrite map_size_empty. lia.
      * apply insert_non_empty.
      * intros y' o'. destruct (decide (y = y')) as [<-|Hny].
        -- rewrite lookup_insert_eq. by intros [= <-].
        -- rewrite lookup_insert_ne, lookup_empty by done. done.
    + rewrite !lookup_insert_ne by done. apply Hwf.
Qed.

(** [onAlloc] on a free cell and on an owned cell. *)
Lemma onAlloc_free a sender x y :
  owner_of a x y = None →
  onAlloc sender x y a
  = (setAllocObj x y sender a, Emit "alloc-recv" (DAllocRecv sender x y) sender).
Proof. intros H. unfold onAlloc. rewrite getAllocObj_owner, H. done. Qed.

Lemma onAlloc_owned a sender x y o :
  well_formed a → owner_of a x y = Some o →
  onAlloc sender x y a = (a, Emit "collide" (DCollide sender o x y) Undefined).
Proof.
  intros Hwf H. unfold onAlloc. rewrite getAllocObj_owner, H. simpl.
  by rewrite (is_object_not_null o (owner_of_object _ _ _ _ Hwf H)).
Qed.

(** [onDealloc] by someone who does not own the cell. *)
Lemma onDealloc_not_owner a sender x y :
  well_formed a → is_object sender → owner_of a x y ≠ Some sender →
  onDealloc sender x y a = a.
Proof.
  intros Hwf [r ->] Hne. unfold onDealloc. rewrite getAllocObj_owner.
  case_bool_decide as H; [|done]. exfalso.
  destruct (owner_of a x y); simpl in H; congruence.
Qed.

(** [onDealloc] by the owner: the cell leaves the map, the other cells
    stay. *)
Lemma onDealloc_owner a sender x y x' y' :
  well_formed a → owner_of a x y = Some sender →
  owner_of (onDealloc sender x y a) x' y'
  = if bool_decide (x = x' ∧ y = y') then None else owner_of a x' y'.
Proof.
  intros Hwf Ho. unfold onDealloc. rewrite getAllocObj_owner, Ho.
  change (default Null (Some sender)) with sender.
  rewrite bool_decide_eq_true_2 by done.
  unfold owner_of in *. destruct (a !! x) as [item|] eqn:Hx; [|done].
  simpl in Ho. destruct (Hwf x item Hx) as (Hlen & Hne & Hobj).
  destruct (col_length item - 1 =? 0) eqn:Hone.
  - apply Z.eqb_eq in Hone.
    assert (Hsz : size (cells item) = 1%nat) by lia.
    destruct (decide (x = x')) as [<-|Hnx].
    + rewrite lookup_delete_eq. simpl.
      destruct (decide (y = y')) as [<-|Hny].
      * by rewrite bool_decide_eq_true_2.
      * rewrite bool_decide_eq_false_2 by tauto. rewrite Hx. simpl.
        destruct (cells item !! y') as [o'|] eqn:Hy'; [|done]. exfalso.
        assert (size (delete y (cells item)) = 0%nat) as H0
          by (rewrite map_size_delete_Some by eauto; lia).
        apply map_size_empty_inv in H0.
        assert (delete y (cells item) !! y' = Some o') as H1
          by (by rewrite lookup_delete_ne).
        rewrite H0, lookup_empty in H1. done.
    + rewrite lookup_delete_ne by done.
      rewrite bool_decide_eq_false_2 by tauto. done.
  - destruct (decide (x = x')) as [<-|Hnx].
    + rewrite lookup_insert_eq. simpl.
      destruct (decide (y = y')) as [<-|Hny].
      * rewrite lookup_delete_eq. by rewrite bool_decide_eq_true_2.
      * rewrite lookup_delete_ne by done.
        rewrite bool_decide_eq_false_2 by tauto. by rewrite Hx.
    + rewrite lookup_insert_ne by done.
      rewrite bool_decide_eq_false_2 by tauto. done.
Qed.

Lemma well_formed_onDealloc a sender x y :
  well_formed a → is_object sender → well_formed (onDealloc sender x y a).
Proof.
  intros Hwf Hs.
  destruct (decide (owner_of a x y = Some sender)) as [Ho|Hno];
    [|by rewrite onDealloc_not_owner].
  unfold onDealloc. rewrite getAllocObj_owner, Ho.
  change (default Null (Some sender)) with sender.
  rewrite bool_decide_eq_true_2 by done.
  unfold owner_of in Ho. destruct (a !! x) as [item|] eqn:Hx; [|done].
  simpl in Ho. destruct (Hwf x item Hx) as (Hlen & Hne & Hobj).
  destruct (col_length item - 1 =? 0) eqn:Hone.
  - intros x' item'. destruct (decide (x = x')) as [<-|Hnx].
    + by rewrite lookup_delete_eq.
    + rewrite lookup_delete_ne by done. apply Hwf.
  - apply Z.eqb_neq in Hone. intros x' item'.
    destruct (decide (x = x')) as [<-|Hnx].
    + rewrite lookup_insert_eq. intros [= <-]. simpl.
      assert (Hsz : size (delete y (cells item)) = (size (cells item) - 1)%nat).
      { rewrite map_size_delete_Some by eauto. lia. }
      assert (size (cells item) ≠ 0%nat)
        by (by apply map_size_non_empty_iff).
      split_and!.
      * rewrite Hsz. lia.
      * apply map_size_non_empty_iff. rewrite Hsz. lia.
      * intros y' o'. destruct (decide (y = y')) as [<-|Hny].
        -- by rewrite lookup_delete_eq.
        -- rewrite lookup_delete_ne by done. apply Hobj.
    + rewrite lookup_insert_ne by done. apply Hwf.
Qed.

Lemma well_formed_step a c :
  well_formed a → is_object (call_sender c) → well_formed (grid_step a c).
Proof.
  intros Hwf Hs. destruct c as [sender x y|sender x y]; simpl in *.
  - destruct (owner_of a x y) as [o|] eqn:Ho.
    + by rewrite (onAlloc_owned a sender x y o).
    + rewrite onAlloc_free by done. simpl. by apply well_formed_setAllocObj.
  - by apply well_formed_onDealloc.
Qed.

Lemma well_formed_run calls a :
  well_formed a → Forall (λ c, is_object (call_sender c)) calls →
  well_formed (grid_run calls a).
Proof.
  intros Hwf H. revert a Hwf. induction H as [|c calls Hc _ IH]; intros a Hwf;
    [done|]. simpl. apply IH. by apply well_formed_step.
Qed.

(** A call other than the owner's [dealloc] of the cell keeps the owner. *)
Lemma owner_kept_step a c x y o :
  well_formed a → is_object (call_sender c) →
  owner_of a x y = Some o → c ≠ CallDealloc o x y →
  owner_of (grid_step a c) x y = Some o.
Proof.
  intros Hwf Hs Ho Hc. destruct c as [sender x' y'|sender x' y']; simpl in *.
  - destruct (owner_of a x' y') as [o'|] eqn:Ho'.
    + by rewrite (onAlloc_owned a sender x' y' o').
    + rewrite onAlloc_free by done. simpl. rewrite owner_of_setAllocObj.
      rewrite bool_decide_eq_false_2; [done|]. intros [-> ->]. congruence.
  - destruct (decide (owner_of a x' y' = Some sender)) as [Hown|Hno];
      [|by rewrite onDealloc_not_owner].
    rewrite onDealloc_owner by done.
    rewrite bool_decide_eq_false_2; [done|]. intros [-> ->].
    rewrite Ho in Hown. congruence.
Qed.

Lemma owner_kept_run calls a x y o :
  well_formed a → Forall (λ c, is_object (call_sender c)) calls →
  owner_of a x y = Some o → CallDealloc o x y ∉ calls →
  owner_of (grid_run calls a) x y = Some o.
Proof.
  intros Hwf H. revert a Hwf. induction H as [|c calls Hc _ IH];
    intros a Hwf Ho Hnot; [done|]. simpl. apply IH.
  - by apply well_formed_step.
  - apply owner_kept_step; try done. intros ->. apply Hnot. by left.
  - intros Hin. apply Hnot. by right.
Qed.

Lemma getAllocObj_null a x y :
  well_formed a → getAllocObj x y a = Null ↔ owner_of a x y = None.
Proof.
  intros Hwf. rewrite getAllocObj_owner.
  destruct (owner_of a x y) as [o|] eqn:Ho; simpl; [|done].
  destruct (owner_of_object a x y o Hwf Ho) as [r ->]. done.
Qed.

(** C1: on a grid reached by calls of the two handlers from game objects,
    [onAlloc(A, c)] on a free cell [c] records [A] and triggers
    ['alloc-recv'] for [A] only; through any later calls without a
    [dealloc] of [c] by [A] the owner of [c] stays [A], and [onAlloc(B, c)],
    for any [B], triggers ['collide'] with initiator [B] and receiver [A]
    and leaves the grid as it is; a [dealloc] by an object that does not
    own the cell leaves the grid as it is; a [dealloc] of [c] by [A] takes
    [c] out of the map; and throughout, a cell without owner is absent
    from the map, no column is empty, and the owners recorded are
    objects. *)
Theorem grid_exclusive (before later : list grid_call) (A B : value)
    (x y : Z) :
  Forall (λ c, is_object (call_sender c)) before →
  Forall (λ c, is_object (call_sender c)) later →
  is_object A →
  getAllocObj x y (grid_run before ∅) = Null →
  CallDealloc A x y ∉ later →
  let a := grid_run before ∅ in
  let a1 := (onAlloc A x y a).1 in
  let a2 := grid_run later a1 in
  onAlloc A x y a = (a1, Emit "alloc-recv" (DAllocRecv A x y) A) ∧
  getAllocObj x y a1 = A ∧
  getAllocObj x y a2 = A ∧
  onAlloc B x y a2 = (a2, Emit "collide" (DCollide B A x y) Undefined) ∧
  (∀ sender x' y', is_object sender → getAllocObj x' y' a2 ≠ sender →
     onDealloc sender x' y' a2 = a2) ∧
  owner_of (onDealloc A x y a2) x y = None ∧
  getAllocObj x y (onDealloc A x y a2) = Null ∧
  well_formed a2 ∧
  (∀ x' y', getAllocObj x' y' a2 = Null ↔ owner_of a2 x' y' = None).
Proof.
  intros Hbefore Hlater HA Hfree Hnot a a1 a2.
  assert (Hwf : well_formed a) by (by apply well_formed_run, Hbefore; apply well_formed_empty).
  apply getAllocObj_null in Hfree; [|done].
  assert (Hal : onAlloc A x y a
                = (setAllocObj x y A a,
                   Emit "alloc-recv" (DAllocRecv A x y) A))
    by (by apply onAlloc_free).
  assert (Ha1 : a1 = setAllocObj x y A a) by (unfold a1; by rewrite Hal).
  assert (Hwf1 : well_formed a1)
    by (rewrite Ha1; by apply well_formed_setAllocObj).
  assert (Ho1 : owner_of a1 x y = Some A).
  { rewrite Ha1, owner_of_setAllocObj. by rewrite bool_decide_eq_true_2. }
  assert (Hwf2 : well_formed a2) by (by apply well_formed_run).
  assert (Ho2 : owner_of a2 x y = Some A) by (by apply owner_kept_run).
  split_and!.
  - by rewrite Ha1.
  - by rewrite getAllocObj_owner, Ho1.
  - by rewrite getAllocObj_owner, Ho2.
  - by apply onAlloc_owned.
  - intros sender x' y' Hs Hne. apply onDealloc_not_owner; [done|done|].
    intros Ho. apply Hne. by rewrite getAllocObj_owner, Ho.
  - rewrite onDealloc_owner by done. by rewrite bool_decide_eq_true_2.
  - rewrite getAllocObj_owner, onDealloc_owner by done.
    by rewrite bool_decide_eq_true_2.
  - done.
  - intros x' y'. by apply getAllocObj_null.
Qed.

Lemma grid_exclusive_witness :
  let a2 := grid_run Scenario.grid_later
              (onAlloc (Obj 5) 20 10 (grid_run Scenario.grid_before ∅)).1 in
  getAllocObj 20 10 a2 = Obj 5 ∧
  onAlloc (Obj 6) 20 10 a2
  = (a2, Emit "collide" (DCollide (Obj 6) (Obj 5) 20 10) Undefined).
Proof.
  assert (Hobj : ∀ r, is_object (Obj r)) by (intros r; by exists r).
  destruct (grid_exclusive Scenario.grid_before Scenario.grid_later
              (Obj 5) (Obj 6) 20 10) as (_ & _ & H1 & H2 & _).
  - repeat constructor; apply Hobj.
  - repeat constructor; apply Hobj.
  - apply Hobj.
  - vm_compute. reflexivity.
  - unfold Scenario.grid_later. rewrite !not_elem_of_cons.
    split_and!; try discriminate. apply not_elem_of_nil.
  - split; [exact H1|exact H2].
Defined.

End GridFacts.

(** ** The player: heading queue and length *)
Module SnakeFacts.
Import Snake.

Lemma setHeading_length v s : (setHeading v s).(length) = s.(length).
Proof.
  unfold setHeading. destruct (negb (truthy v)); [done|].
  destruct (bool_decide _); [done|]. destruct v; try done.
  by destruct (if bool_decide _ then _ else _).
Qed.

Lemma setLength_length_ok v s : length_ok s → length_ok (setLength v s).1.1.
Proof.
  intros Hs. unfold setLength.
  set (n := if Base.falsy v || (default 0 v <? MIN_LENGTH) then MIN_LENGTH
            else default 0 v).
  assert (Hn : MIN_LENGTH ≤ n).
  { unfold n. destruct (Base.falsy v); simpl; [lia|].
    destruct (default 0 v <? MIN_LENGTH) eqn:E; [lia|].
    apply Z.ltb_ge in E. done. }
  destruct (Base.falsy (length s)); [done|].
  destruct (_ >? 1); [|done].
  destruct (shiftTail _ _ _) as [[blocks erased] ok]. by destruct ok.
Qed.

Lemma reachable_length_ok s : reachable s → length_ok s.
Proof.
  induction 1 as [ref o random|v s _ IH|s _ IH|v s _ IH|x y s _ IH|u s _ IH
                 |u s _ IH|v random s _ IH].
  - unfold init. unfold length_ok. simpl.
    change (length_ok (setLength (opt_length o)
      (setHeading (if truthy (opt_heading o) then opt_heading o
                   else Num Slither.Headings.Right)
         (Make (Base.Make ref Slither.Snake None [] true false None) None []
            None ∅))).1.1).
    apply setLength_length_ok. unfold length_ok. by rewrite setHeading_length.
  - unfold length_ok. by rewrite setHeading_length.
  - unfold getHeading. by destruct (heading_queue s).
  - by apply setLength_length_ok.
  - unfold onAllocRecv. destruct (if bool_decide _ then _ else _). done.
  - unfold addUpgrade. by destruct (hasUpgrade u s).
  - unfold removeUpgrade. by destruct (hasUpgrade u s).
  - done.
Qed.

Lemma length_ok_getLength s : length_ok s → MIN_LENGTH ≤ getLength s.
Proof.
  unfold length_ok, getLength. destruct (length s) as [n|]; simpl; [|done].
  destruct (n =? 0); [done|]. done.
Qed.

Lemma duplicate_test (h : Z) (s : t) :
  bool_decide (Some (Num h) = Num <$> last s.(heading_queue))
  = bool_decide (last s.(heading_queue) = Some h).
Proof.
  destruct (last (heading_queue s)) as [h'|];
    unfold fmap, option_fmap, option_map;
    apply bool_decide_ext; split; congruence.
Qed.

Lemma setHeading_cases (h : Z) (s : t) :
  setHeading (Num h) s
  = if bool_decide (is_heading h)
       && negb (bool_decide (last s.(heading_queue) = Some h))
       && negb (bool_decide (s.(heading) = Some (reverse h)))
    then queued h s else s.
Proof.
  unfold setHeading. rewrite duplicate_test. simpl.
  destruct (decide (is_heading h)) as [Hh|Hh].
  - rewrite (bool_decide_eq_true_2 _ Hh).
    assert (h = 1 ∨ h = 2 ∨ h = 3 ∨ h = 4) as [-> | [-> | [-> | ->]]]
      by (unfold is_heading in Hh; lia);
      simpl; destruct (bool_decide (last _ = _)); simpl; try done;
      unfold heading_differs; simpl;
      destruct (bool_decide (heading s = _)); done.
  - rewrite (bool_decide_eq_false_2 _ Hh). simpl.
    destruct (h =? 0) eqn:E0; simpl; [done|].
    destruct (bool_decide (last _ = _)); [done|].
    unfold is_heading in Hh.
    rewrite !bool_decide_eq_false_2; [done|..];
      unfold Slither.Headings.Up, Slither.Headings.Down,
        Slither.Headings.Left, Slither.Headings.Right;
      intros [= ->]; lia.
Qed.

(** C3, as stated, fails: with [Right] applied and [Up] queued but not
    yet applied, [setHeading(Down)], the reverse of the queued heading,
    is not rejected: [Down] is appended to the queue. *)
Lemma reverse_of_queued_heading_counterexample :
  let s := setHeading (Num Slither.Headings.Up) Scenario.snake_right in
  s.(heading) = Some Slither.Headings.Right ∧
  s.(heading_queue) = [Slither.Headings.Up] ∧
  setHeading (Num (reverse Slither.Headings.Up)) s ≠ s ∧
  (setHeading (Num (reverse Slither.Headings.Up)) s).(heading_queue)
  = [Slither.Headings.Up; Slither.Headings.Down].
Proof. vm_compute. split_and!; try done. Qed.

(** C3, amended: [setHeading(h)] appends [h] to the queue exactly when
    [h] is one of the four headings, is not the heading queued last, and
    is not the direct reverse of the heading applied last
    ([this.heading]); otherwise it changes nothing.  So [Down] issued
    right after [Up], with [Up] still queued, is accepted whenever the
    applied heading is not [Up]. *)
Theorem setHeading_accepted_iff (h : Z) (s : t) :
  (is_heading h ∧ last s.(heading_queue) ≠ Some h
   ∧ s.(heading) ≠ Some (reverse h) →
   setHeading (Num h) s = queued h s) ∧
  (¬ (is_heading h ∧ last s.(heading_queue) ≠ Some h
      ∧ s.(heading) ≠ Some (reverse h)) →
   setHeading (Num h) s = s) ∧
  (h = Slither.Headings.Down →
   last s.(heading_queue) = Some Slither.Headings.Up →
   s.(heading) ≠ Some Slither.Headings.Up →
   setHeading (Num h) s = queued h s).
Proof.
  rewrite setHeading_cases. split_and!.
  - intros (Hh & Hq & Hr).
    rewrite (bool_decide_eq_true_2 _ Hh), (bool_decide_eq_false_2 _ Hq),
      (bool_decide_eq_false_2 _ Hr). done.
  - intros Hno.
    destruct (bool_decide (is_heading h)) eqn:E1; [|done].
    destruct (bool_decide (last _ = _)) eqn:E2; [done|].
    destruct (bool_decide (heading s = _)) eqn:E3; [done|].
    exfalso. apply Hno. apply bool_decide_eq_true in E1.
    apply bool_decide_eq_false in E2, E3. done.
  - intros -> Hq Hr.
    rewrite bool_decide_eq_true_2 by (unfold is_heading, Slither.Headings.Down; lia).
    rewrite bool_decide_eq_false_2 by (rewrite Hq; discriminate).
    rewrite bool_decide_eq_false_2 by done. done.
Qed.

Lemma setHeading_accepted_iff_witness :
  let s := setHeading (Num Slither.Headings.Up) Scenario.snake_right in
  setHeading (Num Slither.Headings.Down) s = queued Slither.Headings.Down s ∧
  setHeading (Num Slither.Headings.Left) s = s.
Proof.
  split.
  - apply (setHeading_accepted_iff Slither.Headings.Down
             (setHeading (Num Slither.Headings.Up) Scenario.snake_right)).
    + reflexivity.
    + vm_compute. reflexivity.
    + vm_compute. discriminate.
  - apply (setHeading_accepted_iff Slither.Headings.Left
             (setHeading (Num Slither.Headings.Up) Scenario.snake_right)).
    intros (_ & _ & H). apply H. vm_compute. reflexivity.
Defined.

(** C9: [setLength], when it returns, leaves [this.length] at the value
    asked for, or at [MIN_LENGTH = 2] when the value is missing, zero or
    below [2]; [getLength] of a snake that was constructed and then used
    through its methods is never below [2], whatever length is asked for
    next (a growth, or a shrink that throws half-way), and a snake is
    constructed with a length of at least [2] (restart). *)
Theorem snake_length_at_least_min :
  MIN_LENGTH = 2 ∧
  (∀ v s s' erased,
     setLength v s = (s', erased, true) →
     s'.(length)
     = Some (if Base.falsy v || (default 0 v <? MIN_LENGTH)
             then MIN_LENGTH else default 0 v)) ∧
  (∀ s, reachable s → MIN_LENGTH ≤ getLength s) ∧
  (∀ s v, reachable s → MIN_LENGTH ≤ getLength (setLength v s).1.1) ∧
  (∀ ref o random, MIN_LENGTH ≤ getLength (init ref o random)).
Proof.
  split_and!.
  - reflexivity.
  - intros v s s' erased. unfold setLength.
    destruct (Base.falsy (length s)); [by intros [= <- _]|].
    destruct (_ >? 1); [|by intros [= <- _]].
    destruct (shiftTail _ _ _) as [[blocks erased'] ok].
    destruct ok; [by intros [= <- _]|]. intros [=].
  - intros s Hs. by apply length_ok_getLength, reachable_length_ok.
  - intros s v Hs.
    apply length_ok_getLength, reachable_length_ok. by constructor.
  - intros ref o random. apply length_ok_getLength, reachable_length_ok.
    constructor.
Qed.

Lemma snake_length_at_least_min_witness :
  MIN_LENGTH ≤ getLength (setLength (Some 1) Scenario.snake_long).1.1 ∧
  MIN_LENGTH ≤ getLength Scenario.snake_long.
Proof.
  destruct snake_length_at_least_min as (_ & _ & H1 & H2 & _).
  assert (Hr : reachable Scenario.snake_long).
  { unfold Scenario.snake_long, Scenario.snake_right.
    apply (reach_setLength (Some 7)). apply reach_getHeading.
    apply reach_init. }
  split; [apply H2, Hr|apply H1, Hr].
Defined.

End SnakeFacts.

(** ** Numbers *)
Module MathFacts.

Example floor_ceil :
  Math.floor 2.5%float = 2%float ∧ Math.ceil 2.5%float = 3%float ∧
  Math.floor (-2.5)%float = (-3)%float ∧ Math.ceil 7%float = 7%float ∧
  Math.ceil (Math.of_Z 3 * 0.5)%float = 2%float.
Proof. by vm_compute. Qed.

(** In binary64, [0.7 * 10] is exactly [7], [1 - 0.7] is a little more
    than [0.3], and ten times that a little more than [3]. *)
Example bias_products :
  (0.7 * 10 =? 7)%float = true ∧
  (3 <? (1 - 0.7) * 10)%float = true ∧
  Math.floor ((1 - 0.7) * 10)%float = 3%float ∧
  Math.ceil ((1 - 0.7) * 10)%float = 4%float.
Proof. by vm_compute. Qed.

(** The partitions of the second level of the game, for each number of
    objects in its range [10, 13]. *)
Example partition_level_two :
  map (λ n, map Math.to_Z
              (Game.partition 3 [0.35%float; 0.15%float] (Math.of_Z n) 0 3
                 1 0))
    [10; 11; 12; 13]
  = [[3; 1; 6]; [4; 2; 5]; [4; 2; 6]; [5; 2; 6]].
Proof. by vm_compute. Qed.

End MathFacts.

(** ** The scheduler: frame rate and speed levels *)
Module SchedulerFacts.
Import ObjectManager.

(** At speed 1 an object is drawn every sixth frame, at speed 5 every
    frame. *)
Example frames_at_speed_one_and_five :
  let o1 := Base.Make 4 Slither.Mouse (Some 1) [] true false (Some 4) in
  let o5 := Base.Make 4 Slither.Mouse (Some 5) [] true false None in
  handleFrames (Entity o1) = Done (Entity (with_ctr 5 o1), Dropped) ∧
  handleFrames (Entity (with_ctr 5 o1)) = Done (Entity (with_ctr 0 o1), Drawn) ∧
  handleFrames (Entity o5) = Done (Entity o5, Drawn).
Proof. by vm_compute. Qed.

Lemma genNumber_range low high random :
  low ≤ high → (0 <= random)%Q → (random < 1)%Q →
  low ≤ Slither.genNumber low high random ≤ high.
Proof.
  intros Hlh H0 H1. unfold Slither.genNumber.
  destruct (low =? high) eqn:E; [apply Z.eqb_eq in E; lia|].
  set (n := high - low + 1).
  assert (Hn : (0 < inject_Z n)%Q).
  { replace 0%Q with (inject_Z 0) by done. rewrite <- Zlt_Qlt. unfold n. lia. }
  assert (Hlo : 0 ≤ Qfloor (random * inject_Z n)).
  { change 0 with (Qfloor (inject_Z 0)). apply Qfloor_resp_le.
    apply Qmult_le_0_compat; [done|]. by apply Qlt_le_weak. }
  assert (Hhi : Qfloor (random * inject_Z n) < n).
  { rewrite Zlt_Qlt. eapply Qle_lt_trans; [apply Qfloor_le|].
    rewrite <- (Qmult_1_l (inject_Z n)) at 2.
    apply Qmult_lt_compat_r; done. }
  unfold n in *. lia.
Qed.

Lemma clampSpeed_range arg random :
  (0 <= random)%Q → (random < 1)%Q →
  Slither.SpeedLevels.Min ≤ Base.clampSpeed arg random
  ≤ Slither.SpeedLevels.Max.
Proof.
  intros H0 H1. unfold Base.clampSpeed.
  unfold Slither.SpeedLevels.Min, Slither.SpeedLevels.Max.
  destruct arg as [n| |].
  - destruct (n =? 0) eqn:E0; simpl; [lia|].
    destruct (n <? 1) eqn:E1; [lia|]. apply Z.ltb_ge in E1.
    destruct (n >? 5) eqn:E5; [lia|]. lia.
  - by apply genNumber_range.
  - lia.
Qed.

Lemma getSpeed_setSpeed arg random o :
  (0 <= random)%Q → (random < 1)%Q →
  Slither.SpeedLevels.Min ≤ Base.getSpeed (Base.setSpeed arg random o)
  ≤ Slither.SpeedLevels.Max.
Proof.
  intros H0 H1. pose proof (clampSpeed_range arg random H0 H1) as Hc.
  unfold Base.getSpeed, Base.setSpeed. simpl.
  unfold Slither.SpeedLevels.Min, Slither.SpeedLevels.Max in *.
  destruct (Base.clampSpeed arg random =? 0) eqn:E; [lia|]. lia.
Qed.

Lemma handleFramesAt_threw frame_rate max_speed o :
  handleFramesAt frame_rate max_speed (Entity o) = Threw ↔
  frame_rate
  ≤ Z.abs (Math.round_div frame_rate max_speed * Base.getSpeed o - frame_rate).
Proof.
  unfold handleFramesAt, frame_diff.
  destruct (Z.abs _ >=? frame_rate) eqn:E.
  - split; [|done]. intros _. apply Z.geb_le in E. lia.
  - split.
    + destruct (_ <? 0); [|done]. by destruct (_ <=? _).
    + intros H. rewrite Z.geb_leb in E. apply Z.leb_gt in E. lia.
Qed.

(** C8: [handleFrames] throws its frame-rate error exactly when
    [|round(FRAME_RATE / SpeedLevels.Max) * speed - FRAME_RATE|] is at
    least [FRAME_RATE]; with [FRAME_RATE = 40] and speed levels from 1 to
    5, it never throws for an object whose speed lies in [1, 5], as the
    speed of every object does once [setSpeed] has clamped it. *)
Theorem frame_rate_error_unreachable :
  (∀ frame_rate max_speed o,
     handleFramesAt frame_rate max_speed (Entity o) = Threw ↔
     frame_rate
     ≤ Z.abs (Math.round_div frame_rate max_speed * Base.getSpeed o
              - frame_rate)) ∧
  (∀ frame_rate max_speed r,
     handleFramesAt frame_rate max_speed (Plain r) ≠ Threw) ∧
  Slither.FRAME_RATE = 40 ∧
  Slither.SpeedLevels.Min = 1 ∧ Slither.SpeedLevels.Max = 5 ∧
  (∀ o, 1 ≤ Base.getSpeed o ≤ 5 → handleFrames (Entity o) ≠ Threw) ∧
  (∀ arg random o,
     (0 <= random)%Q → (random < 1)%Q →
     1 ≤ Base.getSpeed (Base.setSpeed arg random o) ≤ 5 ∧
     handleFrames (Entity (Base.setSpeed arg random o)) ≠ Threw).
Proof.
  assert (Hsafe : ∀ o, 1 ≤ Base.getSpeed o ≤ 5 →
                       handleFrames (Entity o) ≠ Threw).
  { intros o Hs. unfold handleFrames. rewrite handleFramesAt_threw.
    change (Math.round_div Slither.FRAME_RATE Slither.SpeedLevels.Max) with 8.
    unfold Slither.FRAME_RATE. lia. }
  split_and!; try done.
  - apply handleFramesAt_threw.
  - intros arg random o H0 H1.
    pose proof (getSpeed_setSpeed arg random o H0 H1) as Hr.
    unfold Slither.SpeedLevels.Min, Slither.SpeedLevels.Max in Hr.
    split; [done|]. by apply Hsafe.
Qed.

Lemma frame_rate_error_unreachable_witness :
  handleFrames (Entity (Base.setSpeed (Slither.SpeedNum 9) (1 # 2)
                          (Base.Make 4 Slither.Mouse None [] false false
                             None)))
  ≠ Threw.
Proof.
  destruct frame_rate_error_unreachable as (_ & _ & _ & _ & _ & _ & H).
  apply (H (Slither.SpeedNum 9) (1 # 2)
           (Base.Make 4 Slither.Mouse None [] false false None)).
  - vm_compute. discriminate.
  - vm_compute. reflexivity.
Defined.

End SchedulerFacts.

(** ** The game: start, pause, end *)
Module LifecycleFacts.
Import Game.

Lemma set_finished_same g : g.(finished) = true → set_finished true g = g.
Proof. destruct g. simpl. by intros ->. Qed.

Lemma pause_not_started g : g.(started) = false → pause g = g.
Proof. unfold pause. by intros ->. Qed.

Lemma pause_finished g : g.(finished) = true → pause g = g.
Proof. unfold pause. intros ->. by rewrite andb_false_r. Qed.

Lemma end_finished g : g.(finished) = true → end_ g = g.
Proof.
  intros H. unfold end_. destruct (started g); [|done].
  rewrite pause_finished by done. by apply set_finished_same.
Qed.

Lemma end_running g :
  g.(started) = true → g.(finished) = false → g.(player_dead) = false →
  (end_ g).(finished) = true ∧ (end_ g).(started) = false ∧
  (end_ g).(object_man).(ObjectManager.started) = false.
Proof. unfold end_, pause. intros -> -> ->. done. Qed.

Section Engine.

Variable random : nat → Q.
Variable trigger : string → value → data → value → t → t.
Variable clear : nat → t → t.
Variable level_code : Z → bool → t → t.
Variable freezeRats : bool → t → t.
Variable animate : t → t.

Local Abbreviation start :=
  (Game.start random trigger clear level_code freezeRats animate).
Local Abbreviation run_api :=
  (Game.run_api random trigger clear level_code freezeRats animate).

Lemma start_finished fuel g : g.(finished) = true → start fuel g = Done g.
Proof.
  intros H. destruct fuel; simpl; rewrite H;
    by rewrite andb_false_r.
Qed.

Lemma setSpeed_flags speed g :
  (setSpeed speed g).(finished) = g.(finished) ∧
  (setSpeed speed g).(started) = g.(started) ∧
  (setSpeed speed g).(object_man) = g.(object_man).
Proof. unfold setSpeed. simpl. by destruct (snake g). Qed.

Lemma run_api_finished calls fuel g :
  g.(finished) = true →
  ∃ g', run_api fuel calls g = Done g' ∧ g'.(finished) = true ∧
        g'.(started) = g.(started) ∧ g'.(object_man) = g.(object_man).
Proof.
  revert g. induction calls as [|c calls IH]; intros g Hfin; simpl.
  - by exists g.
  - destruct c as [| | |speed].
    + rewrite start_finished by done. by apply IH.
    + rewrite pause_finished by done. by apply IH.
    + rewrite end_finished by done. by apply IH.
    + destruct (setSpeed_flags speed g) as (Hf & Hs & Ho).
      destruct (IH (setSpeed speed g)) as (g' & Hrun & Hf' & Hs' & Ho');
        [congruence|].
      exists g'. split_and!; congruence.
Qed.


End Engine.



End LifecycleFacts.

(** ** The game: eating *)
Module EatFacts.
Import Game.

Lemma view_set_object_man m g : view (set_object_man m g) = view g.
Proof. done. Qed.

Lemma view_end g : view (end_ g) = view g.
Proof.
  unfold end_, pause.
  by destruct (started g), (finished g), (player_dead g).
Qed.

Lemma setLength_grow s k :
  Snake.MIN_LENGTH ≤ Snake.getLength s → 0 ≤ k →
  Snake.setLength (Some (Snake.getLength s + k)) s
  = (Snake.with_length (Snake.getLength s + k) s, [], true).
Proof.
  unfold Snake.MIN_LENGTH. intros Hn Hk. unfold Snake.setLength.
  assert (Hv : (if Base.falsy (Some (Snake.getLength s + k))
                   || (default 0 (Some (Snake.getLength s + k))
                       <? Snake.MIN_LENGTH)
                then Snake.MIN_LENGTH
                else default 0 (Some (Snake.getLength s + k)))
               = Snake.getLength s + k).
  { unfold Base.falsy, Snake.MIN_LENGTH. simpl.
    destruct (Snake.getLength s + k =? 0) eqn:E0; [lia|].
    destruct (Snake.getLength s + k <? 2) eqn:E2; [lia|]. done. }
  rewrite Hv.
  destruct (Base.falsy (Snake.length s)) eqn:Ef; [done|].
  assert (Hlen : default 0 (Snake.length s) = Snake.getLength s)
    by (unfold Snake.getLength; by rewrite Ef).
  rewrite Hlen.
  destruct (Snake.getLength s - (Snake.getLength s + k) >? 1) eqn:Ed; [lia|].
  done.
Qed.

Lemma getLength_with_length n s :
  n ≠ 0 → Snake.getLength (Snake.with_length n s) = n.
Proof.
  intros Hn. unfold Snake.getLength, Snake.with_length. simpl.
  destruct (n =? 0) eqn:E; [lia|done].
Qed.

Section Engine.

Variable trigger : string → value → data → value → t → t.
Variable clear : nat → t → t.

Hypothesis trigger_view :
  ∀ event_type sender d target_only g,
    view (trigger event_type sender d target_only g) = view g.
Hypothesis clear_view : ∀ obj g, view (clear obj g) = view g.

Lemma view_remove obj g : view (object_man_remove clear obj g) = view g.
Proof.
  unfold object_man_remove. destruct (_ =? -1); [done|].
  by rewrite view_set_object_man, clear_view.
Qed.


End Engine.

(** The engine of [Scenario] leaves the player's speed and length and
    the score as they are. *)
Lemma view_heap_insert r s s' g :
  g.(heap) !! r = Some s →
  Snake.getLength s' = Snake.getLength s →
  Base.getSpeed s'.(Snake.base) = Base.getSpeed s.(Snake.base) →
  view (set_heap (<[r := s']> g.(heap)) g) = view g.
Proof.
  intros Hr Hl Hs. unfold view, getSpeed, player_length, player. simpl.
  destruct (snake g) as [r0|]; [|done]. simpl.
  destruct (decide (r = r0)) as [<-|Hne].
  - rewrite lookup_insert_eq, Hr. simpl. by rewrite Hl, Hs.
  - by rewrite lookup_insert_ne.
Qed.

Lemma view_set_alloc a g : view (set_alloc a g) = view g.
Proof. done. Qed.

Lemma grid_trigger_view event_type sender d target_only g :
  view (Scenario.grid_trigger event_type sender d target_only g) = view g.
Proof.
  unfold Scenario.grid_trigger. destruct d; try done.
  destruct (bool_decide _); [|done].
  destruct (onAlloc sender x y (alloc g)) as [a e].
  destruct (payload e); try done. destruct sender; try done.
  change (heap (set_alloc a g)) with (heap g).
  destruct (heap g !! ref) as [s|] eqn:Hr; [|done].
  destruct (Snake.onAllocRecv x y s) as [s' erased] eqn:Hrecv.
  rewrite view_set_alloc.
  change (heap (set_alloc a g)) with (heap g).
  change (view (set_heap (<[ref:=s']> (heap g)) (set_alloc a g)))
    with (view (set_heap (<[ref:=s']> (heap g)) g)).
  apply (view_heap_insert ref s s' g Hr).
  - unfold Snake.onAllocRecv in Hrecv.
    destruct (if bool_decide _ then _ else _) in Hrecv.
    by injection Hrecv as <- _.
  - unfold Snake.onAllocRecv in Hrecv.
    destruct (if bool_decide _ then _ else _) in Hrecv.
    by injection Hrecv as <- _.
Qed.

Lemma grid_clear_view obj g : view (Scenario.grid_clear obj g) = view g.
Proof.
  unfold Scenario.grid_clear.
  destruct (heap g !! obj) as [s|] eqn:Hr; [|done].
  rewrite view_set_alloc. by apply (view_heap_insert obj s).
Qed.


End EatFacts.

(** ** The game: generation of the objects of a level *)
Module LevelFacts.
Import Game.

Lemma runs_S count j n :
  runs count j (S n) →
  (Math.of_Z j <? count)%float = true ∧ runs count (j + 1) n.
Proof.
  intros [Hlt Hge]. split; [|split].
  - specialize (Hlt 0%nat). rewrite Z.add_0_r in Hlt. apply Hlt. lia.
  - intros i Hi. specialize (Hlt (S i)).
    replace (j + 1 + Z.of_nat i) with (j + Z.of_nat (S i)) by lia.
    apply Hlt. lia.
  - replace (j + 1 + Z.of_nat n) with (j + Z.of_nat (S n)) by lia. done.
Qed.

Lemma runs_0 count j :
  runs count j 0 → (Math.of_Z j <? count)%float = false.
Proof. intros [_ H]. by rewrite Z.add_0_r in H. Qed.

Lemma runs_7 : runs 7 0 7.
Proof.
  split; [|by vm_compute]. intros i Hi.
  do 7 (destruct i as [|i]; [by vm_compute|]). lia.
Qed.

Lemma runs_3 : runs 3 0 3.
Proof.
  split; [|by vm_compute]. intros i Hi.
  do 3 (destruct i as [|i]; [by vm_compute|]). lia.
Qed.

Section Engine.

Variable random : nat → Q.
Variable construct :
  Slither.class → gmap string value → Z → Z → nat → t → t.

Local Abbreviation place := (Game.place random).
Local Abbreviation generate := (Game.generate random construct).
Local Abbreviation generate_all := (Game.generate_all random construct).
Local Abbreviation genObjects := (Game.genObjects random construct).
Local Abbreviation spawned := (Game.spawned construct).
Local Abbreviation placeable := (Game.placeable random construct).

Lemma generate_types n :
  ∀ fuel tries c options count j g infos g' infos',
    runs count j n →
    generate fuel tries c options count j g infos = Done (g', infos') →
    map type infos' = map type infos ++ replicate n c.
Proof.
  induction n as [|n IH]; intros fuel tries c options count j g infos g' infos' Hr H.
  - apply runs_0 in Hr. destruct fuel as [|fuel]; simpl in H; [done|].
    rewrite Hr in H. injection H as _ <-. simpl. by rewrite app_nil_r.
  - apply runs_S in Hr as [Hlt Hr]. destruct fuel as [|fuel]; simpl in H; [done|].
    rewrite Hlt in H.
    destruct (place tries g) as [[[x y] g1]| |]; [|done..].
    apply (IH _ _ _ _ _ _ _ _ _ _ Hr) in H. rewrite H, map_app. simpl.
    by rewrite <- app_assoc.
Qed.

Lemma generate_done tries I (HI : placeable tries I) n :
  ∀ fuel c options count j g infos m,
    runs count j n → (n < fuel)%nat → I (n + m)%nat g →
    ∃ g' infos',
      generate fuel tries c options count j g infos = Done (g', infos') ∧
      I m g'.
Proof.
  induction n as [|n IH]; intros fuel c options count j g infos m Hr Hf Hg.
  - apply runs_0 in Hr. destruct fuel as [|fuel]; [lia|]. simpl.
    rewrite Hr. by exists g, infos.
  - apply runs_S in Hr as [Hlt Hr]. destruct fuel as [|fuel]; [lia|]. simpl.
    rewrite Hlt. destruct (HI (n + m)%nat g Hg) as (x & y & g1 & Hp & Hnext).
    rewrite Hp. apply IH; [done|lia|]. apply Hnext.
Qed.


End Engine.

Lemma scenario_placeable :
  placeable Scenario.quiet_random Scenario.alloc_construct 1
    Scenario.scenario_inv.
Proof.
  intros n g (Hn & Hb & Hr & Hnr & Ha).
  assert (Hcases : (n < 10)%nat) by lia.
  destruct g as [a b sc li sp pl st fi pd sn he om lm nr rg].
  simpl in Hb, Hr, Hnr, Ha. subst a b rg nr.
  do 10 (destruct n as [|n];
         [eexists _, _, _; split; [vm_compute; reflexivity|];
          intros c options; split_and!;
            [lia|reflexivity|reflexivity|reflexivity|
             vm_compute; reflexivity]|]).
  lia.
Qed.


End LevelFacts.

(** * Further properties of the sources *)

(** ** The event bus: undoing, invariants and targeted dispatch *)
Module BusFacts.
Import EventManager.

Lemma searchFrom_app_found i hs h cb ow :
  Forall (λ h', ¬ matches cb ow h') hs → matches cb ow h →
  ∀ post, searchFrom i (hs ++ h :: post) cb ow = i + Z.of_nat (length hs).
Proof.
  intros Hhs Hh post. revert i.
  induction Hhs as [|h' hs Hh' _ IH]; intros i; simpl.
  - unfold matches in Hh. destruct (truthy ow).
    + destruct Hh as [-> ->]. rewrite !bool_decide_eq_true_2 by done. simpl. lia.
    + rewrite bool_decide_eq_true_2 by done. lia.
  - unfold matches in Hh'. destruct (truthy ow).
    + destruct (decide (callback h' = cb)) as [E1|E1];
        destruct (decide (owner h' = ow)) as [E2|E2];
        rewrite ?(bool_decide_eq_true_2 _ E1), ?(bool_decide_eq_true_2 _ E2),
          ?(bool_decide_eq_false_2 _ E1), ?(bool_decide_eq_false_2 _ E2);
        simpl; try (rewrite IH; lia). tauto.
    + rewrite bool_decide_eq_false_2 by done. rewrite IH. lia.
Qed.

Lemma splice1_app {A} (pre : list A) h post :
  splice1 (length pre) (pre ++ h :: post) = pre ++ post.
Proof.
  unfold splice1. rewrite take_app_length.
  replace (S (length pre)) with (length (pre ++ [h])) by (rewrite length_app; simpl; lia).
  rewrite (assoc_L (++) pre [h] post : pre ++ h :: post = (pre ++ [h]) ++ post).
  by rewrite drop_app_length.
Qed.

(** What [unregister] does when the handler searched for is in the list. *)
Lemma unregister_found event_type f ow ev pre h post :
  ev !! event_type = Some (pre ++ h :: post) →
  Forall (λ h', ¬ matches (Fun f) ow h') pre → matches (Fun f) ow h →
  unregister event_type (Fun f) ow ev
  = (if decide (pre ++ post = []) then delete event_type ev
     else <[event_type := pre ++ post]> ev, true).
Proof.
  intros Hev Hpre Hh. unfold unregister. simpl. rewrite Hev. simpl.
  rewrite (searchFrom_app_found 0 pre h) by done.
  replace (0 + Z.of_nat (length pre) =? -1) with false by (symmetry; apply Z.eqb_neq; lia).
  simpl. replace (Z.to_nat (0 + Z.of_nat (length pre))) with (length pre) by lia.
  rewrite splice1_app.
  destruct (decide (pre ++ post = [])) as [E|E].
  - rewrite E. simpl. unfold clear. rewrite lookup_insert_eq. simpl.
    by rewrite delete_insert_eq.
  - destruct (pre ++ post) eqn:E'; [done|]. simpl. done.
Qed.

Lemma register_false event_type cb ow ev ev1 :
  register event_type cb ow ev = (ev1, false) → ev1 = ev.
Proof.
  unfold register, searchForCallback.
  destruct (negb (is_function cb)); [congruence|].
  destruct (ev !! event_type) as [hs|] eqn:Hev; simpl.
  - rewrite Hev. simpl. destruct (_ =? -1); congruence.
  - rewrite lookup_insert_eq. simpl. congruence.
Qed.

Lemma matches_registered cb ow :
  matches cb ow (Handler cb (if truthy ow then ow else Undefined)).
Proof. unfold matches. destruct (truthy ow) eqn:E; simpl; by rewrite ?E. Qed.

(** Undoing a registration. *)
Lemma unregister_appended event_type f ow ev hs :
  ev !! event_type ≠ Some [] →
  hs = default [] (ev !! event_type) →
  Forall (λ h, ¬ matches (Fun f) ow h) hs →
  unregister event_type (Fun f) ow
    (<[event_type :=
         hs ++ [Handler (Fun f) (if truthy ow then ow else Undefined)]]> ev)
  = (ev, true).
Proof.
  intros Hne Hhs Hno.
  rewrite (unregister_found event_type f ow _ hs
             (Handler (Fun f) (if truthy ow then ow else Undefined)) []);
    [|by rewrite lookup_insert_eq|done|apply matches_registered].
  rewrite app_nil_r. f_equal.
  destruct (decide (hs = [])) as [E|E].
  - rewrite delete_insert_eq. apply delete_id.
    destruct (ev !! event_type) as [hs'|] eqn:Hev; [|done].
    simpl in Hhs. subst. done.
  - rewrite insert_insert_eq. apply insert_id.
    destruct (ev !! event_type) as [hs'|] eqn:Hev; simpl in Hhs; by subst.
Qed.

Lemma register_unregister event_type cb ow ev ev1 :
  ev !! event_type ≠ Some [] →
  register event_type cb ow ev = (ev1, true) →
  unregister event_type cb ow ev1 = (ev, true).
Proof.
  intros Hne Hreg.
  destruct (EventManagerFacts.register_true _ _ _ _ _ Hreg)
    as (f & hs & -> & Hhs & Hno & ->).
  by apply unregister_appended.
Qed.

(** [unregister] touches the list of its event type only. *)
Lemma unregister_insert_ne t1 t2 cb ow x ev :
  t1 ≠ t2 →
  unregister t1 cb ow (<[t2 := x]> ev)
  = (<[t2 := x]> (unregister t1 cb ow ev).1, (unregister t1 cb ow ev).2).
Proof.
  intros Hne. unfold unregister. destruct (negb (is_function cb)); [done|].
  rewrite lookup_insert_ne by done.
  destruct (ev !! t1) as [hs|] eqn:E; [|done].
  destruct (negb (_ =? -1)); [|done].
  destruct (length _ =? 0)%nat; simpl.
  - unfold clear. rewrite !lookup_insert_eq. simpl.
    rewrite !delete_insert_eq. by rewrite delete_insert_ne.
  - by rewrite insert_insert_ne.
Qed.

(** X1: undoing a registration.  When [register] has added a handler,
    [unregister] with the same event type, callback and owner returns
    [true] and leaves the table exactly as it was before the
    registration; an event type that had no handler before is deleted
    again. *)
Theorem register_then_unregister (event_type : string) (cb ow : value)
    (ev ev1 : events) :
  ev !! event_type ≠ Some [] →
  register event_type cb ow ev = (ev1, true) →
  unregister event_type cb ow ev1 = (ev, true).
Proof. apply register_unregister. Qed.

Lemma register_then_unregister_witness :
  ∃ ev1,
    register "tick" (Fun 2) (Obj 7) Scenario.bus_veto = (ev1, true) ∧
    unregister "tick" (Fun 2) (Obj 7) ev1 = (Scenario.bus_veto, true).
Proof.
  eexists. split; [reflexivity|].
  apply (register_then_unregister "tick" (Fun 2) (Obj 7) Scenario.bus_veto);
    [by vm_compute|reflexivity].
Defined.

Lemma splice1_sublist {A} n (l : list A) : splice1 n l `sublist_of` l.
Proof.
  unfold splice1. rewrite <- (take_drop n l) at 3.
  apply sublist_app; [done|].
  rewrite <- (Nat.add_1_l n), Nat.add_comm, <- drop_drop.
  apply sublist_drop.
Qed.

Lemma tidy_empty : tidy ∅.
Proof. intros t hs H. by rewrite lookup_empty in H. Qed.

Lemma not_matches_not_in cb ow hs :
  Forall (λ h, ¬ matches cb ow h) hs →
  Handler cb (if truthy ow then ow else Undefined) ∉ hs.
Proof.
  intros H Hin. rewrite Forall_forall in H. apply (H _ Hin).
  apply matches_registered.
Qed.

Lemma tidy_register event_type cb ow ev :
  tidy ev → tidy (register event_type cb ow ev).1.
Proof.
  intros Hev. destruct (register event_type cb ow ev) as [ev1 [|]] eqn:Hreg.
  - destruct (EventManagerFacts.register_true _ _ _ _ _ Hreg)
      as (f & hs & -> & Hhs & Hno & ->).
    simpl. intros t hs' Ht. destruct (decide (t = event_type)) as [->|Hne].
    + rewrite lookup_insert_eq in Ht. injection Ht as <-. split.
      * by destruct hs.
      * apply NoDup_app. split_and!.
        -- destruct (ev !! event_type) as [hs0|] eqn:E; simpl in Hhs; subst;
             [by apply (Hev _ _ E)|constructor].
        -- intros h Hin Hin'. apply list_elem_of_singleton in Hin'. subst h.
           by apply (not_matches_not_in (Fun f) ow hs).
        -- apply NoDup_singleton.
    + rewrite lookup_insert_ne in Ht by done. exact (Hev _ _ Ht).
  - apply register_false in Hreg. by subst.
Qed.

Lemma tidy_clear event_type ev : tidy ev → tidy (clear event_type ev).1.
Proof.
  intros Hev. unfold clear. destruct (ev !! event_type); [|done].
  simpl. intros t hs Ht. apply lookup_delete_Some in Ht as [_ Ht]. exact (Hev _ _ Ht).
Qed.

Lemma tidy_unregister event_type cb ow ev :
  tidy ev → tidy (unregister event_type cb ow ev).1.
Proof.
  intros Hev. unfold unregister. destruct (negb (is_function cb)); [done|].
  destruct (ev !! event_type) as [hs|] eqn:E; [|done].
  destruct (negb (_ =? -1)); [|done].
  set (hs' := splice1 _ hs).
  assert (Hnd : NoDup hs').
  { unfold hs', splice1. destruct (Hev _ _ E) as [_ Hnd].
    exact (sublist_NoDup _ hs Hnd (splice1_sublist _ hs)). }
  destruct (length hs' =? 0)%nat eqn:El; simpl.
  - unfold clear. rewrite lookup_insert_eq. simpl.
    intros t hs0 Ht. apply lookup_delete_Some in Ht as [Hne Ht].
    rewrite lookup_insert_ne in Ht by done. exact (Hev _ _ Ht).
  - intros t hs0 Ht. destruct (decide (t = event_type)) as [->|Hne].
    + rewrite lookup_insert_eq in Ht. injection Ht as <-. split; [|done].
      intros E0. rewrite E0 in El. done.
    + rewrite lookup_insert_ne in Ht by done. exact (Hev _ _ Ht).
Qed.

Lemma tidy_step ev c : tidy ev → tidy (call_step ev c).
Proof.
  intros Hev. destruct c; simpl.
  - by apply tidy_register.
  - by apply tidy_unregister.
  - by apply tidy_clear.
  - apply tidy_empty.
Qed.

Lemma tidy_run calls ev : tidy ev → tidy (call_run calls ev).
Proof.
  revert ev. induction calls as [|c calls IH]; intros ev Hev; [done|].
  simpl. apply IH. by apply tidy_step.
Qed.

(** X2: whichever calls of [register], [unregister], [clear] and
    [clearAll] are made on the empty table, no event type is left with
    an empty list of handlers, and no list holds the same pair of
    callback and owner twice. *)
Theorem handler_table_stays_tidy (calls : list call) (event_type : string)
    (hs : list handler) :
  call_run calls ∅ !! event_type = Some hs → hs ≠ [] ∧ NoDup hs.
Proof. apply (tidy_run calls ∅ tidy_empty). Qed.

Lemma handler_table_stays_tidy_witness :
  let calls :=
    [CallRegister "tick" (Fun 3) (Obj 5); CallRegister "tick" (Fun 3) (Obj 6);
     CallRegister "tick" (Fun 3) (Obj 5); CallUnregister "tick" (Fun 3) Undefined]
  in
  call_run calls ∅ !! "tick" = Some [Handler (Fun 3) (Obj 6)] ∧
  NoDup [Handler (Fun 3) (Obj 6)].
Proof.
  intros calls. split; [reflexivity|].
  apply (handler_table_stays_tidy calls "tick"). reflexivity.
Defined.

(** X3: [unregister] without an owner removes the first handler of the
    list that has the callback, whatever owner that handler was
    registered with, and deletes the event type when it was the last
    handler. *)
Theorem unregister_without_owner_takes_first (event_type : string) (f : nat)
    (ow : value) (pre post : list handler) (h : handler) (ev : events) :
  truthy ow = false →
  ev !! event_type = Some (pre ++ h :: post) →
  h.(callback) = Fun f →
  Forall (λ h', h'.(callback) ≠ Fun f) pre →
  unregister event_type (Fun f) ow ev
  = (if decide (pre ++ post = []) then delete event_type ev
     else <[event_type := pre ++ post]> ev, true).
Proof.
  intros Ho Hev Hh Hpre. apply (unregister_found event_type f ow ev pre h post Hev).
  - eapply Forall_impl; [exact Hpre|]. intros h' Hh'. unfold matches. by rewrite Ho.
  - unfold matches. by rewrite Ho.
Qed.

Lemma unregister_without_owner_takes_first_witness :
  unregister "tick" (Fun 2) Undefined Scenario.bus_three
  = (<["tick" := [Handler (Fun 3) (Obj 5); Handler (Fun 1) Undefined]]>
       Scenario.bus_three, true).
Proof.
  apply (unregister_without_owner_takes_first "tick" 2 Undefined
           [Handler (Fun 3) (Obj 5); Handler (Fun 1) Undefined] []
           (Handler (Fun 2) (Obj 7)) Scenario.bus_three);
    [reflexivity|reflexivity|reflexivity|].
  repeat constructor; simpl; congruence.
Defined.

Section Dispatch.

Variable run : nat → value → value → value → events → events * value.

Lemma trigger_loop_target fuel event_type sender data target_only :
  truthy target_only = true →
  ∀ i ev fired ev' fired',
    Forall (λ h, h.(owner) = target_only) fired →
    trigger_loop run fuel event_type sender data target_only i ev fired
    = Done (ev', fired') →
    Forall (λ h, h.(owner) = target_only) fired'.
Proof.
  intros Ht. induction fuel as [|fuel IH]; intros i ev fired ev' fired' Hf H;
    simpl in H; [done|].
  destruct (ev !! event_type) as [hs|]; [|done].
  destruct (hs !! i) as [h|]; [|by injection H as <- <-].
  rewrite Ht in H. simpl in H.
  destruct (decide (target_only = owner h)) as [E|E].
  - rewrite (bool_decide_eq_true_2 _ E) in H. simpl in H.
    destruct (callback h); try (by eapply IH).
    destruct (run _ _ _ _ _) as [ev1 res].
    assert (Hf' : Forall (λ h0, owner h0 = target_only) (fired ++ [h])).
    { apply Forall_app. split; [done|]. by repeat constructor. }
    destruct (bool_decide (res = Bool false)).
    + by injection H as <- <-.
    + by eapply IH.
  - rewrite (bool_decide_eq_false_2 _ E) in H. simpl in H. by eapply IH.
Qed.

(** X4: a [trigger] restricted to a target invokes only handlers whose
    owner is the target, also when the callbacks register and unregister
    handlers while the event is dispatched. *)
Theorem trigger_fires_only_the_target (fuel : nat) (event_type : string)
    (sender data target_only : value) (ev ev' : events)
    (fired : list handler) :
  truthy target_only = true →
  trigger run fuel event_type sender data target_only ev = Done (ev', fired) →
  Forall (λ h, h.(owner) = target_only) fired.
Proof.
  intros Ht H. unfold trigger in H.
  destruct (ev !! event_type); [|by injection H as <- <-].
  by eapply (trigger_loop_target fuel event_type sender data target_only Ht 0 ev []).
Qed.

(** X5: when the first handler of an event type is invoked, leaves the
    event type without a list of handlers (it clears the type, or
    unregisters its last handler) and does not return [false], the loop
    of [trigger] reads the length of a list that is gone: [trigger]
    throws. *)
Theorem trigger_throws_when_topic_is_removed (fuel : nat)
    (event_type : string) (sender data target_only : value) (ev : events)
    (h : handler) (rest : list handler) (f : nat) :
  ev !! event_type = Some (h :: rest) →
  filtered target_only h = false →
  h.(callback) = Fun f →
  let call :=
    run f (if truthy h.(owner) then h.(owner) else Undefined) sender data ev in
  call.1 !! event_type = None →
  call.2 ≠ Bool false →
  trigger run (S (S fuel)) event_type sender data target_only ev = Threw.
Proof.
  intros Hev Hf Hc call Hgone Hres. unfold trigger. rewrite Hev.
  simpl. rewrite Hev. simpl.
  unfold filtered in Hf. rewrite Hf, Hc.
  fold call. destruct call as [ev1 res]. simpl in *.
  rewrite bool_decide_eq_false_2 by done. by rewrite Hgone.
Qed.

End Dispatch.

Lemma trigger_fires_only_the_target_witness :
  trigger Scenario.run_veto 10 "tick" Undefined Undefined (Obj 7)
    Scenario.bus_three
  = Done (Scenario.bus_three, [Handler (Fun 2) (Obj 7)]) ∧
  Forall (λ h, h.(owner) = Obj 7) [Handler (Fun 2) (Obj 7)].
Proof.
  split; [reflexivity|].
  apply (trigger_fires_only_the_target Scenario.run_veto 10 "tick" Undefined
           Undefined (Obj 7) Scenario.bus_three Scenario.bus_three);
    reflexivity.
Defined.

Lemma trigger_throws_when_topic_is_removed_witness :
  trigger Scenario.run_leave 2 "tick" Undefined Undefined Undefined
    Scenario.bus_veto = Threw.
Proof.
  apply (trigger_throws_when_topic_is_removed Scenario.run_leave 0 "tick"
           Undefined Undefined Undefined Scenario.bus_veto
           (Handler (Fun 1) Undefined) [] 1);
    [reflexivity|reflexivity|reflexivity|reflexivity|simpl; congruence].
Defined.

(** X6: the two registrations the constructor of a game object makes
    are undone by the two [unregister] calls of its [clear()]: on a tidy
    table, the table after both is the table before the object was
    constructed. *)
Theorem subscribe_then_unsubscribe (this onCollide onAllocRecv : nat)
    (ev ev1 : events) :
  tidy ev →
  Base.subscribe this onCollide onAllocRecv ev = Done ev1 →
  Base.unsubscribe this onCollide onAllocRecv ev1 = ev.
Proof.
  intros Hev. unfold Base.subscribe, Base.unsubscribe.
  destruct (register "collide" _ _ ev) as [evc [|]] eqn:Hc; [|done]. simpl.
  destruct (register "alloc-recv" _ _ evc) as [ev2 [|]] eqn:Ha; [|done]. simpl.
  intros [= <-].
  destruct (EventManagerFacts.register_true _ _ _ _ _ Hc)
    as (f & hsc & [= <-] & Hhsc & Hnoc & ->).
  destruct (EventManagerFacts.register_true _ _ _ _ _ Ha)
    as (f' & hsa & [= <-] & Hhsa & Hnoa & ->).
  rewrite lookup_insert_ne in Hhsa by done.
  assert (Hnil : ∀ t, ev !! t ≠ Some []).
  { intros t E. by destruct (Hev _ _ E). }
  rewrite unregister_insert_ne by done.
  rewrite unregister_appended by done. simpl.
  by rewrite unregister_appended.
Qed.

Lemma subscribe_then_unsubscribe_witness :
  ∃ ev1,
    Base.subscribe 5 11 12 Scenario.bus_three = Done ev1 ∧
    Base.unsubscribe 5 11 12 ev1 = Scenario.bus_three.
Proof.
  eexists. split; [reflexivity|].
  apply (subscribe_then_unsubscribe 5 11 12 Scenario.bus_three);
    [|reflexivity].
  apply (tidy_run
           [CallRegister "tick" (Fun 3) (Obj 5);
            CallRegister "tick" (Fun 1) Undefined;
            CallRegister "tick" (Fun 2) (Obj 7)] ∅ tidy_empty).
Defined.

End BusFacts.

(** ** The allocation grid: round trips and counts *)
Module GridLaws.
Import Game.

Lemma getAllocObj_setAllocObj (a : alloc_info) (x y x' y' : Z)
    (o : value) :
  getAllocObj x' y' (setAllocObj x y o a)
  = if bool_decide (x = x' ∧ y = y') then o else getAllocObj x' y' a.
Proof.
  rewrite !GridFacts.getAllocObj_owner, GridFacts.owner_of_setAllocObj.
  by destruct (bool_decide _).
Qed.

Lemma onDealloc_setAllocObj a sender x y :
  well_formed a → is_object sender → owner_of a x y = None →
  onDealloc sender x y (setAllocObj x y sender a) = a.
Proof.
  intros Hwf Hs Hfree. unfold onDealloc.
  rewrite getAllocObj_setAllocObj.
  rewrite (bool_decide_eq_true_2 (x = x ∧ y = y)) by done.
  rewrite bool_decide_eq_true_2 by done.
  unfold setAllocObj, owner_of in *.
  destruct (a !! x) as [item|] eqn:Hx.
  - rewrite Hx, lookup_insert_eq. simpl in *.
    destruct (Hwf x item Hx) as (Hlen & Hne & _).
    assert (0 < size (cells item))%nat.
    { destruct (decide (size (cells item) = 0%nat)) as [E|E]; [|lia].
      apply map_size_empty_iff in E. done. }
    replace (col_length item + 1 - 1 =? 0) with false
      by (symmetry; apply Z.eqb_neq; lia).
    rewrite insert_insert_eq, delete_insert_id by done.
    replace (col_length item + 1 - 1) with (col_length item) by lia.
    apply insert_id. rewrite Hx. by destruct item.
  - rewrite !lookup_insert_eq. simpl.
    rewrite !delete_insert_eq. by apply delete_id.
Qed.

(** X7: an object that is granted a free cell and releases it again
    leaves the grid exactly as it was: the column the allocation created
    is deleted again, and the count of a column that existed is
    restored. *)
Theorem alloc_then_dealloc (a : alloc_info) (sender : value) (x y : Z) :
  well_formed a → is_object sender →
  getAllocObj x y a = Null →
  onDealloc sender x y (onAlloc sender x y a).1 = a.
Proof.
  intros Hwf Hs Hfree. apply GridFacts.getAllocObj_null in Hfree; [|done].
  rewrite GridFacts.onAlloc_free by done. simpl.
  by apply onDealloc_setAllocObj.
Qed.

Lemma alloc_then_dealloc_witness :
  let a := grid_run Scenario.grid_before ∅ in
  onDealloc (Obj 5) 20 10 (onAlloc (Obj 5) 20 10 a).1 = a.
Proof.
  intros a.
  apply (alloc_then_dealloc a (Obj 5) 20 10); [| by exists 5%nat | reflexivity].
  apply GridFacts.well_formed_run; [apply GridFacts.well_formed_empty|].
  repeat constructor; simpl; by eexists.
Defined.

(** X8: after any sequence of ['alloc'] and ['dealloc'] events sent by
    game objects to the empty grid, the [length] every column keeps is
    the number of cells the column holds, and it is positive: a column
    that has lost its last cell is deleted. *)
Theorem grid_columns_are_counted (calls : list grid_call) (x : Z)
    (item : column) :
  Forall (λ c, is_object (call_sender c)) calls →
  grid_run calls ∅ !! x = Some item →
  item.(col_length) = Z.of_nat (size item.(cells)) ∧ 0 < item.(col_length).
Proof.
  intros Hcalls Hx.
  destruct (GridFacts.well_formed_run calls ∅ GridFacts.well_formed_empty
              Hcalls x item Hx) as (Hlen & Hne & _).
  split; [done|]. rewrite Hlen.
  destruct (decide (size (cells item) = 0%nat)) as [E|E]; [|lia].
  apply map_size_empty_iff in E. done.
Qed.

Lemma grid_columns_are_counted_witness :
  ∃ item,
    grid_run (Scenario.grid_before ++ Scenario.grid_later) ∅ !! 20
    = Some item ∧
    item.(col_length) = 1 ∧
    item.(col_length) = Z.of_nat (size item.(cells)).
Proof.
  eexists. split; [reflexivity|]. split; [reflexivity|].
  apply (grid_columns_are_counted
           (Scenario.grid_before ++ Scenario.grid_later) 20);
    [|reflexivity].
  repeat constructor; simpl; by eexists.
Defined.

End GridLaws.

(** ** The board: wrapping around its borders *)
Module BoardFacts.
Import Game.

Lemma adjustBlockWrap_id boundaries c :
  on_board boundaries c → Base.adjustBlockWrap boundaries c = c.
Proof.
  destruct c as [x y], boundaries as [w h]. unfold on_board, Base.adjustBlockWrap.
  simpl. intros [Hx Hy].
  replace (y <? 0) with false by (symmetry; apply Z.ltb_ge; lia).
  replace (y >? h - Base.block_size) with false
    by (symmetry; rewrite Z.gtb_ltb; apply Z.ltb_ge; lia).
  replace (x <? 0) with false by (symmetry; apply Z.ltb_ge; lia).
  replace (x >? w - Base.block_size) with false
    by (symmetry; rewrite Z.gtb_ltb; apply Z.ltb_ge; lia).
  done.
Qed.

Lemma adjustBlockWrap_step boundaries x y d :
  Base.block_size ≤ boundaries.1 → Base.block_size ≤ boundaries.2 →
  on_board boundaries (x, y) →
  - Base.block_size ≤ d ≤ Base.block_size →
  on_board boundaries (Base.adjustBlockWrap boundaries (x + d, y)) ∧
  on_board boundaries (Base.adjustBlockWrap boundaries (x, y + d)).
Proof.
  destruct boundaries as [w h]. unfold on_board, Base.adjustBlockWrap.
  simpl. intros Hw Hh [Hx Hy] Hd.
  replace (y <? 0) with false by (symmetry; apply Z.ltb_ge; lia).
  replace (y >? h - Base.block_size) with false
    by (symmetry; rewrite Z.gtb_ltb; apply Z.ltb_ge; lia).
  replace (x <? 0) with false by (symmetry; apply Z.ltb_ge; lia).
  replace (x >? w - Base.block_size) with false
    by (symmetry; rewrite Z.gtb_ltb; apply Z.ltb_ge; lia).
  split.
  - destruct (x + d <? 0) eqn:E1; [simpl; lia|]. apply Z.ltb_ge in E1.
    destruct (x + d >? w - Base.block_size) eqn:E2; simpl; [lia|].
    rewrite Z.gtb_ltb in E2. apply Z.ltb_ge in E2. lia.
  - destruct (y + d <? 0) eqn:E1; [simpl; lia|]. apply Z.ltb_ge in E1.
    destruct (y + d >? h - Base.block_size) eqn:E2; simpl; [lia|].
    rewrite Z.gtb_ltb in E2. apply Z.ltb_ge in E2. lia.
Qed.

(** X9: [adjustBlockWrap] leaves a block of the board where it is, and
    brings a block that has moved off the board by at most one block size
    along one axis back onto the board, at the opposite border. *)
Theorem adjustBlockWrap_wraps_around (boundaries : Z * Z) (x y d : Z) :
  Base.block_size ≤ boundaries.1 → Base.block_size ≤ boundaries.2 →
  on_board boundaries (x, y) →
  - Base.block_size ≤ d ≤ Base.block_size →
  Base.adjustBlockWrap boundaries (x, y) = (x, y) ∧
  Base.adjustBlockWrap boundaries (x + d, y)
  = (if x + d <? 0 then boundaries.1 - Base.block_size
     else if x + d >? boundaries.1 - Base.block_size then 0 else x + d, y) ∧
  Base.adjustBlockWrap boundaries (x, y + d)
  = (x, if y + d <? 0 then boundaries.2 - Base.block_size
        else if y + d >? boundaries.2 - Base.block_size then 0 else y + d) ∧
  on_board boundaries (Base.adjustBlockWrap boundaries (x + d, y)) ∧
  on_board boundaries (Base.adjustBlockWrap boundaries (x, y + d)).
Proof.
  intros Hw Hh Hb Hd.
  destruct (adjustBlockWrap_step boundaries x y d Hw Hh Hb Hd)
    as [H1 H2].
  split; [by apply adjustBlockWrap_id|].
  split_and!; try done.
  - destruct boundaries as [w h]. unfold on_board in Hb.
    unfold Base.adjustBlockWrap. simpl in *.
    replace (y <? 0) with false by (symmetry; apply Z.ltb_ge; lia).
    replace (y >? h - Base.block_size) with false
      by (symmetry; rewrite Z.gtb_ltb; apply Z.ltb_ge; lia).
    by repeat destruct (_ : bool).
  - destruct boundaries as [w h]. unfold on_board in Hb.
    unfold Base.adjustBlockWrap. simpl in *.
    destruct (y + d <? 0); [done|]. destruct (y + d >? _); [done|].
    replace (x <? 0) with false by (symmetry; apply Z.ltb_ge; lia).
    replace (x >? w - Base.block_size) with false
      by (symmetry; rewrite Z.gtb_ltb; apply Z.ltb_ge; lia).
    done.
Qed.

Lemma adjustBlockWrap_wraps_around_witness :
  Base.adjustBlockWrap (400, 300) (390 + 10, 0) = (0, 0) ∧
  Base.adjustBlockWrap (400, 300) (390, 0 + -10) = (390, 290) ∧
  on_board (400, 300) (Base.adjustBlockWrap (400, 300) (390 + 10, 0)).
Proof.
  destruct (adjustBlockWrap_wraps_around (400, 300) 390 0 10)
    as (_ & _ & _ & H & _); [by vm_compute..| |].
  - unfold Base.block_size. lia.
  - split; [reflexivity|]. split; [reflexivity|]. exact H.
Defined.

End BoardFacts.

(** ** The player on the grid *)
Module PlayerFacts.
Import Game.

Lemma release_owned sender blocks a :
  well_formed a → is_object sender → NoDup blocks →
  (∀ b, b ∈ blocks → owner_of a b.1 b.2 = Some sender) →
  well_formed (release sender blocks a) ∧
  ∀ x y, owner_of (release sender blocks a) x y
         = if bool_decide ((x, y) ∈ blocks) then None else owner_of a x y.
Proof.
  intros Hwf Hs Hnd. revert a Hwf.
  induction Hnd as [|b blocks Hb Hnd IH]; intros a Hwf Hown;
    unfold release; cbn [foldl]; fold (release sender).
  - split; [done|]. intros x y.
    by rewrite bool_decide_eq_false_2 by apply not_elem_of_nil.
  - assert (Hb' : owner_of a b.1 b.2 = Some sender)
      by (apply Hown; apply list_elem_of_here).
    destruct (IH (onDealloc sender b.1 b.2 a)) as [Hwf' Hrel].
    + by apply GridFacts.well_formed_onDealloc.
    + intros b' Hin. rewrite GridFacts.onDealloc_owner by done.
      rewrite bool_decide_eq_false_2; [by apply Hown, list_elem_of_further|].
      intros [E1 E2]. apply Hb. destruct b, b'; simpl in *; by subst.
    + split; [done|]. intros x y. rewrite Hrel.
      rewrite GridFacts.onDealloc_owner by done.
      destruct (decide ((x, y) ∈ blocks)) as [E|E].
      * rewrite !bool_decide_eq_true_2; [done|by apply list_elem_of_further|done].
      * rewrite (bool_decide_eq_false_2 _ E).
        destruct (decide (b.1 = x ∧ b.2 = y)) as [[E1 E2]|E'].
        -- rewrite !bool_decide_eq_true_2; [done| |done].
           destruct b; simpl in *; subst. apply list_elem_of_here.
        -- rewrite (bool_decide_eq_false_2 _ E').
           rewrite bool_decide_eq_false_2; [done|].
           intros Hin. apply elem_of_cons in Hin as [<-|?]; [|done].
           by apply E'.
Qed.

Lemma allocBlock_sync x y s a :
  well_formed a → in_sync s a →
  well_formed (allocBlock x y s a).1.2 ∧
  in_sync (allocBlock x y s a).1.1 (allocBlock x y s a).1.2.
Proof.
  intros Hwf [Hnd Hsync]. unfold allocBlock.
  set (this := Obj s.(Snake.base).(Base.ref)) in *.
  assert (Hthis : is_object this) by by eexists.
  destruct (owner_of a x y) as [o|] eqn:Ho.
  { rewrite (GridFacts.onAlloc_owned a this x y o) by done. by simpl. }
  rewrite GridFacts.onAlloc_free by done. simpl.
  assert (Hnew : (x, y) ∉ s.(Snake.base).(Base.body_blocks)).
  { intros Hin. apply Hsync in Hin. congruence. }
  assert (Hwf1 : well_formed (setAllocObj x y this a))
    by by apply GridFacts.well_formed_setAllocObj.
  unfold Snake.onAllocRecv.
  destruct (bool_decide _); [destruct (Base.body_blocks _) as [|tb rest] eqn:Hb|];
    unfold in_sync; simpl; fold this.
  - split; [done|]. split; [apply NoDup_singleton|]. intros x' y'.
    rewrite GridFacts.owner_of_setAllocObj, list_elem_of_singleton.
    case_bool_decide as E.
    + destruct E as [-> ->]. done.
    + rewrite Hsync. split; [by intros ?%not_elem_of_nil|].
      intros [= -> ->]. by destruct E.
  - apply NoDup_cons in Hnd as [Htb Hnd].
    apply not_elem_of_cons in Hnew as [Hne Hnew].
    assert (Hown : owner_of (setAllocObj x y this a) tb.1 tb.2 = Some this).
    { rewrite GridFacts.owner_of_setAllocObj. case_bool_decide as E.
      - done.
      - apply Hsync. destruct tb. apply list_elem_of_here. }
    split; [by apply GridFacts.well_formed_onDealloc|]. split.
    + apply NoDup_app. split_and!; [done| |apply NoDup_singleton].
      intros b Hin ->%list_elem_of_singleton. done.
    + intros x' y'. rewrite GridFacts.onDealloc_owner by done.
      rewrite GridFacts.owner_of_setAllocObj, elem_of_app, list_elem_of_singleton.
      case_bool_decide as E1.
      * destruct E1 as [E1 E2]. split; [done|]. intros [Hin|[= -> ->]].
        -- destruct tb; simpl in *; subst. done.
        -- destruct tb; simpl in *; subst. done.
      * case_bool_decide as E2.
        -- destruct E2 as [-> ->]. split; [by right|done].
        -- rewrite Hsync, elem_of_cons. split.
           ++ intros [<-|Hin]; [by destruct E1|by left].
           ++ intros [Hin|[= -> ->]]; [by right|by destruct E2].
  - split; [done|]. split.
    + apply NoDup_app. split_and!; [done| |apply NoDup_singleton].
      intros b Hin ->%list_elem_of_singleton. done.
    + intros x' y'.
      rewrite GridFacts.owner_of_setAllocObj, elem_of_app, list_elem_of_singleton.
      case_bool_decide as E.
      * destruct E as [-> ->]. split; [by right|done].
      * rewrite Hsync. split; [by left|].
        intros [Hin|[= -> ->]]; [done|by destruct E].
Qed.

Lemma play_step_sync boundaries sa i :
  well_formed sa.2 → in_sync sa.1 sa.2 →
  well_formed (play_step boundaries sa i).2 ∧
  in_sync (play_step boundaries sa i).1 (play_step boundaries sa i).2.
Proof.
  destruct sa as [s a]. simpl. intros Hwf Hs. destruct i as [heading|]; simpl.
  - split; [done|].
    assert (E : (Snake.setHeading heading s).(Snake.base) = s.(Snake.base)).
    { unfold Snake.setHeading. destruct (negb (truthy heading)); [done|].
      destruct (bool_decide _); [done|]. destruct heading; try done.
      by destruct (if bool_decide _ then _ else _). }
    unfold in_sync. by rewrite E.
  - destruct (Snake.draw boundaries s) as [s1 request] eqn:Hd.
    assert (E : s1.(Snake.base).(Base.body_blocks)
                = s.(Snake.base).(Base.body_blocks)
                ∧ s1.(Snake.base).(Base.ref) = s.(Snake.base).(Base.ref)).
    { unfold Snake.draw in Hd.
      destruct (Snake.getHeading s) as [h s0] eqn:Hg.
      assert (E0 : s0.(Snake.base) = s.(Snake.base)).
      { unfold Snake.getHeading in Hg.
        destruct (Snake.heading_queue s); by injection Hg as <- <-. }
      destruct (Snake.getHeadingInfo h) as [[along_x offset]|];
        [destruct (last _) as [[bx by_]|]|];
        injection Hd as <- <-; simpl; by rewrite ?E0. }
    assert (Hs1 : in_sync s1 a).
    { destruct E as [E1 E2]. unfold in_sync. by rewrite E1, E2. }
    destruct request as [[x y]|]; [|done].
    by apply allocBlock_sync.
Qed.

Lemma play_sync boundaries inputs sa :
  well_formed sa.2 → in_sync sa.1 sa.2 →
  well_formed (play boundaries inputs sa).2 ∧
  in_sync (play boundaries inputs sa).1 (play boundaries inputs sa).2.
Proof.
  revert sa. induction inputs as [|i inputs IH]; intros sa Hwf Hs; [done|].
  simpl. apply IH; by apply play_step_sync.
Qed.

Lemma player_placed_sync :
  well_formed Scenario.player_placed.2 ∧
  in_sync Scenario.player_placed.1 Scenario.player_placed.2.
Proof.
  apply (allocBlock_sync 0 0 Scenario.snake_right ∅).
  - apply GridFacts.well_formed_empty.
  - split; [constructor|]. intros x y. split; [done|].
    by intros ?%not_elem_of_nil.
Qed.

(** X10: the ['dealloc'] events of [clear()] free exactly the cells of
    the object: when the grid records the body of the object, afterwards
    no cell belongs to the object, every other cell has the owner it had,
    and the grid still counts its columns. *)
Theorem clear_releases_the_body (s : Snake.t) (a : alloc_info) :
  well_formed a → in_sync s a →
  let this := Obj s.(Snake.base).(Base.ref) in
  let a' := release this s.(Snake.base).(Base.body_blocks) a in
  well_formed a' ∧
  ∀ x y, owner_of a' x y
         = if bool_decide (owner_of a x y = Some this) then None
           else owner_of a x y.
Proof.
  intros Hwf [Hnd Hsync] this a'.
  destruct (release_owned this s.(Snake.base).(Base.body_blocks) a Hwf)
    as [Hwf' Hrel]; [by eexists|done| |].
  - intros [x y] Hin. by apply Hsync.
  - split; [done|]. intros x y. unfold a'. rewrite Hrel.
    by rewrite (bool_decide_ext _ _ (Hsync x y)).
Qed.

Lemma clear_releases_the_body_witness :
  let s := Scenario.player_placed.1 in
  let a := Scenario.player_placed.2 in
  getAllocObj 0 0 a = Obj 1 ∧
  owner_of (release (Obj 1) s.(Snake.base).(Base.body_blocks) a) 0 0 = None.
Proof.
  intros s a. split; [reflexivity|].
  destruct (clear_releases_the_body s a) as [_ H];
    [apply player_placed_sync..|].
  exact (H 0 0).
Defined.

(** X11: the body of the player and the grid agree after every key
    press and every frame: starting from a grid that records the body,
    the cells the grid gives to the player are exactly the blocks of its
    body, each once, whether a request is granted or runs into an
    occupied cell. *)
Theorem body_and_grid_agree (boundaries : Z * Z) (inputs : list input)
    (s : Snake.t) (a : alloc_info) :
  well_formed a → in_sync s a →
  let '(s', a') := play boundaries inputs (s, a) in
  well_formed a' ∧
  NoDup s'.(Snake.base).(Base.body_blocks) ∧
  ∀ x y, getAllocObj x y a' = Obj s'.(Snake.base).(Base.ref)
         ↔ (x, y) ∈ s'.(Snake.base).(Base.body_blocks).
Proof.
  intros Hwf Hs.
  destruct (play_sync boundaries inputs (s, a) Hwf Hs) as [Hwf' [Hnd Hsync]].
  destruct (play boundaries inputs (s, a)) as [s' a']. simpl in *.
  split; [done|]. split; [done|]. intros x y. rewrite <- Hsync.
  rewrite GridFacts.getAllocObj_owner.
  destruct (owner_of a' x y) as [o|] eqn:Ho; simpl; [|done].
  split; congruence.
Qed.

Lemma body_and_grid_agree_witness :
  let '(s', a') :=
    play (400, 300) Scenario.moves
      (Scenario.player_placed.1, Scenario.player_placed.2) in
  s'.(Snake.base).(Base.body_blocks) = [(20, 10); (20, 20)] ∧
  well_formed a' ∧
  NoDup s'.(Snake.base).(Base.body_blocks) ∧
  ∀ x y, getAllocObj x y a' = Obj s'.(Snake.base).(Base.ref)
         ↔ (x, y) ∈ s'.(Snake.base).(Base.body_blocks).
Proof.
  assert (E : (play (400, 300) Scenario.moves
                 (Scenario.player_placed.1, Scenario.player_placed.2)).1
              .(Snake.base).(Base.body_blocks) = [(20, 10); (20, 20)])
    by (vm_compute; reflexivity).
  pose proof (body_and_grid_agree (400, 300) Scenario.moves
                Scenario.player_placed.1 Scenario.player_placed.2
                (proj1 player_placed_sync) (proj2 player_placed_sync)) as H.
  destruct (play _ _ _) as [s' a'].
  split; [exact E|exact H].
Defined.

Lemma draw_request boundaries s s1 x y :
  Base.block_size ≤ boundaries.1 → Base.block_size ≤ boundaries.2 →
  Forall (on_board boundaries) s.(Snake.base).(Base.body_blocks) →
  Snake.draw boundaries s = (s1, Some (x, y)) →
  on_board boundaries (x, y).
Proof.
  intros Hw Hh Hb. unfold Snake.draw.
  destruct (Snake.getHeading s) as [h s0] eqn:Hg.
  assert (E0 : s0.(Snake.base) = s.(Snake.base)).
  { unfold Snake.getHeading in Hg.
    destruct (Snake.heading_queue s); by injection Hg as <- <-. }
  rewrite E0.
  destruct (Snake.getHeadingInfo h) as [[along_x offset]|] eqn:Hi; [|done].
  destruct (last _) as [[bx by_]|] eqn:Hl; [|done].
  intros [= <- Hreq].
  assert (Hlast : on_board boundaries (bx, by_)).
  { rewrite Forall_forall in Hb. apply Hb.
    apply last_Some in Hl as [l' ->]. apply elem_of_app. right.
    apply list_elem_of_here. }
  assert (Hoff : - Base.block_size ≤ offset ≤ Base.block_size).
  { unfold Snake.getHeadingInfo in Hi. destruct h as [h|]; [|done].
    unfold Base.block_size in *.
    repeat (destruct (_ =? _) in Hi; [injection Hi as <- <-; lia|]). done. }
  destruct (BoardFacts.adjustBlockWrap_step boundaries bx by_ offset Hw Hh Hlast Hoff)
    as [H1 H2].
  destruct along_x; rewrite Hreq in *; done.
Qed.

Lemma allocBlock_body x y s a b :
  b ∈ (allocBlock x y s a).1.1.(Snake.base).(Base.body_blocks) →
  b ∈ s.(Snake.base).(Base.body_blocks) ∨ b = (x, y).
Proof.
  unfold allocBlock.
  destruct (onAlloc _ x y a) as [a1 e]. destruct (payload e); simpl; try by left.
  unfold Snake.onAllocRecv.
  destruct (bool_decide _);
    [destruct (Base.body_blocks (Snake.base s)) as [|tb rest]|]; simpl;
    rewrite ?elem_of_app, ?list_elem_of_singleton, ?elem_of_cons; tauto.
Qed.

Lemma play_step_on_board boundaries sa i :
  Base.block_size ≤ boundaries.1 → Base.block_size ≤ boundaries.2 →
  Forall (on_board boundaries) sa.1.(Snake.base).(Base.body_blocks) →
  Forall (on_board boundaries)
    (play_step boundaries sa i).1.(Snake.base).(Base.body_blocks).
Proof.
  destruct sa as [s a]. simpl. intros Hw Hh Hb. destruct i as [heading|]; simpl.
  - assert (E : (Snake.setHeading heading s).(Snake.base) = s.(Snake.base)).
    { unfold Snake.setHeading. destruct (negb (truthy heading)); [done|].
      destruct (bool_decide _); [done|]. destruct heading; try done.
      by destruct (if bool_decide _ then _ else _). }
    by rewrite E.
  - destruct (Snake.draw boundaries s) as [s1 request] eqn:Hd.
    assert (E : s1.(Snake.base).(Base.body_blocks)
                = s.(Snake.base).(Base.body_blocks)).
    { unfold Snake.draw in Hd.
      destruct (Snake.getHeading s) as [h s0] eqn:Hg.
      assert (E0 : s0.(Snake.base) = s.(Snake.base)).
      { unfold Snake.getHeading in Hg.
        destruct (Snake.heading_queue s); by injection Hg as <- <-. }
      destruct (Snake.getHeadingInfo h) as [[along_x offset]|];
        [destruct (last _) as [[bx by_]|]|];
        injection Hd as <- <-; simpl; by rewrite ?E0. }
    destruct request as [[x y]|]; [|simpl; by rewrite E].
    pose proof (draw_request boundaries s s1 x y Hw Hh Hb Hd) as Hreq.
    apply Forall_forall. intros b Hin.
    apply allocBlock_body in Hin as [Hin| ->]; [|done].
    rewrite E in Hin. rewrite Forall_forall in Hb. by apply Hb.
Qed.

(** X12: the player never leaves the board: on a board of at least one
    block in each direction, every block the player's body holds after
    any sequence of key presses and frames lies on the board, when the
    blocks it started with did. *)
Theorem player_stays_on_board (boundaries : Z * Z) (inputs : list input)
    (s : Snake.t) (a : alloc_info) :
  Base.block_size ≤ boundaries.1 → Base.block_size ≤ boundaries.2 →
  Forall (on_board boundaries) s.(Snake.base).(Base.body_blocks) →
  Forall (on_board boundaries)
    (play boundaries inputs (s, a)).1.(Snake.base).(Base.body_blocks).
Proof.
  intros Hw Hh. revert s a.
  induction inputs as [|i inputs IH]; intros s a Hb; [done|].
  simpl. destruct (play_step boundaries (s, a) i) as [s1 a1] eqn:E.
  apply IH. change s1 with (s1, a1).1. rewrite <- E.
  by apply play_step_on_board.
Qed.

Lemma player_stays_on_board_witness :
  (play (400, 300)
     (replicate 45 Frame)
     (Scenario.player_placed.1, Scenario.player_placed.2)).1
    .(Snake.base).(Base.body_blocks) = [(40, 0); (50, 0)] ∧
  Forall (on_board (400, 300))
    (play (400, 300)
       (replicate 45 Frame)
       (Scenario.player_placed.1, Scenario.player_placed.2)).1
      .(Snake.base).(Base.body_blocks).
Proof.
  split; [by vm_compute|].
  apply (player_stays_on_board (400, 300) (replicate 45 Frame)
           Scenario.player_placed.1 Scenario.player_placed.2);
    [by vm_compute|by vm_compute|].
  apply Forall_singleton. by vm_compute.
Defined.

End PlayerFacts.

(** ** The snake: heading queue, length and upgrades *)
Module SnakeLaws.
Import Snake.

Lemma setHeading_not_num v s :
  (∀ h, v ≠ Num h) → setHeading v s = s.
Proof.
  intros Hv. unfold setHeading. destruct (negb (truthy v)); [done|].
  destruct (bool_decide _); [done|]. destruct v; try done. by destruct (Hv n).
Qed.

Lemma no_repeat_nil : no_repeat [].
Proof. intros i a b H. done. Qed.

Lemma no_repeat_tail h q : no_repeat (h :: q) → no_repeat q.
Proof. intros H i a b Ha Hb. by apply (H (S i) a b). Qed.

Lemma no_repeat_snoc q h :
  no_repeat q → last q ≠ Some h → no_repeat (q ++ [h]).
Proof.
  intros Hq Hl i a b Ha Hb.
  destruct (decide (S i < List.length q)%nat) as [Hlt|Hge].
  - rewrite lookup_app_l in Ha by lia. rewrite lookup_app_l in Hb by lia.
    by apply (Hq i a b).
  - assert (Hi : S i = List.length q).
    { apply lookup_lt_Some in Hb. rewrite length_app in Hb. simpl in Hb. lia. }
    rewrite lookup_app_l in Ha by lia.
    rewrite lookup_app_r in Hb by lia.
    replace (S i - List.length q)%nat with 0%nat in Hb by lia. injection Hb as <-.
    intros ->. apply Hl. rewrite last_lookup.
    replace (Nat.pred (List.length q)) with i by lia. done.
Qed.

Lemma clean_setHeading v s : clean s → clean (setHeading v s).
Proof.
  intros (Hq & Hr & Hh). destruct v as [| | |h| | |];
    try (by rewrite setHeading_not_num).
  rewrite SnakeFacts.setHeading_cases.
  destruct (decide (is_heading h)) as [Hv|Hv];
    [|by rewrite (bool_decide_eq_false_2 _ Hv)].
  rewrite (bool_decide_eq_true_2 _ Hv). simpl.
  destruct (decide (last (heading_queue s) = Some h)) as [Hl|Hl];
    [by rewrite (bool_decide_eq_true_2 _ Hl)|].
  rewrite (bool_decide_eq_false_2 _ Hl). simpl.
  destruct (bool_decide _); simpl; [done|].
  split_and!; simpl; [|by apply no_repeat_snoc|done].
  apply Forall_app. split; [done|]. by apply Forall_singleton.
Qed.

Lemma clean_getHeading s : clean s → clean (getHeading s).2.
Proof.
  intros (Hq & Hr & Hh). unfold getHeading.
  destruct (heading_queue s) as [|h q] eqn:E; simpl;
    [unfold clean; by rewrite E|].
  apply Forall_cons in Hq as [Hh' Hq].
  split_and!; simpl; [done|by eapply no_repeat_tail|by intros ? [= <-]].
Qed.

Lemma setLength_queue v s :
  (setLength v s).1.1.(heading_queue) = s.(heading_queue) ∧
  (setLength v s).1.1.(heading) = s.(heading).
Proof.
  unfold setLength. destruct (Base.falsy (length s)); [done|].
  destruct (_ >? 1); [|done].
  destruct (shiftTail _ _ _) as [[blocks erased] ok]. by destruct ok.
Qed.

Lemma reachable_clean s : reachable s → clean s.
Proof.
  induction 1 as [ref o random|v s _ IH|s _ IH|v s _ IH|x y s _ IH|u s _ IH
                 |u s _ IH|v random s _ IH].
  - unfold init.
    set (fresh := Make (Base.Make ref Slither.Snake None [] true false None)
                    None [] None ∅).
    set (s1 := setHeading _ fresh).
    assert (H1 : clean s1).
    { apply clean_setHeading. split_and!; [constructor|apply no_repeat_nil|done]. }
    destruct (setLength_queue (opt_length o) s1) as [E1 E2].
    unfold clean, with_base. simpl. by rewrite E1, E2.
  - by apply clean_setHeading.
  - by apply clean_getHeading.
  - destruct (setLength_queue v s) as [E1 E2]. unfold clean. by rewrite E1, E2.
  - unfold onAllocRecv. by destruct (if bool_decide _ then _ else _).
  - unfold addUpgrade. by destruct (hasUpgrade u s).
  - unfold removeUpgrade. by destruct (hasUpgrade u s).
  - done.
Qed.

(** X13: in every state a snake reaches, the headings queued are among
    the four headings, no heading is queued twice in a row, and the
    heading applied, if any, is one of the four headings. *)
Theorem heading_queue_stays_clean (s : t) :
  reachable s →
  Forall is_heading s.(heading_queue) ∧
  no_repeat s.(heading_queue) ∧
  ∀ h, s.(heading) = Some h → is_heading h.
Proof. apply reachable_clean. Qed.

Lemma heading_queue_stays_clean_witness :
  let s :=
    setHeading (Num Slither.Headings.Down)
      (setHeading (Num Slither.Headings.Up)
         (setHeading (Num Slither.Headings.Up) Scenario.snake_right)) in
  s.(heading_queue) = [Slither.Headings.Up; Slither.Headings.Down] ∧
  no_repeat s.(heading_queue).
Proof.
  intros s. split; [reflexivity|].
  apply (heading_queue_stays_clean s).
  do 3 apply reach_setHeading. apply reach_getHeading.
  apply reach_init.
Defined.

Lemma drain_queue s :
  (drain (List.length s.(heading_queue)) s).1 = Some <$> s.(heading_queue) ∧
  (drain (List.length s.(heading_queue)) s).2
  = Make s.(base)
      (match last s.(heading_queue) with
       | Some h => Some h
       | None => s.(heading)
       end) [] s.(length) s.(applied_upgrades).
Proof.
  destruct s as [b h q l u]. simpl. revert h.
  induction q as [|h' q IH]; intros h; simpl; [done|].
  destruct (IH (Some h')) as [E1 E2].
  destruct (drain _ _) as [hs s2]. simpl in *. subst. split; [done|].
  f_equal. destruct q as [|h2 q]; [done|].
  change (last (h' :: h2 :: q)) with (last (h2 :: q)).
  destruct (last (h2 :: q)) eqn:El; [done|]. by apply last_None in El.
Qed.

(** X14: the heading queue is first in, first out: as many calls of
    [getHeading()] as there are queued headings return the queued
    headings in the order in which they were queued, empty the queue, and
    leave the last of them applied. *)
Theorem headings_are_applied_in_order (s : t) :
  let q := s.(heading_queue) in
  (drain (List.length q) s).1 = Some <$> q ∧
  (drain (List.length q) s).2.(heading_queue) = [] ∧
  (drain (List.length q) s).2.(heading)
  = match last q with Some h => Some h | None => s.(heading) end.
Proof.
  destruct (drain_queue s) as [E1 E2]. simpl. rewrite E1, E2. done.
Qed.

Lemma shiftTail_spec n blocks erased :
  shiftTail n blocks erased
  = if bool_decide (n ≤ List.length blocks)%nat
    then (drop n blocks, erased ++ take n blocks, true)
    else ([], erased ++ blocks, false).
Proof.
  revert blocks erased. induction n as [|n IH]; intros blocks erased;
    cbn [shiftTail].
  - rewrite bool_decide_eq_true_2 by lia. by rewrite drop_0, take_0, app_nil_r.
  - destruct blocks as [|b blocks].
    + rewrite bool_decide_eq_false_2 by (cbn [List.length]; lia).
      by rewrite app_nil_r.
    + rewrite IH. rewrite <- !app_assoc. cbn [List.length drop take app].
      destruct (decide (n ≤ List.length blocks)%nat) as [E|E].
      * rewrite !bool_decide_eq_true_2 by lia. done.
      * rewrite !bool_decide_eq_false_2 by lia. done.
Qed.

(** X15: [setLength] to a length shorter by one erases no block; to a
    length shorter by [d >= 2] it erases the [d] oldest blocks; and when
    the body has fewer than [d] blocks it throws once it has erased all
    of them, leaving the length as it was. *)
Theorem setLength_shrinks_from_the_tail (n m : Z) (s : t) :
  s.(length) = Some n → n ≠ 0 → MIN_LENGTH ≤ m →
  let blocks := s.(base).(Base.body_blocks) in
  let d := Z.to_nat (n - m) in
  setLength (Some m) s
  = if bool_decide (n - m ≤ 1) then (with_length m s, [], true)
    else if bool_decide (d ≤ List.length blocks)%nat
    then (with_length m (with_blocks (drop d blocks) s), take d blocks, true)
    else (with_blocks [] s, blocks, false).
Proof.
  intros Hn Hn0 Hm blocks d. unfold setLength. rewrite Hn. simpl.
  unfold MIN_LENGTH in *.
  replace (m =? 0) with false by (symmetry; apply Z.eqb_neq; lia).
  replace (m <? 2) with false by (symmetry; apply Z.ltb_ge; lia).
  replace (n =? 0) with false by (symmetry; apply Z.eqb_neq; lia).
  simpl. destruct (decide (n - m ≤ 1)) as [E|E].
  - rewrite (bool_decide_eq_true_2 _ E).
    replace (n - m >? 1) with false
      by (symmetry; rewrite Z.gtb_ltb; apply Z.ltb_ge; lia). done.
  - rewrite (bool_decide_eq_false_2 _ E).
    replace (n - m >? 1) with true
      by (symmetry; rewrite Z.gtb_ltb; apply Z.ltb_lt; lia).
    rewrite shiftTail_spec. fold blocks d.
    by destruct (bool_decide (d ≤ List.length blocks)%nat).
Qed.

Lemma setLength_shrinks_from_the_tail_witness :
  let s := with_blocks [(0, 0); (10, 0); (20, 0); (30, 0)] Scenario.snake_long in
  setLength (Some 6) s = (with_length 6 s, [], true) ∧
  setLength (Some 4) s
  = (with_length 4 (with_blocks [(30, 0)] s), [(0, 0); (10, 0); (20, 0)], true) ∧
  setLength (Some 2) s = (with_blocks [] s, [(0, 0); (10, 0); (20, 0); (30, 0)], false).
Proof.
  intros s. split_and!.
  - apply (setLength_shrinks_from_the_tail 7 6 s); [reflexivity|lia|unfold MIN_LENGTH; lia].
  - apply (setLength_shrinks_from_the_tail 7 4 s); [reflexivity|lia|unfold MIN_LENGTH; lia].
  - apply (setLength_shrinks_from_the_tail 7 2 s); [reflexivity|lia|unfold MIN_LENGTH; lia].
Defined.



Lemma foldl_addUpgrade list s :
  (foldl (λ s' u, addUpgrade u s') s list).(applied_upgrades)
  = list_to_set list ∪ s.(applied_upgrades).
Proof.
  revert s. induction list as [|u list IH]; intros s; simpl.
  - set_solver.
  - rewrite IH. unfold addUpgrade, hasUpgrade. case_bool_decide as E; simpl.
    + set_solver.
    + set_solver.
Qed.

Lemma foldl_removeUpgrade list s :
  (foldl (λ s' u, removeUpgrade u s') s list).(applied_upgrades)
  = s.(applied_upgrades) ∖ list_to_set list.
Proof.
  revert s. induction list as [|u list IH]; intros s; simpl.
  - set_solver.
  - rewrite IH. unfold removeUpgrade, hasUpgrade. case_bool_decide as E; simpl.
    + set_solver.
    + set_solver.
Qed.

(** X17: the loop of [setupSnake] that adds the upgrades [getUpgrades()]
    listed to the new snake restores exactly the upgrades of the old
    snake, and the loop of [onDie] and [onPoisoned] that removes the
    upgrades listed leaves the snake without any upgrade. *)
Theorem upgrades_are_restored_and_lost_as_a_whole (s fresh : t) :
  fresh.(applied_upgrades) = ∅ →
  (foldl (λ s' u, addUpgrade u s') fresh (getUpgrades s)).(applied_upgrades)
  = s.(applied_upgrades) ∧
  (foldl (λ s' u, removeUpgrade u s') s (getUpgrades s)).(applied_upgrades)
  = ∅ ∧
  ∀ u, hasUpgrade u (foldl (λ s' u, removeUpgrade u s') s (getUpgrades s))
       = false.
Proof.
  intros Hf. unfold getUpgrades.
  rewrite foldl_addUpgrade, foldl_removeUpgrade, Hf, list_to_set_elements_L.
  split; [set_solver|]. split; [set_solver|].
  intros u. unfold hasUpgrade.
  rewrite foldl_removeUpgrade, list_to_set_elements_L.
  apply bool_decide_eq_false_2. set_solver.
Qed.

Lemma upgrades_are_restored_and_lost_as_a_whole_witness :
  let s :=
    addUpgrade Slither.UpgradeItemTypes.ShieldsUp
      (addUpgrade Slither.UpgradeItemTypes.WallBreaker Scenario.snake_long) in
  hasUpgrade Slither.UpgradeItemTypes.ShieldsUp s = true ∧
  (foldl (λ s' u, addUpgrade u s') Scenario.snake_right
     (getUpgrades s)).(applied_upgrades)
  = s.(applied_upgrades).
Proof.
  intros s. split; [by vm_compute|].
  apply (upgrades_are_restored_and_lost_as_a_whole s Scenario.snake_right).
  reflexivity.
Defined.

End SnakeLaws.

(** ** Random numbers and random headings *)
Module UtilityFacts.

Lemma genNumber_hits low high n :
  low ≤ n ≤ high →
  Slither.genNumber low high
    ((n - low) # Z.to_pos (high - low + 1)) = n.
Proof.
  intros Hn. unfold Slither.genNumber.
  destruct (low =? high) eqn:E; [apply Z.eqb_eq in E; lia|].
  apply Z.eqb_neq in E.
  unfold Qfloor, Qmult, inject_Z. simpl.
  rewrite Pos.mul_1_r, Z2Pos.id by lia.
  rewrite Z.div_mul by lia. lia.
Qed.



Lemma cycle_random_unit i :
  (0 <= Scenario.cycle_random i)%Q ∧ (Scenario.cycle_random i < 1)%Q.
Proof.
  unfold Scenario.cycle_random, Qle, Qlt. simpl.
  pose proof (Nat.mod_upper_bound i 8). lia.
Qed.

End UtilityFacts.

Module HeadingFacts.

Lemma headings_valid h : h ∈ Base.headings ↔ 1 ≤ h ≤ 4.
Proof.
  unfold Base.headings, Slither.Headings.Left, Slither.Headings.Up,
    Slither.Headings.Right, Slither.Headings.Down.
  rewrite !elem_of_cons, elem_of_nil. lia.
Qed.

Lemma getHeading_valid heading :
  (∀ h, heading = Some h → h ∈ Base.headings) →
  Base.getHeading heading ∈ Base.headings.
Proof.
  intros Hv. unfold Base.getHeading. destruct heading as [h|]; simpl.
  - destruct (h =? 0); [apply headings_valid; by vm_compute|by apply Hv].
  - apply headings_valid. by vm_compute.
Qed.

(** The heading a random number of the interval selects. *)
Lemma picked_valid random :
  (0 <= random)%Q → (random < 1)%Q →
  let index := Slither.genNumber 0 (Z.of_nat (length Base.headings) - 1) random in
  ∃ h, (if index <? 0 then None else Base.headings !! Z.to_nat index) = Some h
       ∧ h ∈ Base.headings.
Proof.
  intros H0 H1 index.
  pose proof (SchedulerFacts.genNumber_range 0 3 random ltac:(lia) H0 H1) as Hr.
  change (Z.of_nat (length Base.headings) - 1) with 3 in index.
  fold index in Hr.
  replace (index <? 0) with false by (symmetry; apply Z.ltb_ge; lia).
  destruct (Base.headings !! Z.to_nat index) as [h|] eqn:E.
  - exists h. split; [done|]. by eapply list_elem_of_lookup_2.
  - apply lookup_ge_None in E. simpl in E. lia.
Qed.

Lemma randomHeading_done fuel random k last :
  (∀ i, (0 <= random i)%Q ∧ (random i < 1)%Q) →
  ∀ picked k',
    Base.randomHeading fuel random k last = Done (picked, k') →
    ∃ h, picked = Some h ∧ h ∈ Base.headings ∧ h ≠ last ∧ (k < k')%nat.
Proof.
  intros Hr. revert k. induction fuel as [|fuel IH]; intros k picked k' H;
    simpl in H; [done|].
  destruct (picked_valid (random k)) as (h & Hh & Hin); [apply Hr..|].
  simpl in Hh. rewrite Hh in H.
  case_bool_decide as E.
  - destruct (IH (S k) picked k' H) as (h' & ? & ? & ? & ?).
    exists h'. split_and!; try done. lia.
  - injection H as <- <-. exists h. split_and!; try done; [congruence|lia].
Qed.

Lemma randomHeading_total fuel random k last j :
  (j < fuel)%nat →
  (let index :=
     Slither.genNumber 0 (Z.of_nat (length Base.headings) - 1)
       (random (k + j)%nat) in
   (if index <? 0 then None else Base.headings !! Z.to_nat index) ≠ Some last) →
  ∃ picked k', Base.randomHeading fuel random k last = Done (picked, k').
Proof.
  revert k j. induction fuel as [|fuel IH]; intros k j Hj Hgood; [lia|].
  simpl. case_bool_decide as E; [|by eauto].
  destruct j as [|j].
  - exfalso. apply Hgood. rewrite Nat.add_0_r. exact E.
  - apply (IH (S k) j); [lia|]. by replace (S k + j)%nat with (k + S j)%nat by lia.
Qed.

(** X19: [setHeading('random')] of [Base] ends as soon as a draw selects
    another heading than the one [getHeading()] gives, and the heading
    it sets is one of the four headings and differs from that heading;
    an object without heading, which counts as heading right, is never
    set to the right. *)
Theorem setHeading_random_changes_the_heading (fuel : nat)
    (random : nat → Q) (k j : nat) (heading : option Z) :
  (∀ i, (0 <= random i)%Q ∧ (random i < 1)%Q) →
  (∀ h, heading = Some h → h ∈ Base.headings) →
  (j < fuel)%nat →
  Base.headings
    !! Z.to_nat (Slither.genNumber 0 3 (random (k + j)%nat))
  ≠ Some (Base.getHeading heading) →
  ∃ h k',
    Base.setHeading fuel random k Slither.HeadingRandom heading
    = Done (Some h, k') ∧
    h ∈ Base.headings ∧ h ≠ Base.getHeading heading ∧ (k < k')%nat.
Proof.
  intros Hr Hv Hj Hgood. unfold Base.setHeading.
  destruct (randomHeading_total fuel random k (Base.getHeading heading) j Hj)
    as (picked & k' & Hdone).
  { simpl.
    pose proof (SchedulerFacts.genNumber_range 0 3 (random (k + j)%nat)
                  ltac:(lia) (proj1 (Hr _)) (proj2 (Hr _))) as Hi.
    change (Z.of_nat 4 - 1) with 3.
    replace (_ <? 0) with false by (symmetry; apply Z.ltb_ge; lia). done. }
  rewrite Hdone.
  destruct (randomHeading_done fuel random k _ Hr _ _ Hdone)
    as (h & -> & Hin & Hne & Hk).
  exists h, k'. rewrite bool_decide_eq_true_2 by done. done.
Qed.

Lemma setHeading_random_changes_the_heading_witness :
  ∃ h k',
    Base.setHeading 3 Scenario.cycle_random 4 Slither.HeadingRandom None
    = Done (Some h, k') ∧
    h ∈ Base.headings ∧ h ≠ Slither.Headings.Right ∧ (4 < k')%nat.
Proof.
  apply (setHeading_random_changes_the_heading 3 Scenario.cycle_random 4 2
           None).
  - apply UtilityFacts.cycle_random_unit.
  - intros h. congruence.
  - lia.
  - vm_compute. congruence.
Defined.

End HeadingFacts.

(** ** Rats *)
Module RatFacts.

(** X20: a rat that has run into something always turns: [onCollide]
    draws two numbers and sets a heading that is one of the four headings
    and differs from the heading the rat had, its reverse when the first
    number drawn is not zero; no ['eat'] event is triggered. *)
Theorem rat_turns_when_it_bumps (random : nat → Q) (k : nat) (r : Rat.t) :
  (∀ h, r.(Rat.heading) = Some h → h ∈ Base.headings) →
  let old := Base.getHeading r.(Rat.heading) in
  let result := Rat.onCollide random k false true r in
  result.2 = false ∧ result.1.2 = S (S k) ∧
  ∃ h, result.1.1.(Rat.heading) = Some h ∧ h ∈ Base.headings ∧ h ≠ old ∧
       (Slither.genNumber 0 1 (random k) ≠ 0 → h = Snake.reverse old).
Proof.
  intros Hv old result.
  pose proof (HeadingFacts.getHeading_valid _ Hv) as Hold. fold old in Hold.
  apply HeadingFacts.headings_valid in Hold.
  unfold result, Rat.onCollide. fold old.
  set (flip0 := Slither.genNumber 0 1 (random k)).
  set (flip1 := Slither.genNumber 0 1 (random (S k))).
  assert (Hturn : 1 ≤ Rat.turn old flip0 flip1 ≤ 4 ∧
                  Rat.turn old flip0 flip1 ≠ old ∧
                  (flip0 ≠ 0 → Rat.turn old flip0 flip1 = Snake.reverse old)).
  { unfold Rat.turn, Snake.reverse, Slither.Headings.Left, Slither.Headings.Up,
      Slither.Headings.Right, Slither.Headings.Down.
    assert (old = 1 ∨ old = 2 ∨ old = 3 ∨ old = 4) as [-> | [-> | [-> | ->]]]
      by lia; simpl;
      destruct (Z.eqb_spec flip0 0); destruct (flip1 =? 0); simpl; lia. }
  destruct Hturn as (Hr & Hne & Hrev).
  unfold Base.setHeading.
  replace (Rat.turn old flip0 flip1 =? 0) with false
    by (symmetry; apply Z.eqb_neq; lia).
  rewrite bool_decide_eq_true_2 by by apply HeadingFacts.headings_valid.
  simpl. split_and!; try done.
  exists (Rat.turn old flip0 flip1). split_and!; try done.
  by apply HeadingFacts.headings_valid.
Qed.

Lemma rat_turns_when_it_bumps_witness :
  let r := Scenario.rat_up in
  (Rat.onCollide Scenario.cycle_random 4 false true r).1.1.(Rat.heading)
  = Some Slither.Headings.Down ∧
  (Rat.onCollide Scenario.cycle_random 4 false true r).1.2 = 6%nat.
Proof.
  intros r. split; [reflexivity|].
  apply (rat_turns_when_it_bumps Scenario.cycle_random 4 r).
  intros h [= <-]. apply HeadingFacts.headings_valid. by vm_compute.
Defined.

(** A rat holds one block: the block granted replaces the one it had. *)
Lemma onAllocRecv_one_block (x y : Z) (r : Rat.t) :
  (length r.(Rat.base).(Base.body_blocks) ≤ 1)%nat →
  (Rat.onAllocRecv x y r).1.(Rat.base).(Base.body_blocks) = [(x, y)] ∧
  (Rat.onAllocRecv x y r).2 = r.(Rat.base).(Base.body_blocks).
Proof.
  intros Hlen. unfold Rat.onAllocRecv.
  destruct (Base.body_blocks (Rat.base r)) as [|b [|b' rest]]; simpl in *;
    [done|done|lia].
Qed.

(** X21: [Rat.setSpeed] stores a speed between [SpeedLevels.Min] and
    [SpeedLevels.Max - 2], and it stores it on [Base.prototype], not on
    the rat: the rat is left as it was, and every rat without a speed of
    its own reads the speed stored last. *)
Theorem rats_share_a_speed_of_at_most_three (arg : Slither.speed_arg)
    (random : Q) (r other : Rat.t) (prototype_speed : option Z) :
  (0 <= random)%Q → (random < 1)%Q →
  r.(Rat.base).(Base.speed) = None →
  other.(Rat.base).(Base.speed) = None →
  let '(r', prototype_speed') := Rat.setSpeed arg random r prototype_speed in
  r' = r ∧
  Slither.SpeedLevels.Min ≤ Rat.getSpeed r' prototype_speed'
  ≤ Slither.SpeedLevels.Max - 2 ∧
  Rat.getSpeed other prototype_speed' = Rat.getSpeed r' prototype_speed'.
Proof.
  intros H0 H1 Hr Ho. unfold Rat.setSpeed, Rat.getSpeed. rewrite Hr, Ho.
  split; [done|]. split; [|done].
  unfold Slither.SpeedLevels.Min, Slither.SpeedLevels.Max. simpl.
  set (c := Base.clampSpeed _ random).
  assert (Hc : 1 ≤ c ≤ 3).
  { unfold c, Base.clampSpeed, Slither.SpeedLevels.Min, Slither.SpeedLevels.Max.
    change (5 - 2) with 3.
    destruct arg as [n| |]; simpl.
    - destruct (n >? 3) eqn:E3; simpl; [lia|].
      rewrite Z.gtb_ltb in E3. apply Z.ltb_ge in E3.
      destruct (n =? 0) eqn:E0; simpl; [lia|].
      destruct (n <? 1) eqn:E1; [lia|]. apply Z.ltb_ge in E1.
      destruct (n >? 5) eqn:E5; lia.
    - pose proof (SchedulerFacts.genNumber_range 1 3 random ltac:(lia) H0 H1)
        as Hg.
      set (g := Slither.genNumber 1 3 random) in *.
      replace (g >? 3) with false
        by (symmetry; rewrite Z.gtb_ltb; apply Z.ltb_ge; lia).
      replace (g =? 0) with false by (symmetry; apply Z.eqb_neq; lia).
      replace (g <? 1) with false by (symmetry; apply Z.ltb_ge; lia).
      replace (g >? 5) with false
        by (symmetry; rewrite Z.gtb_ltb; apply Z.ltb_ge; lia).
      simpl. lia.
    - lia. }
  replace (c =? 0) with false by (symmetry; apply Z.eqb_neq; lia). lia.
Qed.

Lemma rats_share_a_speed_of_at_most_three_witness :
  let r := Scenario.rat_up in
  let other := Scenario.rat_other in
  let '(r', prototype_speed') :=
    Rat.setSpeed Slither.SpeedRandom (7 # 8) r (Some 1) in
  r' = r ∧
  1 ≤ Rat.getSpeed r' prototype_speed' ≤ 5 - 2 ∧
  Rat.getSpeed other prototype_speed' = Rat.getSpeed r' prototype_speed'.
Proof.
  intros r other.
  apply (rats_share_a_speed_of_at_most_three Slither.SpeedRandom (7 # 8) r
           other (Some 1)); by vm_compute.
Defined.

Lemma getDrawInfo_unit r axis dir :
  Rat.getDrawInfo r = Some (axis, dir) → -1 ≤ dir ≤ 1.
Proof.
  unfold Rat.getDrawInfo.
  repeat (destruct (_ =? _); [intros [= <- <-]; lia|]). done.
Qed.



End RatFacts.

(** ** The object manager: counts and frames *)
Module ObjectManagerFacts.
Import ObjectManager.

Lemma searchForObject_none i objs obj :
  0 ≤ i → searchFrom i objs obj = -1 ↔ obj ∉ objs.*1.
Proof.
  revert i. induction objs as [|o objs IH]; intros i Hi; simpl.
  - split; [intros _; apply not_elem_of_nil|done].
  - rewrite not_elem_of_cons. case_bool_decide as E.
    + split; [lia|]. intros [H _]. by destruct H.
    + rewrite IH by lia. split; [by intros ?; split|by intros [_ ?]].
Qed.

Lemma searchForObject_app i objs o post :
  o.1 ∉ objs.*1 →
  searchFrom i (objs ++ o :: post) o.1 = i + Z.of_nat (length objs).
Proof.
  revert i. induction objs as [|o' objs IH]; intros i Hn; simpl.
  - rewrite bool_decide_eq_true_2 by done. lia.
  - simpl in Hn. apply not_elem_of_cons in Hn as [Hne Hn].
    rewrite bool_decide_eq_false_2 by done. rewrite IH by done. lia.
Qed.

Lemma searchForObject_found i objs obj :
  0 ≤ i → searchFrom i objs obj ≠ -1 →
  ∃ pre o post, objs = pre ++ o :: post ∧ o.1 = obj ∧ (obj ∉ pre.*1) ∧
                searchFrom i objs obj = i + Z.of_nat (length pre).
Proof.
  revert i. induction objs as [|o objs IH]; intros i Hi; simpl; [done|].
  case_bool_decide as E.
  - intros _. exists [], o, objs. simpl.
    split_and!; [done|done|apply not_elem_of_nil|lia].
  - intros Hs. destruct (IH (i + 1)) as (pre & o' & post & -> & Ho & Hpre & Hidx);
      [lia|done|].
    exists (o :: pre), o', post. simpl. split_and!; try done.
    + by apply not_elem_of_cons.
    + lia.
Qed.

Lemma counted_initial : counted initial.
Proof. split; [constructor|done]. Qed.

Lemma counted_add obj m : counted m → counted (add obj m).1.
Proof.
  intros [Hnd Hty]. unfold add.
  destruct (searchForObject obj.1 m =? -1) eqn:Hs; [|done].
  apply Z.eqb_eq, searchForObject_none in Hs; [|lia].
  split; simpl.
  - rewrite fmap_app. apply NoDup_app. split_and!; [done| |apply NoDup_singleton].
    simpl. intros x Hin ->%list_elem_of_singleton. done.
  - rewrite Hty. rewrite (decide_False (P := objects m ++ [obj] = []))
      by (by intros [_ ?]%app_eq_nil).
    destruct (decide (objects m = [])) as [E|E].
    + rewrite lookup_empty, E. simpl. by rewrite insert_empty.
    + rewrite lookup_singleton_eq, insert_singleton_eq, length_app. simpl.
      f_equal. lia.
Qed.

Lemma counted_remove_entry pre o post m :
  counted m → m.(objects) = pre ++ o :: post →
  counted (remove_entry (length pre) m).
Proof.
  intros [Hnd Hty] Hobj. unfold remove_entry. rewrite Hty, Hobj.
  rewrite BusFacts.splice1_app.
  rewrite decide_False by (by destruct pre).
  rewrite lookup_singleton_eq. split; simpl.
  - rewrite Hobj in Hnd. rewrite fmap_app in *. simpl in Hnd.
    apply NoDup_app in Hnd as (H1 & H2 & H3). apply NoDup_cons in H3 as [H3 H4].
    apply NoDup_app. split_and!; try done.
    intros x Hx Hx'. apply (H2 x Hx). by apply list_elem_of_further.
  - rewrite length_app. simpl.
    destruct (decide (pre ++ post = [])) as [E|E].
    + apply app_eq_nil in E as [-> ->]. simpl. by rewrite delete_singleton_eq.
    + replace (Z.of_nat (length pre + S (length post)) - 1 =? 0) with false.
      * rewrite insert_singleton_eq. f_equal. rewrite length_app. lia.
      * symmetry. apply Z.eqb_neq. destruct pre, post; simpl in *; try done; lia.
Qed.

Lemma counted_remove obj m : counted m → counted (remove obj m).1.
Proof.
  intros Hm. unfold remove.
  destruct (searchForObject obj m =? -1) eqn:Hs; [done|]. simpl.
  apply Z.eqb_neq in Hs.
  destruct (searchForObject_found 0 (objects m) obj) as (pre & o & post & Hobj & _ & _ & Hidx);
    [lia|done|].
  unfold searchForObject. rewrite Hidx.
  replace (Z.to_nat (0 + Z.of_nat (length pre))) with (length pre) by lia.
  by eapply counted_remove_entry.
Qed.

Lemma counted_step m c : counted m → counted (call_step m c).
Proof.
  intros Hm. destruct c; simpl.
  - by apply counted_add.
  - by apply counted_remove.
  - split; [constructor|done].
Qed.

Lemma counted_run calls m : counted m → counted (call_run calls m).
Proof.
  revert m. induction calls as [|c calls IH]; intros m Hm; [done|].
  simpl. apply IH. by apply counted_step.
Qed.

(** X23: after any sequence of [add], [remove] and [removeAll] on the
    manager as it is created, no object is held twice, and [types] has
    one key at most, the [typeof] of the objects, whose count is the
    number of objects held. *)
Theorem manager_counts_what_it_holds (calls : list call) :
  let m := call_run calls initial in
  NoDup m.(objects).*1 ∧
  m.(types) !! typeof_object
  = (if decide (m.(objects) = []) then None else Some (getCountAll m)) ∧
  ∀ type, type ≠ typeof_object → m.(types) !! type = None.
Proof.
  intros m. destruct (counted_run calls initial counted_initial) as [Hnd Hty].
  fold m in Hnd, Hty. split; [done|]. rewrite Hty.
  destruct (decide (objects m = [])).
  - split; [done|]. intros. apply lookup_empty.
  - split; [apply lookup_singleton_eq|]. intros type Hne.
    by apply lookup_singleton_ne.
Qed.

(** X24: adding an object that is not held succeeds, adding it once
    more returns [false] and changes nothing, and removing it gives the
    manager back as it was before the object was added. *)
Theorem add_twice_then_remove (obj : nat * Slither.class) (m : t) :
  counted m →
  searchForObject obj.1 m = -1 →
  let m' := (add obj m).1 in
  add obj m = (m', true) ∧
  add obj m' = (m', false) ∧
  remove obj.1 m' = (m, true).
Proof.
  intros Hm Hs m'.
  assert (Hadd : add obj m
                 = (Make (objects m ++ [obj])
                      (<[typeof_object := Z.of_nat (length (objects m ++ [obj]))]> ∅)
                      (started m), true)).
  { destruct (counted_add obj m Hm) as [_ Hty]. unfold add in *.
    rewrite Hs in *. simpl in *. rewrite Hty.
    rewrite (decide_False (P := objects m ++ [obj] = []))
      by (by intros [_ ?]%app_eq_nil).
    by rewrite insert_empty. }
  unfold m'. rewrite Hadd. simpl. split; [done|].
  apply searchForObject_none in Hs; [|lia].
  split.
  - unfold add, searchForObject. simpl.
    rewrite (searchForObject_app 0 (objects m) obj []) by done.
    by replace (0 + Z.of_nat (length (objects m)) =? -1) with false
      by (symmetry; apply Z.eqb_neq; lia).
  - unfold remove, searchForObject. simpl.
    rewrite (searchForObject_app 0 (objects m) obj []) by done.
    replace (0 + Z.of_nat (length (objects m)) =? -1) with false
      by (symmetry; apply Z.eqb_neq; lia).
    replace (Z.to_nat (0 + Z.of_nat (length (objects m))))
      with (length (objects m)) by lia.
    unfold remove_entry. simpl. rewrite BusFacts.splice1_app, app_nil_r.
    rewrite lookup_insert_eq, length_app. simpl.
    destruct Hm as [_ Hty]. destruct m as [objs tys st]. simpl in *. subst tys.
    f_equal. f_equal.
    destruct objs as [|o objs]; simpl.
    + by rewrite delete_insert_eq, delete_empty.
    + replace (Z.of_nat (S (length objs + 1)) - 1 =? 0) with false
        by (symmetry; apply Z.eqb_neq; lia).
      rewrite insert_insert_eq, insert_empty. f_equal. lia.
Qed.

Lemma add_twice_then_remove_witness :
  let m := call_run [CallAdd (1%nat, Slither.Snake); CallAdd (5%nat, Slither.Mouse)]
             initial in
  let m' := (add (6%nat, Slither.Grain) m).1 in
  add (6%nat, Slither.Grain) m = (m', true) ∧
  add (6%nat, Slither.Grain) m' = (m', false) ∧
  remove 6 m' = (m, true).
Proof.
  intros m.
  apply (add_twice_then_remove (6%nat, Slither.Grain) m); [|reflexivity].
  apply counted_run, counted_initial.
Defined.

Lemma period_values :
  period 1 = 6 ∧ period 2 = 4 ∧ period 3 = 3 ∧ period 4 = 2 ∧ period 5 = 1.
Proof. by vm_compute. Qed.

Local Ltac frame_consts :=
  repeat match goal with
  | |- context [Z.abs ?d >=? Slither.FRAME_RATE] =>
      let b := eval vm_compute in (Z.abs d >=? Slither.FRAME_RATE) in
      change (Z.abs d >=? Slither.FRAME_RATE) with b
  | |- context [Math.round_div ?a ?b] =>
      let v := eval vm_compute in (Math.round_div a b) in
      change (Math.round_div a b) with v
  end; cbv iota.

Lemma handleFrames_step o :
  1 ≤ Base.getSpeed o ≤ 5 → 0 ≤ counter o < period (Base.getSpeed o) →
  handleFrames (Entity o)
  = if counter o + 1 <? period (Base.getSpeed o)
    then Done (Entity (with_ctr (counter o + 1) o), Dropped)
    else Done (if Base.getSpeed o =? 5 then Entity o
               else Entity (with_ctr 0 o), Drawn).
Proof.
  intros Hs Hc. unfold handleFrames, handleFramesAt. fold (counter o).
  assert (Base.getSpeed o = 1 ∨ Base.getSpeed o = 2 ∨ Base.getSpeed o = 3
          ∨ Base.getSpeed o = 4 ∨ Base.getSpeed o = 5)
    as [E | [E | [E | [E | E]]]] by lia;
    rewrite E in *;
    destruct period_values as (P1 & P2 & P3 & P4 & P5);
    rewrite ?P1, ?P2, ?P3, ?P4, ?P5 in *;
    change (frame_diff Slither.FRAME_RATE Slither.SpeedLevels.Max 1) with (-32);
    change (frame_diff Slither.FRAME_RATE Slither.SpeedLevels.Max 2) with (-24);
    change (frame_diff Slither.FRAME_RATE Slither.SpeedLevels.Max 3) with (-16);
    change (frame_diff Slither.FRAME_RATE Slither.SpeedLevels.Max 4) with (-8);
    change (frame_diff Slither.FRAME_RATE Slither.SpeedLevels.Max 5) with 0;
    frame_consts.
  - destruct (Z.leb_spec (counter o + 1) 5), (Z.ltb_spec (counter o + 1) 6); try lia; done.
  - destruct (Z.leb_spec (counter o + 1) 3), (Z.ltb_spec (counter o + 1) 4); try lia; done.
  - destruct (Z.leb_spec (counter o + 1) 2), (Z.ltb_spec (counter o + 1) 3); try lia; done.
  - destruct (Z.leb_spec (counter o + 1) 1), (Z.ltb_spec (counter o + 1) 2); try lia; done.
  - destruct (Z.ltb_spec (counter o + 1) 1); [lia|done].
Qed.

Lemma ctr_with_ctr c o : counter (with_ctr c o) = c.
Proof. unfold counter. simpl. by destruct (Z.eqb_spec c 0). Qed.

Lemma getSpeed_with_ctr c o : Base.getSpeed (with_ctr c o) = Base.getSpeed o.
Proof. done. Qed.

Lemma frames_count n :
  ∀ o, 1 ≤ Base.getSpeed o ≤ 5 → 0 ≤ counter o < period (Base.getSpeed o) →
    ∃ o' fs,
      frames n (Entity o) = Done (Entity o', fs) ∧
      length fs = n ∧
      drawn_count fs = (Z.of_nat n + counter o) / period (Base.getSpeed o).
Proof.
  induction n as [|n IH]; intros o Hs Hc.
  - exists o, []. split_and!; [done|done|].
    rewrite Z.div_small by lia. done.
  - cbn [frames]. rewrite handleFrames_step by done.
    set (p := period (Base.getSpeed o)) in *.
    destruct (Z.ltb_spec (counter o + 1) p) as [Hlt|Hge].
    + destruct (IH (with_ctr (counter o + 1) o)) as (o' & fs & Hf & Hlen & Hcount).
      * done.
      * rewrite getSpeed_with_ctr, ctr_with_ctr. fold p. lia.
      * exists o', (Dropped :: fs). rewrite Hf. split_and!; [done|simpl; lia|].
        unfold drawn_count in *. rewrite filter_cons_False by done.
        rewrite Hcount, getSpeed_with_ctr, ctr_with_ctr. fold p.
        f_equal. cbn [length]. lia.
    + assert (Hp : counter o = p - 1) by lia.
      set (o1 := if Base.getSpeed o =? 5 then o else with_ctr 0 o).
      assert (Ho1 : Base.getSpeed o1 = Base.getSpeed o ∧ counter o1 = 0).
      { unfold o1. destruct (Z.eqb_spec (Base.getSpeed o) 5) as [E|E].
        - split; [done|]. unfold p in *. rewrite E in *.
          destruct period_values as (_ & _ & _ & _ & P5). rewrite P5 in *. lia.
        - by rewrite getSpeed_with_ctr, ctr_with_ctr. }
      destruct Ho1 as [Hs1 Hc1].
      destruct (IH o1) as (o' & fs & Hf & Hlen & Hcount).
      * by rewrite Hs1.
      * rewrite Hs1, Hc1. fold p. lia.
      * exists o', (Drawn :: fs).
        replace (if Base.getSpeed o =? 5 then Entity o else Entity (with_ctr 0 o))
          with (Entity o1) by (unfold o1; by destruct (_ =? 5)).
        rewrite Hf. split_and!; [done|simpl; lia|].
        unfold drawn_count in *. rewrite filter_cons_True by done.
        cbn [length]. rewrite Nat2Z.inj_succ, Hcount, Hs1, Hc1. fold p.
        rewrite Hp.
        replace (Z.of_nat (S n) + (p - 1)) with (Z.of_nat n + 0 + 1 * p) by lia.
        rewrite Z.div_add by lia. lia.
Qed.

(** X25: an object with a speed from 1 to 5 and a fresh frame counter is
    drawn in exactly [n / period] of [n] successive frames, where the
    period is 6, 4, 3, 2 and 1 frames at the speeds 1, 2, 3, 4 and 5;
    [handleFrames] never throws on the way. *)
Theorem frames_are_drawn_once_per_period (n : nat) (o : Base.t) :
  1 ≤ Base.getSpeed o ≤ 5 →
  Base.falsy o.(Base.frame_skip_ctr) = true →
  (∃ o' fs,
     frames n (Entity o) = Done (Entity o', fs) ∧
     length fs = n ∧
     drawn_count fs = Z.of_nat n / period (Base.getSpeed o)) ∧
  (period 1, period 2, period 3, period 4, period 5) = (6, 4, 3, 2, 1).
Proof.
  intros Hs Hc. split; [|by vm_compute].
  assert (Hctr : counter o = 0) by (unfold counter; by rewrite Hc).
  destruct (frames_count n o Hs) as (o' & fs & Hf & Hlen & Hcount).
  - rewrite Hctr.
    assert (Base.getSpeed o = 1 ∨ Base.getSpeed o = 2 ∨ Base.getSpeed o = 3
            ∨ Base.getSpeed o = 4 ∨ Base.getSpeed o = 5)
      as [E | [E | [E | [E | E]]]] by lia; rewrite E; by vm_compute.
  - exists o', fs. rewrite Hctr, Z.add_0_r in Hcount. done.
Qed.

Lemma frames_are_drawn_once_per_period_witness :
  let o := Base.Make 4 Slither.Mouse (Some 2) [] true false None in
  ∃ o' fs,
    frames 9 (Entity o) = Done (Entity o', fs) ∧
    length fs = 9%nat ∧
    drawn_count fs = 9 / period 2.
Proof.
  intros o.
  destruct (frames_are_drawn_once_per_period 9 o) as [H _];
    [by vm_compute|reflexivity|exact H].
Defined.

End ObjectManagerFacts.

(** ** The level manager *)
Module LevelManagerFacts.
Import LevelManager.Registry.

Lemma searchFrom_function i levels f : searchFrom i levels (Fun f) = -1.
Proof.
  revert i. induction levels as [|entry levels IH]; intros i;
    cbn [searchFrom]; [done|].
  rewrite bool_decide_eq_false_2 by done. apply IH.
Qed.

Lemma searchForLevel_none callback m : searchForLevel callback m = -1.
Proof.
  unfold searchForLevel. destruct callback; simpl; try done.
  apply searchFrom_function.
Qed.

Lemma remove_unchanged callback m : remove callback m = (m, false).
Proof.
  unfold remove. rewrite searchForLevel_none. by destruct (negb _).
Qed.

Lemma add_appends callback scope m :
  add callback scope m
  = (if is_function callback
     then (Make (m.(levels)
                 ++ [Activation m.(next_ref) callback
                       (if truthy scope then scope else Undefined)])
             m.(level) (S m.(next_ref)), true)
     else (m, false)).
Proof.
  unfold add. rewrite searchForLevel_none. by destruct (is_function callback).
Qed.

(** X26: [searchForLevel] compares the entries of [levels], which are
    the objects [add] creates, with the callback, a function, so that it
    finds nothing: [remove] returns [false] and changes nothing, and
    [add] appends every function it is given, also one that was added
    before. *)
Theorem levels_are_never_found (callback scope : value) (m : t) :
  searchForLevel callback m = -1 ∧
  remove callback m = (m, false) ∧
  add callback scope m
  = (if is_function callback
     then (Make (m.(levels)
                 ++ [Activation m.(next_ref) callback
                       (if truthy scope then scope else Undefined)])
             m.(level) (S m.(next_ref)), true)
     else (m, false)) ∧
  (is_function callback = true →
   getCount (add callback scope (add callback scope m).1).1 = getCount m + 2).
Proof.
  split; [apply searchForLevel_none|]. split; [apply remove_unchanged|].
  split; [apply add_appends|].
  intros Hf. rewrite !add_appends, Hf. unfold getCount. simpl.
  rewrite !length_app. simpl. lia.
Qed.

Lemma bounded_advance dir m :
  bounded m →
  bounded (call_step m (CallAdvance dir)).
Proof.
  unfold bounded, call_step, advance. intros Hm.
  set (level' := if bool_decide (dir = Num (-1)) then level m else level m + 1).
  assert (Hl : -1 ≤ level') by (unfold level'; destruct (bool_decide _); lia).
  destruct (Z.gtb_spec level' (Z.of_nat (length (levels m)) - 1)) as [Hgt|Hle];
    simpl; [lia|].
  destruct (level' <? 0); simpl; [lia|].
  destruct (levels m !! Z.to_nat level'); simpl; lia.
Qed.

Lemma bounded_step m c : bounded m → bounded (call_step m c).
Proof.
  intros Hm. destruct c as [callback scope|callback| |dir|].
  - simpl. rewrite add_appends.
    destruct (is_function callback); [|done].
    unfold bounded in *. simpl. rewrite length_app. simpl. lia.
  - simpl. by rewrite remove_unchanged.
  - unfold bounded. simpl. lia.
  - by apply bounded_advance.
  - unfold bounded, call_step, startOver, advance. simpl.
    destruct (Z.gtb_spec (-1 + 1) (Z.of_nat (length (levels m)) - 1)) as [Hgt|Hle];
      simpl; [lia|].
    destruct (levels m !! _); simpl; lia.
Qed.

Lemma bounded_run calls m : bounded m → bounded (call_run calls m).
Proof.
  revert m. induction calls as [|c calls IH]; intros m Hm; [done|].
  simpl. apply IH. by apply bounded_step.
Qed.

(** X27: after any sequence of calls on the manager as it is created,
    the level number lies between zero and the number of levels;
    [advance()] does not throw on its way to the callback of the level,
    and [advance(-1)] throws exactly when no level has been started. *)
Theorem level_number_stays_in_range (calls : list call) :
  let m := call_run calls initial in
  0 ≤ getLevelNum m ≤ getCount m ∧
  advance Undefined m ≠ Threw ∧
  (advance (Num (-1)) m = Threw ↔ getLevelNum m = 0).
Proof.
  intros m. assert (Hm : bounded m).
  { apply bounded_run. unfold bounded. simpl. lia. }
  unfold bounded in Hm. unfold getLevelNum, getCount. split; [lia|].
  unfold advance. simpl. split.
  - destruct (Z.gtb_spec (level m + 1) (Z.of_nat (length (levels m)) - 1))
      as [Hgt|Hle]; [done|].
    destruct (Z.ltb_spec (level m + 1) 0); [lia|].
    destruct (levels m !! Z.to_nat (level m + 1)) eqn:E; [done|].
    apply lookup_ge_None in E. lia.
  - destruct (Z.gtb_spec (level m) (Z.of_nat (length (levels m)) - 1))
      as [Hgt|Hle]; [lia|].
    destruct (Z.ltb_spec (level m) 0); [split; [lia|done]|].
    destruct (levels m !! Z.to_nat (level m)) eqn:E.
    + split; [done|lia].
    + apply lookup_ge_None in E. lia.
Qed.

End LevelManagerFacts.

(** ** The game: placement, rewards and restart *)
Module PlacementFacts.
Import Game.

Section Engine.

Variable random : nat → Q.
Hypothesis random_unit : ∀ i, (0 <= random i)%Q ∧ (random i < 1)%Q.

Lemma genNumber_game low high g :
  low ≤ high →
  low ≤ (genNumber random low high g).1 ≤ high ∧
  (genNumber random low high g).2.(alloc) = g.(alloc) ∧
  (genNumber random low high g).2.(boundaries) = g.(boundaries) ∧
  (g.(rng) ≤ (genNumber random low high g).2.(rng))%nat.
Proof.
  intros Hlh. unfold genNumber. destruct (Z.eqb_spec low high) as [E|E]; simpl.
  - split_and!; try done; lia.
  - pose proof (SchedulerFacts.genNumber_range low high (random (rng g)) Hlh
                  (proj1 (random_unit _)) (proj2 (random_unit _))).
    split_and!; try done; lia.
Qed.


End Engine.


End PlacementFacts.

Module RewardFacts.
Import Game.

(** X29: for every speed from 1 to 5 the score and the growth [onEat]
    computes in floating point are the exact values: a mouse gives three
    times the speed, a grain three fifths of the speed rounded up, a rat
    thirty times the speed; the snake grows by half the speed rounded
    up, by one block for a grain. *)
Theorem eat_reward_is_exact (speed : Z) :
  1 ≤ speed ≤ 5 →
  eat_reward Slither.Mouse speed = (3 * speed, (speed + 1) / 2) ∧
  eat_reward Slither.Grain speed = ((3 * speed + 4) / 5, 1) ∧
  eat_reward Slither.Rat speed = (30 * speed, (speed + 1) / 2) ∧
  ∀ c, c ≠ Slither.Mouse → c ≠ Slither.Grain → c ≠ Slither.Rat →
       eat_reward c speed = (0, (speed + 1) / 2).
Proof.
  intros Hs.
  assert (speed = 1 ∨ speed = 2 ∨ speed = 3 ∨ speed = 4 ∨ speed = 5)
    as [-> | [-> | [-> | [-> | ->]]]] by lia;
    (split_and!; [by vm_compute..|]);
    intros c H1 H2 H3; destruct c; try done; by vm_compute.
Qed.

Lemma eat_reward_is_exact_witness :
  eat_reward Slither.Grain 4 = (3, 1) ∧ eat_reward Slither.Rat 4 = (120, 2).
Proof.
  destruct (eat_reward_is_exact 4) as (_ & H1 & H2 & _); [lia|].
  split; [exact H1|exact H2].
Defined.

End RewardFacts.

Module RestartFacts.
Import Game.

Lemma status_set_alloc v g : status (set_alloc v g) = status g.
Proof. done. Qed.

Lemma status_set_snake v g : status (set_snake v g) = status g.
Proof. done. Qed.

Lemma status_set_heap v g : status (set_heap v g) = status g.
Proof. done. Qed.

Lemma status_set_object_man v g : status (set_object_man v g) = status g.
Proof. done. Qed.

Lemma status_set_next_ref v g : status (set_next_ref v g) = status g.
Proof. done. Qed.

Lemma status_set_rng v g : status (set_rng v g) = status g.
Proof. done. Qed.

Section Engine.

Variable random : nat → Q.
Variable trigger : string → value → data → value → t → t.
Variable clear : nat → t → t.
Variable level_code : Z → bool → t → t.
Variable freezeRats : bool → t → t.
Variable animate : t → t.

(** The handlers of the events, the clearing of an object, the code of
    the levels, [freezeRats] and the drawing of the objects leave the
    fields a restart sets as they are. *)
Hypothesis trigger_status :
  ∀ event_type sender d target_only g,
    status (trigger event_type sender d target_only g) = status g.
Hypothesis clear_status : ∀ obj g, status (clear obj g) = status g.
Hypothesis level_code_status :
  ∀ level restart g, status (level_code level restart g) = status g.
Hypothesis freezeRats_status :
  ∀ enable g, status (freezeRats enable g) = status g.
Hypothesis animate_status : ∀ g, status (animate g) = status g.

Lemma status_remove obj g : status (object_man_remove clear obj g) = status g.
Proof.
  unfold object_man_remove. destruct (_ =? -1); [done|].
  by rewrite status_set_object_man, clear_status.
Qed.

Lemma status_clear_all objs g :
  status (foldl (λ g' (o : nat * Slither.class), clear o.1 g') g objs)
  = status g.
Proof.
  revert g. induction objs as [|o objs IH]; intros g; simpl; [done|].
  by rewrite IH, clear_status.
Qed.

Lemma status_removeAll g : status (object_man_removeAll clear g) = status g.
Proof.
  unfold object_man_removeAll.
  by rewrite status_set_object_man, status_clear_all, status_set_object_man.
Qed.

Lemma status_start frame_rate g :
  status (object_man_start animate frame_rate g) = status g.
Proof.
  unfold object_man_start. destruct (_ && _); [|done].
  by rewrite animate_status, status_set_object_man.
Qed.

Lemma status_setupSnake reset g :
  status (setupSnake random trigger clear reset g)
  = status (set_player_dead false g).
Proof.
  unfold setupSnake, object_man_add. cbv zeta.
  rewrite status_set_object_man.
  set (g0 := set_player_dead false g).
  assert (H : ∀ g1, status g1 = status g0 →
    status (set_snake (Some (next_ref g1))
      (trigger "alloc" (Obj (next_ref g1)) (DCoord 0 0) Undefined
         (set_next_ref (S (next_ref g1))
            (set_heap
               (<[next_ref g1 :=
                    Snake.init (next_ref g1)
                      (Snake.Options Undefined
                         (if negb (default true reset)
                             && negb (Base.falsy (Snake.getLength <$> player g0))
                          then Snake.getLength <$> player g0 else None)
                         (Slither.SpeedNum (getSpeed g1)))
                      (random (rng g1))]> (heap g1)) g1))))
    = status g0).
  { intros g1 H1.
    by rewrite status_set_snake, trigger_status, status_set_next_ref,
      status_set_heap. }
  destruct (negb (default true reset));
    [destruct (Snake.getUpgrades <$> player g0)|];
    rewrite ?status_set_heap; apply H;
    rewrite status_set_snake; destruct (snake g0); by rewrite ?status_remove.
Qed.

Lemma start_idle fuel g sc lv pl L :
  status g = (false, false, false, sc, lv, pl, LevelManager.Make 0 L) →
  start random trigger clear level_code freezeRats animate fuel g
  = Done (set_started true (object_man_start animate Slither.FRAME_RATE g)).
Proof.
  unfold status. intros [= Hs Hf Hd _ _ _ Hl].
  destruct fuel; simpl; by rewrite Hs, Hf, Hd, Hl.
Qed.

(** X30: [restart()] on a game with at least one level returns, from
    any state, with the game running on its first level: started, not
    finished, the player alive, the score zero and the lives those of the
    original options (three when these are not positive), provided that
    the event handlers, the code of the level and the drawing of the
    objects leave these fields as they are. *)
Theorem restart_gives_a_fresh_running_game (fuel : nat) (g : t) :
  1 ≤ g.(level_man).(LevelManager.levels) →
  ∃ g',
    restart random trigger clear level_code freezeRats animate fuel g
    = Done g' ∧
    status g'
    = (true, false, false, 0,
       (if g.(prev_lives) <=? 0 then DEFAULT_LIVES else g.(prev_lives)),
       g.(prev_lives),
       LevelManager.Make 0 g.(level_man).(LevelManager.levels)).
Proof.
  intros HL. unfold restart. cbv zeta.
  rewrite (LifecycleFacts.pause_not_started (set_finished false (set_started false g))) by done.
  set (g1 := setupSnake random trigger clear None
               (set_finished false (set_started false g))).
  assert (H1 : status g1
               = (false, false, false, score g, lives g, prev_lives g,
                  level_man g))
    by (unfold g1; by rewrite status_setupSnake).
  clearbody g1.
  set (g2 := set_lives (prev_lives (set_alloc ∅ (set_score 0 g1)))
               (set_alloc ∅ (set_score 0 g1))).
  assert (H2 : status g2
               = (false, false, false, 0, prev_lives g, prev_lives g,
                  level_man g)).
  { unfold status in H1. injection H1 as E1 E2 E3 E4 E5 E6 E7.
    unfold g2, status. simpl. by rewrite E1, E2, E3, E6, E7. }
  clearbody g2.
  set (g3 := if lives g2 <=? 0 then set_lives DEFAULT_LIVES g2 else g2).
  assert (H3 : status g3
               = (false, false, false, 0,
                  (if prev_lives g <=? 0 then DEFAULT_LIVES else prev_lives g),
                  prev_lives g, level_man g)).
  { unfold status in H2. injection H2 as E1 E2 E3 E4 E5 E6 E7.
    unfold g3. rewrite E5. destruct (prev_lives g <=? 0); unfold status; simpl;
      by rewrite E1, E2, E3, E4, ?E5, E6, E7. }
  clearbody g3.
  unfold startOver, advance. simpl.
  assert (E7 : level_man g3 = level_man g)
    by (unfold status in H3; by injection H3).
  rewrite E7.
  replace (-1 + 1 >? LevelManager.levels (level_man g) - 1) with false
    by (symmetry; rewrite Z.gtb_ltb; apply Z.ltb_ge; lia).
  simpl. unfold level_callback. cbv zeta.
  set (g4 := set_level_man _ (set_level_man _ g3)).
  assert (H4 : status g4
               = (false, false, false, 0,
                  (if prev_lives g <=? 0 then DEFAULT_LIVES else prev_lives g),
                  prev_lives g,
                  LevelManager.Make 0 (LevelManager.levels (level_man g)))).
  { unfold status in H3. injection H3 as E1 E2 E3 E4 E5 E6 _.
    unfold g4, status. simpl. by rewrite E1, E2, E3, E4, E5, E6. }
  clearbody g4.
  rewrite (LifecycleFacts.pause_not_started g4) by (unfold status in H4; by injection H4).
  set (g5 := setupSnake random trigger clear (Some false)
               (object_man_removeAll clear g4)).
  assert (H5 : status g5 = status g4).
  { unfold g5. rewrite status_setupSnake.
    pose proof (status_removeAll g4) as Hr.
    unfold status in H4, Hr |- *. injection H4 as F1 F2 F3 F4 F5 F6 F7.
    injection Hr as R1 R2 R3 R4 R5 R6 R7. simpl.
    by rewrite R1, R2, R4, R5, R6, R7, F3. }
  set (g6 := level_code _ false g5).
  assert (H6 : status g6 = status g4)
    by (unfold g6; by rewrite level_code_status).
  set (g7 := match player g6 with
             | Some s =>
                 if Snake.hasUpgrade Slither.UpgradeItemTypes.RatParalyzer s
                 then freezeRats true g6 else g6
             | None => g6
             end).
  assert (H7 : status g7 = status g4).
  { unfold g7. destruct (player g6) as [s|]; [|done].
    destruct (Snake.hasUpgrade _ s); [|done]. by rewrite freezeRats_status. }
  rewrite H4 in H7. rewrite (start_idle fuel g7 _ _ _ _ H7).
  eexists. split; [reflexivity|].
  pose proof (status_start Slither.FRAME_RATE g7) as Hs. rewrite H7 in Hs.
  unfold status in Hs |- *. injection Hs as F1 F2 F3 F4 F5 F6 F7. simpl.
  by rewrite F2, F3, F4, F5, F6, F7.
Qed.

End Engine.

Lemma grid_trigger_status event_type sender d target_only g :
  status (Scenario.grid_trigger event_type sender d target_only g) = status g.
Proof.
  unfold Scenario.grid_trigger. destruct d; try done.
  destruct (bool_decide _); [|done].
  destruct (onAlloc sender x y (alloc g)) as [a e].
  destruct (payload e); try done. destruct sender; try done.
  simpl. destruct (heap g !! ref); [|done].
  by destruct (Snake.onAllocRecv x y t0).
Qed.

Lemma grid_clear_status obj g : status (Scenario.grid_clear obj g) = status g.
Proof. unfold Scenario.grid_clear. by destruct (heap g !! obj). Qed.

Lemma restart_gives_a_fresh_running_game_witness :
  finished Scenario.game_over = true ∧
  ∃ g',
    restart Scenario.quiet_random Scenario.grid_trigger Scenario.grid_clear
      Scenario.empty_level Scenario.no_freeze Scenario.no_animate 1
      Scenario.game_over = Done g' ∧
    status g' = (true, false, false, 0, 3, 3, LevelManager.Make 0 7).
Proof.
  split; [reflexivity|].
  apply (restart_gives_a_fresh_running_game
           Scenario.quiet_random Scenario.grid_trigger Scenario.grid_clear
           Scenario.empty_level Scenario.no_freeze Scenario.no_animate
           grid_trigger_status grid_clear_status
           (λ _ _ _, eq_refl) (λ _ _, eq_refl) (λ _, eq_refl)
           1 Scenario.game_over).
  by vm_compute.
Defined.

End RestartFacts.
